(** * Brand vs non-brand analysis: a shallow embedding of
      [brand_vs_nonbrand_analysis.js]

    The script classifies search-term rows as branded or non-branded,
    accumulates five metrics per period, merges the channels and renders
    the result.  This file embeds it as follows.

    - JavaScript numbers are IEEE-754 doubles: they are Rocq's primitive
      floats, so [+=] is [PrimFloat.add] with its rounding.  The code that
      only adds is written once over any number type ([Section
      Aggregation]) and run on doubles.
    - Strings are sequences of one-byte characters; case mapping and white
      space are those of ASCII.
    - Plain objects used as maps (the period data) are [gmap string _];
      their keys are the period strings of the reports, none of which is a
      property name inherited from [Object.prototype].
    - Report rows are records whose properties may be missing; a row is an
      object, so decoding it throws nothing and the [catch] of the row
      loops is never entered.
    - The regular expressions are those of a fragment: literal characters,
      bracket classes, [?] and [|].
    - A [Date] is a time value in milliseconds, read and stepped in the
      time zone of the runtime and printed in that of the account
      ([Module JsDate], [Module Instants]).  The run of [main] counts in
      days, as the script does in one time zone that keeps its offset
      ([getPeriodRanges_of_the_run]).
    - Sums of whole numbers are followed through the doubles: they are
      exact below 2^53 ([toDouble_add]).
    - The module-level [BRAND_PATTERNS] and the configuration constants
      are passed explicitly; the calls on the report and spreadsheet
      services are recorded as a list of events. *)

From Stdlib Require Import ZArith Floats Ascii String List Bool Permutation Sorted.
From Stdlib Require Uint63.
From stdpp Require Import gmap strings list fin_maps.

Local Open Scope string_scope.

(** ** JavaScript values carried by report rows *)

Inductive JsValue : Type :=
| JUndefined
| JNull
| JBool (b : bool)
| JNum (f : float)
| JStr (s : string).

(** Strings are sequences of one-byte characters; the case mapping and the
    white space below are those of ASCII. *)
Module JsString.

Definition upperChar (c : ascii) : ascii :=
  let n := nat_of_ascii c in
  if (97 <=? n)%nat && (n <=? 122)%nat then ascii_of_nat (n - 32) else c.

(** [s.toUpperCase()] *)
Fixpoint toUpperCase (s : string) : string :=
  match s with
  | EmptyString => EmptyString
  | String c r => String (upperChar c) (toUpperCase r)
  end.

Definition isWhiteSpace (c : ascii) : bool :=
  let n := nat_of_ascii c in
  ((9 <=? n)%nat && (n <=? 13)%nat) || (n =? 32)%nat.

Fixpoint trimStart (s : string) : string :=
  match s with
  | EmptyString => EmptyString
  | String c r => if isWhiteSpace c then trimStart r else s
  end.

(** [trimEnd] keeps a character when it is not white space or when
    something is left after it. *)
Fixpoint trimEnd (s : string) : string :=
  match s with
  | EmptyString => EmptyString
  | String c r =>
      match trimEnd r with
      | EmptyString => if isWhiteSpace c then EmptyString else String c EmptyString
      | r' => String c r'
      end
  end.

(** [s.trim()] *)
Definition trim (s : string) : string := trimEnd (trimStart s).

End JsString.

Import JsString.

(** ** The brand matcher: [buildBrandPatterns] and [isBranded] *)

Module BrandMatcher.

(** The regular expressions the script builds use literal characters,
    bracket classes of literal characters, the [?] quantifier and [|].
    [RegExp] is the abstract syntax of that fragment. *)
Inductive Atom : Type :=
| ALit (c : ascii)
| AClass (cs : list ascii).

Record Term : Type := mkTerm { atom : Atom; optional : bool }.

Record RegExp : Type := mkRegExp {
  alternatives : list (list Term);
  ignoreCase : bool
}.

Definition isDigit (c : ascii) : bool :=
  let n := nat_of_ascii c in (48 <=? n)%nat && (n <=? 57)%nat.

Definition isSeparator (c : ascii) : bool :=
  Ascii.eqb c "-" || Ascii.eqb c " ".

(** [token.replace(/[- ]/g, '[-_ ]?')] *)
Fixpoint replaceSeparators (s : string) : string :=
  match s with
  | EmptyString => EmptyString
  | String c r =>
      if isSeparator c then "[-_ ]?" +:+ replaceSeparators r
      else String c (replaceSeparators r)
  end.

(** [.replace(/([0-9])/g, ' ?$1')] *)
Fixpoint replaceDigits (s : string) : string :=
  match s with
  | EmptyString => EmptyString
  | String c r =>
      if isDigit c then " ?" +:+ String c (replaceDigits r)
      else String c (replaceDigits r)
  end.

Definition tokenSource (token : string) : string :=
  replaceDigits (replaceSeparators token).

(** [BRAND_TOKENS.map(...).join('|')] *)
Definition patternSource (tokens : list string) : string :=
  String.concat "|" (map tokenSource tokens).

(** Characters with a meaning of their own in a pattern.  [|], [?] and [[]
    are read by [parseStep]; the others are outside the fragment. *)
Definition isSyntaxChar (c : ascii) : bool :=
  existsb (Ascii.eqb c)
    ["\"; "^"; "$"; "."; "*"; "+"; "("; ")"; "]"; "{"; "}"]%char.

Inductive ParseMode : Type :=
| Normal
| InClass (members : list ascii).

(** The parser state: the mode, the terms of the alternative being read
    (last term first) and the alternatives already closed (last first). *)
Record ParseState : Type := mkParse {
  mode : ParseMode;
  current : list Term;
  closed : list (list Term)
}.

Definition parseStep (st : ParseState) (c : ascii) : option ParseState :=
  match mode st with
  | InClass ms =>
      if Ascii.eqb c "]" then
        Some (mkParse Normal (mkTerm (AClass (rev ms)) false :: current st) (closed st))
      else if Ascii.eqb c "\" || Ascii.eqb c "[" then None
      else if Ascii.eqb c "^" || Ascii.eqb c "-" then
        match ms with
        | [] => if Ascii.eqb c "-" then Some (mkParse (InClass [c]) (current st) (closed st)) else None
        | _ :: _ => None
        end
      else Some (mkParse (InClass (c :: ms)) (current st) (closed st))
  | Normal =>
      if Ascii.eqb c "|" then
        Some (mkParse Normal [] (rev (current st) :: closed st))
      else if Ascii.eqb c "?" then
        match current st with
        | mkTerm a false :: ts => Some (mkParse Normal (mkTerm a true :: ts) (closed st))
        | _ => None
        end
      else if Ascii.eqb c "[" then
        Some (mkParse (InClass []) (current st) (closed st))
      else if isSyntaxChar c then None
      else Some (mkParse Normal (mkTerm (ALit c) false :: current st) (closed st))
  end.

Fixpoint parseFrom (st : ParseState) (s : string) : option ParseState :=
  match s with
  | EmptyString => Some st
  | String c r =>
      match parseStep st c with
      | Some st' => parseFrom st' r
      | None => None
      end
  end.

(** [new RegExp(source, 'i')] on the fragment; [None] when the source uses
    syntax outside it (the engine may then throw or build another
    expression). *)
Definition newRegExp (source : string) : option RegExp :=
  match parseFrom (mkParse Normal [] []) source with
  | Some (mkParse Normal cur cl) => Some (mkRegExp (rev (rev cur :: cl)) true)
  | _ => None
  end.

(** Two characters are the same under the [i] flag when their upper-case
    forms are. *)
Definition charEq (ic : bool) (a b : ascii) : bool :=
  if ic then Ascii.eqb (upperChar a) (upperChar b) else Ascii.eqb a b.

Definition atomMatches (ic : bool) (a : Atom) (c : ascii) : bool :=
  match a with
  | ALit l => charEq ic l c
  | AClass cs => existsb (fun m => charEq ic m c) cs
  end.

(** Does the sequence of terms match a prefix of [s]? *)
Fixpoint matchTerms (ic : bool) (ts : list Term) (s : string) : bool :=
  match ts with
  | [] => true
  | t :: ts' =>
      match s with
      | String c r => atomMatches ic (atom t) c && matchTerms ic ts' r
      | EmptyString => false
      end
      || (optional t && matchTerms ic ts' s)
  end.

Definition matchHere (re : RegExp) (s : string) : bool :=
  existsb (fun alt => matchTerms (ignoreCase re) alt s) (alternatives re).

(** [re.test(s)]: a match may start at any index, the end of [s] included. *)
Fixpoint test (re : RegExp) (s : string) : bool :=
  matchHere re s ||
  match s with
  | EmptyString => false
  | String _ r => test re r
  end.

Definition buildBrandPatterns (tokens : list string) : option (list RegExp) :=
  match newRegExp (patternSource tokens) with
  | Some pattern => Some [pattern]
  | None => None
  end.

(** [isBranded(text)], reading the patterns it is given in place of the
    module-level [BRAND_PATTERNS]. *)
Definition isBranded (BRAND_PATTERNS : list RegExp) (text : JsValue) : bool :=
  match text with
  | JStr s =>
      if String.eqb s "" then false
      else existsb (fun p => test p s) BRAND_PATTERNS
  | _ => false
  end.

End BrandMatcher.

Import BrandMatcher.

(** ** Metric vectors and period data

    The accumulation code only adds numbers.  It is written once over a
    number type with a zero and an addition; the script runs it on doubles
    ([jsZero], [jsAdd] below). *)

Inductive Category : Type := CBranded | CNonBranded | CBlank.

Section Aggregation.

Context {num : Type} (zero : num) (add : num -> num -> num).

Record Metrics : Type := mkMetrics {
  impressions : num;
  clicks : num;
  cost : num;
  conversions : num;
  conversionsValue : num
}.

Definition emptyMetrics : Metrics := mkMetrics zero zero zero zero zero.

(** The five [target.x += rowMetrics.x] statements. *)
Definition addMetrics (target rowMetrics : Metrics) : Metrics :=
  mkMetrics (add (impressions target) (impressions rowMetrics))
            (add (clicks target) (clicks rowMetrics))
            (add (cost target) (cost rowMetrics))
            (add (conversions target) (conversions rowMetrics))
            (add (conversionsValue target) (conversionsValue rowMetrics)).

(** The four statements of the category source, which leave [cost] alone. *)
Definition addMetricsNoCost (target rowMetrics : Metrics) : Metrics :=
  mkMetrics (add (impressions target) (impressions rowMetrics))
            (add (clicks target) (clicks rowMetrics))
            (cost target)
            (add (conversions target) (conversions rowMetrics))
            (add (conversionsValue target) (conversionsValue rowMetrics)).

(** An object [{branded, nonBranded}] with or without a [blank] property:
    the shape of [totals] and of every entry of a period map. *)
Record Bucket : Type := mkBucket {
  branded : Metrics;
  nonBranded : Metrics;
  blank : option Metrics
}.

Definition emptyPeriodData : Bucket := mkBucket emptyMetrics emptyMetrics None.

Definition emptyPeriodDataWithBlank : Bucket :=
  mkBucket emptyMetrics emptyMetrics (Some emptyMetrics).

Definition addToBucket (b : Bucket) (isBrandedRow : bool) (rowMetrics : Metrics) : Bucket :=
  if isBrandedRow
  then mkBucket (addMetrics (branded b) rowMetrics) (nonBranded b) (blank b)
  else mkBucket (branded b) (addMetrics (nonBranded b) rowMetrics) (blank b).

Definition addRowToPeriodData (periodData : gmap string Bucket) (periodKey : string)
    (isBrandedRow : bool) (rowMetrics : Metrics) : gmap string Bucket :=
  let periodData' :=
    match periodData !! periodKey with
    | Some _ => periodData
    | None => <[periodKey := emptyPeriodData]> periodData
    end in
  match periodData' !! periodKey with
  | Some b => <[periodKey := addToBucket b isBrandedRow rowMetrics]> periodData'
  | None => periodData'
  end.

(** [obj[category]] updated by [f]; [None] is the [TypeError] raised when
    [category] is ['blank'] and the object has no such property. *)
Definition updateCategory (f : Metrics -> Metrics) (b : Bucket) (category : Category)
    : option Bucket :=
  match category with
  | CBranded => Some (mkBucket (f (branded b)) (nonBranded b) (blank b))
  | CNonBranded => Some (mkBucket (branded b) (f (nonBranded b)) (blank b))
  | CBlank =>
      match blank b with
      | Some m => Some (mkBucket (branded b) (nonBranded b) (Some (f m)))
      | None => None
      end
  end.

Definition addRowToPeriodDataWithBlank (periodData : gmap string Bucket)
    (periodKey : string) (category : Category) (rowMetrics : Metrics)
    : option (gmap string Bucket) :=
  let b :=
    match periodData !! periodKey with
    | Some b => b
    | None => emptyPeriodDataWithBlank
    end in
  match updateCategory (fun target => addMetrics target rowMetrics) b category with
  | Some b' => Some (<[periodKey := b']> periodData)
  | None => None
  end.

Record ChannelResult : Type := mkResult {
  totals : Bucket;
  periodData : gmap string Bucket
}.

(** [mergeTotals(target, source)]: ten [+=] on [branded] and [nonBranded]. *)
Definition mergeTotals (target source : Bucket) : Bucket :=
  mkBucket (addMetrics (branded target) (branded source))
           (addMetrics (nonBranded target) (nonBranded source))
           (blank target).

(** The body of the [for (key in source)] loop of [mergePeriodData]. *)
Definition mergePeriodKey (key : string) (src : Bucket) (target : gmap string Bucket)
    : gmap string Bucket :=
  let target' :=
    match target !! key with
    | Some _ => target
    | None => <[key := emptyPeriodData]> target
    end in
  match target' !! key with
  | Some b => <[key := mergeTotals b src]> target'
  | None => target'
  end.

Definition mergePeriodData (target source : gmap string Bucket) : gmap string Bucket :=
  map_fold mergePeriodKey target source.

(** A row once decoded: its period key, its class and its metric vector. *)
Record Classified : Type := mkClassified {
  periodKey : string;
  isBrandedRow : bool;
  rowMetrics : Metrics
}.

(** The tail of the row loop of [processSearchTermView] and of
    [processCampaignSearchTermView]: totals first, period data second. *)
Definition accumulate (st : ChannelResult) (r : Classified) : ChannelResult :=
  mkResult (addToBucket (totals st) (isBrandedRow r) (rowMetrics r))
           (addRowToPeriodData (periodData st) (periodKey r) (isBrandedRow r) (rowMetrics r)).

Definition emptyResult : ChannelResult :=
  mkResult (mkBucket emptyMetrics emptyMetrics None) ∅.

Definition aggregate (rows : list Classified) : ChannelResult :=
  fold_left accumulate rows emptyResult.

(** What [main] does with two channel results. *)
Definition mergeResults (target source : ChannelResult) : ChannelResult :=
  mkResult (mergeTotals (totals target) (totals source))
           (mergePeriodData (periodData target) (periodData source)).


End Aggregation.

Arguments Metrics : clear implicits.
Arguments Bucket : clear implicits.
Arguments ChannelResult : clear implicits.
Arguments Classified : clear implicits.

(** ** Numbers and coercions *)

Definition jsZero : float := 0%float.
Definition jsAdd : float -> float -> float := PrimFloat.add.

(** [ToBoolean] of a number: false for [+0], [-0] and [NaN]. *)
Definition numberIsTruthy (x : float) : bool :=
  negb (PrimFloat.eqb x 0 || PrimFloat.is_nan x).

(** [x || 0] on a number. *)
Definition orZero (x : float) : float :=
  if numberIsTruthy x then x else 0%float.

(** [ToBoolean] of an optional string: [undefined] and [''] are falsy. *)
Definition truthyString (s : option string) : bool :=
  match s with
  | Some s => negb (String.eqb s "")
  | None => false
  end.

Inductive Granularity : Type := Month | Week.

(** ** Report rows *)

Module Raw.
(** [row.metrics]: any value may sit in a field, [undefined] included. *)
Record Metrics : Type := mkMetrics {
  impressions : JsValue;
  clicks : JsValue;
  costMicros : JsValue;
  conversions : JsValue;
  conversionsValue : JsValue
}.
End Raw.

Record Segments : Type := mkSegments {
  searchTermTargetingStatus : option string;
  search_term_targeting_status : option string;
  week : option string;
  month : option string
}.

(** A row of a report.  Every property may be missing ([None]); text
    properties hold strings, as the report schema has them. *)
Record Row : Type := mkRow {
  searchTermView : option (option string);          (* .searchTerm *)
  campaignSearchTermView : option (option string);  (* .searchTerm *)
  campaignSearchTermInsight : option (option string); (* .categoryLabel *)
  campaign : option (option string);                (* .id *)
  metrics : option Raw.Metrics;
  segments : option Segments
}.

(** [obj && obj.prop ? obj.prop : ''] *)
Definition textOr (obj : option (option string)) : string :=
  match obj with
  | Some (Some s) => s
  | _ => ""
  end.

Section Ingestion.

(** The engine's conversion of a string to a number (the [StringToNumber]
    operation behind [Number(s)]). *)
Variable StringToNumber : string -> float.

Definition Number (v : JsValue) : float :=
  match v with
  | JUndefined => nan
  | JNull => 0%float
  | JBool b => if b then 1%float else 0%float
  | JNum f => f
  | JStr s => StringToNumber s
  end.

(** [m.f] where [m = row.metrics || {}]. *)
Definition metricField (f : Raw.Metrics -> JsValue) (row : Row) : JsValue :=
  match metrics row with
  | Some m => f m
  | None => JUndefined
  end.

(** The [rowMetrics] object of the two search-term sources. *)
Definition searchTermRowMetrics (row : Row) : Metrics float :=
  let cost := orZero (Number (metricField Raw.costMicros row)) in
  let costActual := (cost / 1000000)%float in
  mkMetrics (orZero (Number (metricField Raw.impressions row)))
            (orZero (Number (metricField Raw.clicks row)))
            costActual
            (orZero (Number (metricField Raw.conversions row)))
            (orZero (Number (metricField Raw.conversionsValue row))).

(** The [rowMetrics] object of the category source. *)
Definition insightRowMetrics (row : Row) : Metrics float :=
  mkMetrics (orZero (Number (metricField Raw.impressions row)))
            (orZero (Number (metricField Raw.clicks row)))
            0%float
            (orZero (Number (metricField Raw.conversions row)))
            (orZero (Number (metricField Raw.conversionsValue row))).

(** [TIME_GRANULARITY === 'week' ? (row.segments && row.segments.week)
                                 : (row.segments && row.segments.month)] *)
Definition rowPeriodKey (g : Granularity) (row : Row) : option string :=
  match segments row with
  | Some sg => match g with Week => week sg | Month => month sg end
  | None => None
  end.

Variable BRAND_PATTERNS : list RegExp.
Variable TIME_GRANULARITY : Granularity.

(** One iteration of the row loop of [processSearchTermView], up to the
    point where the row is added: [None] is the [continue]. *)
Definition decodeSearchTermRow (row : Row) : option (Classified float) :=
  let text := textOr (searchTermView row) in
  let rowMetrics := searchTermRowMetrics row in
  let periodKey := rowPeriodKey TIME_GRANULARITY row in
  if negb (truthyString periodKey) then None
  else Some (mkClassified (default "" periodKey) (isBranded BRAND_PATTERNS (JStr text)) rowMetrics).

Definition searchTermStep (st : ChannelResult float) (row : Row) : ChannelResult float :=
  match decodeSearchTermRow row with
  | Some r => accumulate jsZero jsAdd st r
  | None => st
  end.

(** [processSearchTermView(channelType)] on the rows its query returned. *)
Definition processSearchTermView (rows : list Row) : ChannelResult float :=
  fold_left searchTermStep rows (emptyResult jsZero).

Definition isExcludedTargetingStatus (segments : option Segments) : bool :=
  match segments with
  | None => false
  | Some sg =>
      let raw :=
        match searchTermTargetingStatus sg with
        | Some s => Some s
        | None => search_term_targeting_status sg
        end in
      match raw with
      | None => false
      | Some raw =>
          let s := toUpperCase raw in
          String.eqb s "EXCLUDED" || String.eqb s "ADDED_EXCLUDED"
      end
  end.

Variable PMAX_TREAT_ALL_AS_NON_BRANDED : bool.

Definition decodePmaxRow (row : Row) : option (Classified float) :=
  let excluded := isExcludedTargetingStatus (segments row) in
  if excluded then None
  else
    let text := textOr (campaignSearchTermView row) in
    let rowMetrics := searchTermRowMetrics row in
    let periodKey := rowPeriodKey TIME_GRANULARITY row in
    if negb (truthyString periodKey) then None
    else
      let branded :=
        if PMAX_TREAT_ALL_AS_NON_BRANDED then false
        else isBranded BRAND_PATTERNS (JStr text) in
      Some (mkClassified (default "" periodKey) branded rowMetrics).

Definition pmaxStep (st : ChannelResult float) (row : Row) : ChannelResult float :=
  match decodePmaxRow row with
  | Some r => accumulate jsZero jsAdd st r
  | None => st
  end.

(** [processCampaignSearchTermView()] on the rows its query returned. *)
Definition processCampaignSearchTermView (rows : list Row) : ChannelResult float :=
  fold_left pmaxStep rows (emptyResult jsZero).

End Ingestion.

(** ** Days

    Days are counted from 1970-01-01.  The functions are those of the
    language definition (Year Number, Month Number, Date Number, Week Day,
    MakeDay). *)

Module Calendar.

Local Open Scope Z_scope.

Definition DayFromYear (y : Z) : Z :=
  365 * (y - 1970) + (y - 1969) / 4 - (y - 1901) / 100 + (y - 1601) / 400.

Definition DaysInYear (y : Z) : Z :=
  if negb (y mod 4 =? 0) then 365
  else if negb (y mod 100 =? 0) then 366
  else if negb (y mod 400 =? 0) then 365
  else 366.

(** The largest [y] with [DayFromYear y <= d], found from an estimate that
    is off by one year at most. *)
Definition YearFromDay (d : Z) : Z :=
  let e := 1970 + (400 * d) / 146097 in
  if DayFromYear (e + 1) <=? d then e + 1
  else if DayFromYear e <=? d then e
  else e - 1.

Definition leapOf (y : Z) : Z := if DaysInYear y =? 366 then 1 else 0.

Definition InLeapYear (d : Z) : Z := leapOf (YearFromDay d).

Definition DayWithinYear (d : Z) : Z := d - DayFromYear (YearFromDay d).

(** Days of the year before month [m] (0 = January; 12 = the year's end). *)
Definition daysBeforeMonth (leap m : Z) : Z :=
  match m with
  | 0 => 0
  | 1 => 31
  | 2 => 59 + leap
  | 3 => 90 + leap
  | 4 => 120 + leap
  | 5 => 151 + leap
  | 6 => 181 + leap
  | 7 => 212 + leap
  | 8 => 243 + leap
  | 9 => 273 + leap
  | 10 => 304 + leap
  | 11 => 334 + leap
  | _ => 365 + leap
  end.

Definition MonthFromDay (d : Z) : Z :=
  let w := DayWithinYear d in
  let leap := InLeapYear d in
  if w <? 31 then 0
  else if w <? 59 + leap then 1
  else if w <? 90 + leap then 2
  else if w <? 120 + leap then 3
  else if w <? 151 + leap then 4
  else if w <? 181 + leap then 5
  else if w <? 212 + leap then 6
  else if w <? 243 + leap then 7
  else if w <? 273 + leap then 8
  else if w <? 304 + leap then 9
  else if w <? 334 + leap then 10
  else 11.

Definition DateFromDay (d : Z) : Z :=
  DayWithinYear d - daysBeforeMonth (InLeapYear d) (MonthFromDay d) + 1.

(** 0 is Sunday. *)
Definition WeekDay (d : Z) : Z := (d + 4) mod 7.

(** [MakeDay(year, month, date)]: months and dates out of range carry. *)
Definition MakeDay (year month date : Z) : Z :=
  let ym := year + month / 12 in
  let mn := month mod 12 in
  DayFromYear ym + daysBeforeMonth (leapOf ym) mn + date - 1.

(** [n] written with [k] decimal digits. *)
Fixpoint digits (k : nat) (n : Z) : string :=
  match k with
  | O => EmptyString
  | S k' => digits k' (n / 10) +:+ String (ascii_of_nat (48 + Z.to_nat (n mod 10))) EmptyString
  end.

(** [Utilities.formatDate(d, timeZone, 'yyyy-MM-dd')] and [..., 'yyyy-MM')]. *)
Definition formatDay (d : Z) : string :=
  digits 4 (YearFromDay d) +:+ "-" +:+ digits 2 (MonthFromDay d + 1)
    +:+ "-" +:+ digits 2 (DateFromDay d).

Definition formatMonth (d : Z) : string :=
  digits 4 (YearFromDay d) +:+ "-" +:+ digits 2 (MonthFromDay d + 1).

End Calendar.

Import Calendar.

(** ** [getPeriodRanges], day by day

    The function as it runs when the script's runtime and the account are
    in one time zone that keeps its offset: a date is then the number of
    its day in that zone.  The function on the time values of the dates is
    [Instants.getPeriodRanges] below. *)

(** A period before its dates are printed: [keyDay] is the day whose
    formatting is the period key. *)
Record Window : Type := mkWindow {
  keyDay : Z;
  startDay : Z;
  endDay : Z
}.

(** The [while (current <= endDate)] loop of the weekly branch; each turn
    uses one unit of [fuel]. *)
Fixpoint weekLoop (fuel : nat) (current endDate : Z) : list Window :=
  match fuel with
  | O => []
  | S fuel' =>
      if (current <=? endDate)%Z then
        let weekStart := current in
        let weekEnd := (current + 6)%Z in
        mkWindow weekStart weekStart (if (weekEnd >? endDate)%Z then endDate else weekEnd)
          :: weekLoop fuel' (current + 7)%Z endDate
      else []
  end.

(** The loop of the monthly branch. *)
Fixpoint monthLoop (fuel : nat) (current startDate endDate : Z) : list Window :=
  match fuel with
  | O => []
  | S fuel' =>
      if (current <=? endDate)%Z then
        let monthStart := current in
        let monthEnd := MakeDay (YearFromDay current) (MonthFromDay current + 1) 0 in
        mkWindow monthStart
                 (if (monthStart <? startDate)%Z then startDate else monthStart)
                 (if (monthEnd >? endDate)%Z then endDate else monthEnd)
          :: monthLoop fuel'
               (MakeDay (YearFromDay current) (MonthFromDay current + 1) (DateFromDay current))
               startDate endDate
      else []
  end.

(** The periods of [getPeriodRanges] for a date range already resolved.
    Every turn of either loop moves [current] forward by a day at least, so
    the days left up to [endDate] bound the number of turns. *)
Definition periodWindows (g : Granularity) (startDate endDate : Z) : list Window :=
  match g with
  | Week =>
      let dayOfWeek := WeekDay startDate in
      let diff := (if dayOfWeek =? 0 then -6 else 1 - dayOfWeek)%Z in
      let current := (startDate + diff)%Z in
      weekLoop (Z.to_nat (endDate - current + 1)) current endDate
  | Month =>
      let current := MakeDay (YearFromDay startDate) (MonthFromDay startDate) 1 in
      monthLoop (Z.to_nat (endDate - current + 1)) current startDate endDate
  end.

Record Period : Type := mkPeriod {
  key : string;
  start : string;
  end_ : string
}.

Definition formatWindow (g : Granularity) (w : Window) : Period :=
  mkPeriod (match g with Week => formatDay (keyDay w) | Month => formatMonth (keyDay w) end)
           (formatDay (startDay w))
           (formatDay (endDay w)).

Definition getPeriodRanges (g : Granularity) (startDate endDate : Z) : list Period :=
  map (formatWindow g) (periodWindows g startDate endDate).


(** The Monday on or before day [d]. *)
Definition mondayOnOrBefore (d : Z) : Z := (d - (WeekDay d + 6) mod 7)%Z.

Section WindowShapes.

Local Open Scope Z_scope.



End WindowShapes.

(** ** The category source: [processCampaignSearchTermInsight] *)

Section Categories.

Variable StringToNumber : string -> float.
Variable BRAND_PATTERNS : list RegExp.

(** The class of a category row. *)
Definition categoryOf (row : Row) : Category :=
  let categoryLabel := textOr (campaignSearchTermInsight row) in
  if negb (truthyString (Some categoryLabel)) || String.eqb (trim categoryLabel) "" then CBlank
  else if isBranded BRAND_PATTERNS (JStr categoryLabel) then CBranded
  else CNonBranded.

(** The [while (report.hasNext())] loop of one sub-query.  A [TypeError]
    ([None] below) leaves the loop: the [catch] around the sub-query logs
    it and the next sub-query runs with what was accumulated so far. *)
Fixpoint insightRows (periodKey : string) (rows : list Row) (st : ChannelResult float)
    : ChannelResult float :=
  match rows with
  | [] => st
  | row :: rest =>
      let rowMetrics := insightRowMetrics StringToNumber row in
      let category := categoryOf row in
      match updateCategory (fun t => addMetricsNoCost jsAdd t rowMetrics) (totals st) category with
      | None => st
      | Some totals' =>
          match addRowToPeriodDataWithBlank jsZero jsAdd (periodData st) periodKey category rowMetrics with
          | None => mkResult totals' (periodData st)
          | Some periodData' => insightRows periodKey rest (mkResult totals' periodData')
          end
      end
  end.

(** The campaign ids pushed by the first loop. *)
Definition campaignIdsOf (rows : list Row) : list string :=
  omap (fun row =>
          match campaign row with
          | Some (Some id) => if String.eqb id "" then None else Some id
          | _ => None
          end) rows.

Definition insightStart : ChannelResult float :=
  mkResult (mkBucket (emptyMetrics jsZero) (emptyMetrics jsZero) (Some (emptyMetrics jsZero))) ∅.

End Categories.

(** ** Derived ratios and the report tables *)

(** [m.conversions > 0 ? m.cost / m.conversions : 0] and
    [m.cost > 0 ? m.conversionsValue / m.cost : 0], as the table and chart
    builders write them for each bucket. *)
Definition cpa (m : Metrics float) : float :=
  if (0 <? conversions m)%float then (cost m / conversions m)%float else 0%float.

Definition roas (m : Metrics float) : float :=
  if (0 <? cost m)%float then (conversionsValue m / cost m)%float else 0%float.

Inductive Cell : Type :=
| CText (s : string)
| CNum (x : float).

Inductive ValueType : Type :=
| VImpressions | VClicks | VCost | VConversions | VConversionsValue | VCpa | VRoas.

(** [m[valueType]] for the five stored metrics ([undefined] for the two
    derived ones, which no object stores). *)
Definition metricOf (valueType : ValueType) (m : Metrics float) : option float :=
  match valueType with
  | VImpressions => Some (impressions m)
  | VClicks => Some (clicks m)
  | VCost => Some (cost m)
  | VConversions => Some (conversions m)
  | VConversionsValue => Some (conversionsValue m)
  | VCpa | VRoas => None
  end.

(** [m[valueType] || 0] *)
Definition metricOrZero (valueType : ValueType) (m : Metrics float) : float :=
  match metricOf valueType m with
  | Some x => orZero x
  | None => 0%float
  end.

Fixpoint insertKey (k : string) (l : list string) : list string :=
  match l with
  | [] => [k]
  | h :: t => if String.leb k h then k :: l else h :: insertKey k t
  end.

(** [Object.keys(periodData).sort()] *)
Definition sortedKeys {A : Type} (periodData : gmap string A) : list string :=
  foldr insertKey [] (fst <$> map_to_list periodData).

Section Report.

Variable TIME_GRANULARITY : Granularity.

(** The month branch of [formatPeriodLabel], which hands the key's year and
    month to [Utilities.formatDate]. *)
Variable monthLabel : string -> string.

Definition formatPeriodLabel (periodKey : string) : string :=
  match TIME_GRANULARITY with
  | Week => "w/c " +:+ periodKey
  | Month => monthLabel periodKey
  end.

Definition rawHeader : list Cell :=
  [CText "Period"; CText "Segment"; CText "Impressions"; CText "Clicks"; CText "Cost";
   CText "Conversions"; CText "Conversion Value"; CText "CPA"; CText "ROAS"].

Definition rawRow (label segment : string) (m : Metrics float) (cpa roas : float) : list Cell :=
  [CText label; CText segment; CNum (impressions m); CNum (clicks m); CNum (cost m);
   CNum (conversions m); CNum (conversionsValue m); CNum cpa; CNum roas].

Definition rawRowsOf (periodKey : string) (p : Bucket float) : list (list Cell) :=
  let label := formatPeriodLabel periodKey in
  let cpaB := cpa (branded p) in
  let cpaN := cpa (nonBranded p) in
  let roasB := roas (branded p) in
  let roasN := roas (nonBranded p) in
  [rawRow label "Branded" (branded p) cpaB roasB;
   rawRow label "Non-branded" (nonBranded p) cpaN roasN].

(** The body of a [periods.forEach] over the sorted keys. *)
Definition forEachPeriod {A : Type} (periodData : gmap string (Bucket float))
    (f : string -> Bucket float -> list A) : list A :=
  flat_map (fun periodKey =>
              match periodData !! periodKey with
              | Some p => f periodKey p
              | None => []
              end) (sortedKeys periodData).

Definition buildRawTabRows (periodData : gmap string (Bucket float)) : list (list Cell) :=
  rawHeader :: forEachPeriod periodData rawRowsOf.

Definition noCostRow (label segment : string) (m : Metrics float) : list Cell :=
  [CText label; CText segment; CNum (impressions m); CNum (clicks m);
   CNum (conversions m); CNum (conversionsValue m)].

Definition buildRawTabRowsNoCost (periodData : gmap string (Bucket float)) : list (list Cell) :=
  [CText "Period"; CText "Segment"; CText "Impressions"; CText "Clicks";
   CText "Conversions"; CText "Conversion Value"]
  :: forEachPeriod periodData (fun periodKey p =>
       let label := formatPeriodLabel periodKey in
       [noCostRow label "Branded" (branded p); noCostRow label "Non-branded" (nonBranded p)]
       ++ match blank p with
          | Some b => [noCostRow label "Blank" b]
          | None => []
          end)%list.

(** [valB] and [valN] of [buildChartDataRows]. *)
Definition chartValue (valueType : ValueType) (m : Metrics float) : float :=
  match valueType with
  | VImpressions => impressions m
  | VClicks => clicks m
  | VCost => cost m
  | VConversions => conversions m
  | VConversionsValue => conversionsValue m
  | VCpa => cpa m
  | VRoas => roas m
  end.

Definition buildChartDataRows (periodData : gmap string (Bucket float))
    (valueType : ValueType) : list (list Cell) :=
  forEachPeriod periodData (fun periodKey p =>
    [[CText (formatPeriodLabel periodKey);
      CNum (chartValue valueType (branded p)); CNum (chartValue valueType (nonBranded p))]]).

(** [valB], [valN] and [valBlank] of [buildBrandedRatioRows]. *)
Definition ratioValue (valueType : ValueType) (m : Metrics float) : float :=
  match valueType with
  | VCpa => cpa m
  | VRoas => roas m
  | _ => metricOrZero valueType m
  end.

Definition buildBrandedRatioRows (periodData : gmap string (Bucket float))
    (valueType : ValueType) (includeBlank : bool) : list (list Cell) :=
  forEachPeriod periodData (fun periodKey p =>
    let valB := ratioValue valueType (branded p) in
    let valN := ratioValue valueType (nonBranded p) in
    let valBlank :=
      match blank p with
      | Some b => if includeBlank then ratioValue valueType b else 0%float
      | None => 0%float
      end in
    let total := (valB + valN + (if includeBlank then valBlank else 0))%float in
    let ratio := if (0 <? total)%float then (valB / total)%float else 0%float in
    [[CText (formatPeriodLabel periodKey); CNum ratio]]).

Definition buildChartDataRowsWithBlank (periodData : gmap string (Bucket float))
    (valueType : ValueType) : list (list Cell) :=
  forEachPeriod periodData (fun periodKey p =>
    [[CText (formatPeriodLabel periodKey);
      CNum (metricOrZero valueType (branded p));
      CNum (metricOrZero valueType (nonBranded p));
      CNum (match blank p with Some b => metricOrZero valueType b | None => 0%float end)]]).

End Report.

(** ** [getSheetId] *)

Definition isSheetIdChar (c : ascii) : bool :=
  let n := nat_of_ascii c in
  ((97 <=? n)%nat && (n <=? 122)%nat) || ((65 <=? n)%nat && (n <=? 90)%nat)
  || ((48 <=? n)%nat && (n <=? 57)%nat) || Ascii.eqb c "-" || Ascii.eqb c "_".

Fixpoint takeSheetIdChars (s : string) : string :=
  match s with
  | String c r => if isSheetIdChar c then String c (takeSheetIdChars r) else EmptyString
  | EmptyString => EmptyString
  end.

(** [s.includes('/')] *)
Fixpoint includesSlash (s : string) : bool :=
  match s with
  | String c r => Ascii.eqb c "/" || includesSlash r
  | EmptyString => false
  end.

(** [s.match(/\/d\/([a-zA-Z0-9-_]+)/)]: the group of the leftmost match. *)
Fixpoint matchSheetId (s : string) : option string :=
  match s with
  | EmptyString => None
  | String _ r =>
      match (if String.prefix "/d/" s then takeSheetIdChars (String.substring 3 (String.length s - 3) s)
             else EmptyString) with
      | EmptyString => matchSheetId r
      | id => Some id
      end
  end.

(** [inl] is the [Error] thrown. *)
Definition getSheetId (sheetIdentifier : string) : string + string :=
  if String.eqb sheetIdentifier "" || negb (includesSlash sheetIdentifier) then inr sheetIdentifier
  else
    match matchSheetId sheetIdentifier with
    | None => inl "Invalid Google Sheet URL or ID format"
    | Some id => inr id
    end.

(** ** The run: [main] *)

Record Config : Type := mkConfig {
  SHEET_URL : string;
  (** the days the two date strings denote; [None] for [''] *)
  START_DATE : option Z;
  END_DATE : option Z;
  LOOKBACK_DAYS : Z;
  BRAND_TOKENS : list string;
  TIME_GRANULARITY : Granularity;
  INCLUDE_BY_CAMPAIGN_TYPE : bool;
  PMAX_TREAT_ALL_AS_NON_BRANDED : bool;
  INCLUDE_PMAX_CATEGORIES : bool
}.

(** The constants of the script. *)
Definition scriptConfig : Config :=
  mkConfig "https://docs.google.com/spreadsheets/d/1ysIP5kMNCuBI5uVzf6V-Xw6knCCSGMCEXw1B5i8zURY/edit?usp=sharing"
           None None 90 ["foodsisters"; "foodsister"] Month true false true.

Inductive Query : Type :=
| QSearchTermView (channelType : string)
| QCampaignSearchTermView
| QCampaign
| QCampaignSearchTermInsight (campaignId : string) (period : Period).

(** What the services outside the script return: the current day, the rows
    of each report ([None]: the query throws), the month labels. *)
Record World : Type := mkWorld {
  today : Z;
  searchTermViewRows : string -> list Row;
  campaignSearchTermViewRows : list Row;
  campaignRows : list Row;
  insightReport : string -> Period -> option (list Row);
  StringToNumber : string -> float;
  monthLabel : string -> string
}.

(** The calls the script makes on the report service and on the
    spreadsheet, in their order, and the line that a failed run logs.  The
    progress lines of [Logger.log] are left out. *)
Inductive Event : Type :=
| EvSearch (q : Query)
| EvOpenById (sheetId : string)
| EvSheet (name : string)
| EvInfo
| EvSetValues (sheet : string) (rows : list (list Cell))
| EvInsertChart (sheet : string)
| EvReorderTabs
| EvLog (message : string).

(** A computation that calls services and may throw. *)
Definition M (A : Type) : Type := (list Event * (string + A))%type.

Definition ret {A : Type} (a : A) : M A := ([], inr a).

Definition bind {A B : Type} (m : M A) (k : A -> M B) : M B :=
  match m with
  | (t, inl e) => (t, inl e)
  | (t, inr a) => let '(t', r) := k a in ((t ++ t')%list, r)
  end.

Definition emit (e : Event) : M unit := ([e], inr tt).

Definition throw {A : Type} (e : string) : M A := ([], inl e).

Declare Scope run_scope.
Delimit Scope run_scope with run.
Notation "'do' x <- c ;; k" := (bind c (fun x => k))
  (at level 10, x name, c at level 99, k at level 200) : run_scope.
Notation "'call' c ;; k" := (bind c (fun _ => k))
  (at level 10, c at level 99, k at level 200) : run_scope.

(** [forEach]: run [f] on each element in order, stopping at a throw. *)
Fixpoint forEach {A : Type} (f : A -> M unit) (l : list A) : M unit :=
  match l with
  | [] => ret tt
  | x :: l' => bind (f x) (fun _ => forEach f l')
  end.

(** [foldM]: a loop that threads its state through calls on the services. *)
Fixpoint foldM {A S : Type} (f : S -> A -> M S) (l : list A) (s : S) : M S :=
  match l with
  | [] => ret s
  | x :: l' => bind (f s x) (fun s' => foldM f l' s')
  end.

(** [combined], as [main] builds it from the three search-term results. *)
Definition combinedView (searchData shoppingData pmaxData : ChannelResult float)
    : ChannelResult float :=
  let totals0 := mkBucket (emptyMetrics jsZero) (emptyMetrics jsZero) None in
  let totals1 := mergeTotals jsAdd totals0 (totals searchData) in
  let totals2 := mergeTotals jsAdd totals1 (totals shoppingData) in
  let totals3 := mergeTotals jsAdd totals2 (totals pmaxData) in
  let periodData1 := mergePeriodData jsZero jsAdd ∅ (periodData searchData) in
  let periodData2 := mergePeriodData jsZero jsAdd periodData1 (periodData shoppingData) in
  let periodData3 := mergePeriodData jsZero jsAdd periodData2 (periodData pmaxData) in
  mkResult totals3 periodData3.

Section Run.

Local Open Scope run_scope.

Variable cfg : Config.
Variable world : World.
Variable BRAND_PATTERNS : list RegExp.

(** [AdsApp.search(query)] *)
Definition search (q : Query) (rows : list Row) : M (list Row) :=
  call emit (EvSearch q) ;; ret rows.

(** [startDate] and [endDate] as [getPeriodRanges] resolves them. *)
Definition dateRange : Z * Z :=
  match START_DATE cfg, END_DATE cfg with
  | Some startDate, Some endDate => (startDate, endDate)
  | _, _ =>
      let endDate := today world in
      let startDate :=
        MakeDay (YearFromDay (today world)) (MonthFromDay (today world))
                (DateFromDay endDate - LOOKBACK_DAYS cfg) in
      (startDate, endDate)
  end.

Definition runSearchTermView (channelType : string) : M (ChannelResult float) :=
  do rows <- search (QSearchTermView channelType) (searchTermViewRows world channelType) ;;
  ret (processSearchTermView (StringToNumber world) BRAND_PATTERNS (TIME_GRANULARITY cfg) rows).

Definition runCampaignSearchTermView : M (ChannelResult float) :=
  do rows <- search QCampaignSearchTermView (campaignSearchTermViewRows world) ;;
  ret (processCampaignSearchTermView (StringToNumber world) BRAND_PATTERNS
         (TIME_GRANULARITY cfg) (PMAX_TREAT_ALL_AS_NON_BRANDED cfg) rows).

(** One sub-query of the category source, in its [try].  A report that
    throws ([None]) does so before it gives a row. *)
Definition insightSubQuery (period : Period) (st : ChannelResult float) (campaignId : string)
    : M (ChannelResult float) :=
  call emit (EvSearch (QCampaignSearchTermInsight campaignId period)) ;;
  ret (match insightReport world campaignId period with
       | Some rows => insightRows (StringToNumber world) BRAND_PATTERNS (key period) rows st
       | None => st
       end).

Definition processCampaignSearchTermInsight : M (ChannelResult float) :=
  do rows <- search QCampaign (campaignRows world) ;;
  let campaignIds := campaignIdsOf rows in
  if (length campaignIds =? 0)%nat then
    ret (mkResult (mkBucket (emptyMetrics jsZero) (emptyMetrics jsZero) None) ∅)
  else
    let periodRanges := getPeriodRanges (TIME_GRANULARITY cfg) (fst dateRange) (snd dateRange) in
    foldM (fun st period => foldM (insightSubQuery period) campaignIds st)
          periodRanges insightStart.

Definition getOrCreateSheet (name : string) : M unit := emit (EvSheet name).

(** [if (rows.length > 1) sh.getRange(...).setValues(rows)] *)
Definition setValuesIfAny (sheet : string) (rows : list (list Cell)) : M unit :=
  if (1 <? length rows)%nat then emit (EvSetValues sheet rows) else ret tt.

Definition ByType : Type :=
  (ChannelResult float * ChannelResult float * ChannelResult float)%type.

(** [byType.Search], [byType.Pmax] and [byType.Shopping] with their names. *)
Definition channelsOf (byType : ByType) : list (string * ChannelResult float) :=
  let '(searchData, pmaxData, shoppingData) := byType in
  [("Search", searchData); ("Pmax", pmaxData); ("Shopping", shoppingData)].

Definition writeInfoAndRawTabs (combined : ChannelResult float) (byType : option ByType)
    : M unit :=
  call getOrCreateSheet "Info" ;;
  call emit EvInfo ;;
  call getOrCreateSheet "Raw - Combined" ;;
  call setValuesIfAny "Raw - Combined"
    (buildRawTabRows (TIME_GRANULARITY cfg) (monthLabel world) (periodData combined)) ;;
  match byType with
  | Some byType =>
      if INCLUDE_BY_CAMPAIGN_TYPE cfg then
        forEach (fun '(channel, data) =>
                   call getOrCreateSheet ("Raw - " +:+ channel) ;;
                   setValuesIfAny ("Raw - " +:+ channel)
                     (buildRawTabRows (TIME_GRANULARITY cfg) (monthLabel world) (periodData data)))
                (channelsOf byType)
      else ret tt
  | None => ret tt
  end.

Definition writePmaxCategoriesTab (pmaxCategoriesData : option (ChannelResult float)) : M unit :=
  match pmaxCategoriesData with
  | Some data =>
      if INCLUDE_PMAX_CATEGORIES cfg then
        call getOrCreateSheet "Raw - Pmax Categories" ;;
        setValuesIfAny "Raw - Pmax Categories"
          (buildRawTabRowsNoCost (TIME_GRANULARITY cfg) (monthLabel world) (periodData data))
      else ret tt
  | None => ret tt
  end.

(** One turn of the [metrics.forEach] of a chart tab: nothing for an empty
    table, else the bar data, the ratio data and the two charts. *)
Definition writeMetricCharts (sheet : string) (header : list Cell)
    (rows ratioRows : list (list Cell)) : M unit :=
  match rows with
  | [] => ret tt
  | _ :: _ =>
      call emit (EvSetValues sheet (header :: rows)) ;;
      call emit (EvSetValues sheet ([CText "Period"; CText "% Branded"] :: ratioRows)) ;;
      call emit (EvInsertChart sheet) ;;
      emit (EvInsertChart sheet)
  end.

Definition writeChartsForView (periodData : gmap string (Bucket float)) (chartTabName : string)
    : M unit :=
  call emit (EvSheet chartTabName) ;;
  forEach (fun valueType =>
             writeMetricCharts chartTabName
               [CText "Period"; CText "Branded"; CText "Non-branded"]
               (buildChartDataRows (TIME_GRANULARITY cfg) (monthLabel world) periodData valueType)
               (buildBrandedRatioRows (TIME_GRANULARITY cfg) (monthLabel world) periodData valueType false))
          [VImpressions; VClicks; VCost; VConversions; VConversionsValue; VCpa; VRoas].

Definition writeAllCharts (combined : ChannelResult float) (byType : option ByType) : M unit :=
  call writeChartsForView (periodData combined) "Charts - Combined" ;;
  match byType with
  | Some (searchData, pmaxData, shoppingData) =>
      if INCLUDE_BY_CAMPAIGN_TYPE cfg then
        call writeChartsForView (periodData searchData) "Charts - Search" ;;
        call writeChartsForView (periodData pmaxData) "Charts - Pmax" ;;
        writeChartsForView (periodData shoppingData) "Charts - Shopping"
      else ret tt
  | None => ret tt
  end.

Definition writeChartsForCategoriesView (periodData : gmap string (Bucket float))
    (chartTabName : string) : M unit :=
  call emit (EvSheet chartTabName) ;;
  forEach (fun valueType =>
             writeMetricCharts chartTabName
               [CText "Period"; CText "Branded"; CText "Non-branded"; CText "Blank"]
               (buildChartDataRowsWithBlank (TIME_GRANULARITY cfg) (monthLabel world) periodData valueType)
               (buildBrandedRatioRows (TIME_GRANULARITY cfg) (monthLabel world) periodData valueType true))
          [VImpressions; VClicks; VConversions; VConversionsValue].

Definition writePmaxCategoriesCharts (pmaxCategoriesData : option (ChannelResult float)) : M unit :=
  match pmaxCategoriesData with
  | Some data =>
      if INCLUDE_PMAX_CATEGORIES cfg then
        writeChartsForCategoriesView (periodData data) "Charts - Pmax Categories"
      else ret tt
  | None => ret tt
  end.

Definition reorderTabs : M unit := emit EvReorderTabs.

(** The three search-term fetches of [main]. *)
Definition fetchSearchTerms : M (ChannelResult float * ChannelResult float * ChannelResult float) :=
  do searchData <- runSearchTermView "SEARCH" ;;
  do shoppingData <- runSearchTermView "SHOPPING" ;;
  do pmaxData <- runCampaignSearchTermView ;;
  ret (searchData, shoppingData, pmaxData).

(** [INCLUDE_PMAX_CATEGORIES ? processCampaignSearchTermInsight() : null] *)
Definition fetchCategories : M (option (ChannelResult float)) :=
  if INCLUDE_PMAX_CATEGORIES cfg
  then do data <- processCampaignSearchTermInsight ;; ret (Some data)
  else ret None.

(** [getSheetId(SHEET_URL)], throwing its error. *)
Definition resolveSheetId : M string :=
  match getSheetId (SHEET_URL cfg) with
  | inl e => throw e
  | inr id => ret id
  end.

(** What [main] does once the spreadsheet is open. *)
Definition writeReport (combined : ChannelResult float) (byType : option ByType)
    (pmaxCategoriesData : option (ChannelResult float)) : M unit :=
  call writeInfoAndRawTabs combined byType ;;
  call writePmaxCategoriesTab pmaxCategoriesData ;;
  call writeAllCharts combined byType ;;
  call writePmaxCategoriesCharts pmaxCategoriesData ;;
  call reorderTabs ;;
  emit (EvLog "Script completed successfully.").

(** The [try] block of [main], after [BRAND_PATTERNS] is set. *)
Definition mainBody : M unit :=
  do fetched <- fetchSearchTerms ;;
  let '(searchData, shoppingData, pmaxData) := fetched in
  let combined := combinedView searchData shoppingData pmaxData in
  let byType :=
    if INCLUDE_BY_CAMPAIGN_TYPE cfg then Some (searchData, pmaxData, shoppingData) else None in
  do pmaxCategoriesData <- fetchCategories ;;
  do sheetId <- resolveSheetId ;;
  call emit (EvOpenById sheetId) ;;
  writeReport combined byType pmaxCategoriesData.

(** The [catch] of [main]: log, then throw again. *)
Definition mainWith : M unit :=
  match mainBody with
  | (t, inl e) => ((t ++ [EvLog ("Script failed: Error: " +:+ e)])%list, inl e)
  | (t, inr v) => (t, inr v)
  end.

End Run.

(** [main()]: [None] when the brand tokens leave the fragment of regular
    expressions modelled by [newRegExp]. *)
Definition main (cfg : Config) (world : World) : option (M unit) :=
  match buildBrandPatterns (BRAND_TOKENS cfg) with
  | Some BRAND_PATTERNS => Some (mainWith cfg world BRAND_PATTERNS)
  | None => None
  end.

(** ** The dates of [getPeriodRanges], instant by instant

    A [Date] object holds a time value: the milliseconds since
    1970-01-01T00:00:00Z.  [new Date('yyyy-MM-dd')] reads its string as
    midnight UTC.  [getDay], [getDate], [setDate], [getMonth], [setMonth],
    [getFullYear] and [new Date(year, month, date)] work in the local time
    of the script's runtime.  [Utilities.formatDate] prints in the time zone
    it is given, which is the account's.  [<=], [<] and [>] on two dates
    compare their time values.  The functions are those of the language
    definition (Day, TimeWithinDay, MakeDate, LocalTime, UTC). *)

Module JsDate.

Local Open Scope Z_scope.

Definition msPerDay : Z := 86400000.

Definition msPerHour : Z := 3600000.

Definition Day (t : Z) : Z := t / msPerDay.

Definition TimeWithinDay (t : Z) : Z := t mod msPerDay.

Definition MakeDate (day time : Z) : Z := day * msPerDay + time.

(** A time zone: the offset of its local time from UTC, in milliseconds,
    at an instant, and the offset by which a local time value is read back
    as an instant. *)
Record TimeZone : Type := mkTimeZone {
  offsetAt : Z -> Z;
  offsetOfLocal : Z -> Z
}.

(** A zone that keeps one offset. *)
Definition fixedZone (offset : Z) : TimeZone :=
  mkTimeZone (fun _ => offset) (fun _ => offset).

Definition utc : TimeZone := fixedZone 0.

(** Los Angeles in 2024: daylight saving time from 10 March, 02:00, to
    3 November, 02:00; a local time that occurs twice or not at all is read
    with the offset before the change. *)
Definition losAngeles2024 : TimeZone :=
  mkTimeZone
    (fun t =>
       if t <? MakeDate (MakeDay 2024 2 10) (10 * msPerHour) then -8 * msPerHour
       else if t <? MakeDate (MakeDay 2024 10 3) (9 * msPerHour) then -7 * msPerHour
       else -8 * msPerHour)
    (fun tlocal =>
       if tlocal <? MakeDate (MakeDay 2024 2 10) (3 * msPerHour) then -8 * msPerHour
       else if tlocal <? MakeDate (MakeDay 2024 10 3) (2 * msPerHour) then -7 * msPerHour
       else -8 * msPerHour).

(** [new Date('yyyy-MM-dd')], the string denoting day [day]. *)
Definition parseDate (day : Z) : Z := MakeDate day 0.

Section DateObjects.

(** The time zone of the script's runtime. *)
Variable runtime : TimeZone.

(** [AdsApp.currentAccount().getTimeZone()] *)
Variable timeZone : TimeZone.

Definition LocalTime (t : Z) : Z := t + offsetAt runtime t.

Definition UTC (tlocal : Z) : Z := tlocal - offsetOfLocal runtime tlocal.

Definition getFullYear (t : Z) : Z := YearFromDay (Day (LocalTime t)).

Definition getMonth (t : Z) : Z := MonthFromDay (Day (LocalTime t)).

Definition getDate (t : Z) : Z := DateFromDay (Day (LocalTime t)).

Definition getDay (t : Z) : Z := WeekDay (Day (LocalTime t)).

(** [d.setDate(date)]: the new time value of [d]. *)
Definition setDate (t date : Z) : Z :=
  let tlocal := LocalTime t in
  UTC (MakeDate (MakeDay (YearFromDay (Day tlocal)) (MonthFromDay (Day tlocal)) date)
                (TimeWithinDay tlocal)).

(** [d.setMonth(month)] *)
Definition setMonth (t month : Z) : Z :=
  let tlocal := LocalTime t in
  UTC (MakeDate (MakeDay (YearFromDay (Day tlocal)) month (DateFromDay (Day tlocal)))
                (TimeWithinDay tlocal)).

(** [new Date(year, month, date)]: a year from 0 to 99 stands for 1900 plus
    that year. *)
Definition newDate (year month date : Z) : Z :=
  let yr := if (0 <=? year) && (year <=? 99) then 1900 + year else year in
  UTC (MakeDate (MakeDay yr month date) 0).

(** [Utilities.formatDate(d, timeZone, format)], [format] printing a day. *)
Definition formatDate (format : Z -> string) (t : Z) : string :=
  format (Day (t + offsetAt timeZone t)).

End DateObjects.

End JsDate.

(** [getPeriodRanges] on these dates. *)

Module Instants.

Import JsDate.

Local Open Scope Z_scope.

Section PeriodRanges.

Variable runtime : TimeZone.
Variable timeZone : TimeZone.

(** [startDate] and [endDate]; [clock] holds what the two [new Date()]
    return, in the order of the calls. *)
Definition dateRange (cfg : Config) (clock : Z * Z) : Z * Z :=
  match START_DATE cfg, END_DATE cfg with
  | Some startDay, Some endDay => (parseDate startDay, parseDate endDay)
  | _, _ =>
      let endDate := fst clock in
      let startDate := snd clock in
      (setDate runtime startDate (getDate runtime endDate - LOOKBACK_DAYS cfg), endDate)
  end.

(** The loop of the weekly branch; [None] when [fuel] turns do not end it. *)
Fixpoint weekLoop (fuel : nat) (current endDate : Z) : option (list Period) :=
  match fuel with
  | O => None
  | S fuel' =>
      if current <=? endDate then
        let weekStart := current in
        let weekEnd := setDate runtime current (getDate runtime current + 6) in
        let periodKey := formatDate timeZone formatDay weekStart in
        cons (mkPeriod periodKey
                (formatDate timeZone formatDay weekStart)
                (formatDate timeZone formatDay (if weekEnd >? endDate then endDate else weekEnd)))
          <$> weekLoop fuel' (setDate runtime current (getDate runtime current + 7)) endDate
      else Some []
  end.

(** The loop of the monthly branch. *)
Fixpoint monthLoop (fuel : nat) (current startDate endDate : Z) : option (list Period) :=
  match fuel with
  | O => None
  | S fuel' =>
      if current <=? endDate then
        let monthStart := current in
        let monthEnd := newDate runtime (getFullYear runtime current) (getMonth runtime current + 1) 0 in
        let periodKey := formatDate timeZone formatMonth monthStart in
        cons (mkPeriod periodKey
                (formatDate timeZone formatDay (if monthStart <? startDate then startDate else monthStart))
                (formatDate timeZone formatDay (if monthEnd >? endDate then endDate else monthEnd)))
          <$> monthLoop fuel' (setMonth runtime current (getMonth runtime current + 1)) startDate endDate
      else Some []
  end.

Definition getPeriodRanges (cfg : Config) (clock : Z * Z) (fuel : nat) : option (list Period) :=
  let startDate := fst (dateRange cfg clock) in
  let endDate := snd (dateRange cfg clock) in
  match TIME_GRANULARITY cfg with
  | Week =>
      let current := startDate in
      let dayOfWeek := getDay runtime current in
      let diff := if dayOfWeek =? 0 then -6 else 1 - dayOfWeek in
      let current := setDate runtime current (getDate runtime current + diff) in
      weekLoop fuel current endDate
  | Month =>
      let current := newDate runtime (getFullYear runtime startDate) (getMonth runtime startDate) 1 in
      monthLoop fuel current startDate endDate
  end.

End PeriodRanges.

End Instants.

(** The configuration of the examples with a date range and a granularity. *)
Definition rangeConfig (startDate endDate : option Z) (lookback : Z) (g : Granularity) : Config :=
  mkConfig "" startDate endDate lookback [] g true false true.

(** ** Reading a run *)

Definition isSearch (e : Event) : bool :=
  match e with EvSearch _ => true | _ => false end.

(** A call on the spreadsheet service. *)
Definition isSheetCall (e : Event) : bool :=
  match e with
  | EvOpenById _ | EvSheet _ | EvInfo | EvSetValues _ _ | EvInsertChart _ | EvReorderTabs => true
  | _ => false
  end.

(** A bucket with its [blank] property replaced. *)
Definition withBlank {num : Type} (o : option (Metrics num)) (b : Bucket num) : Bucket num :=
  mkBucket (branded b) (nonBranded b) o.

(** The computation only queries reports and does not throw. *)
Definition fetchesOnly {A : Type} (m : M A) : Prop :=
  Forall (fun e => isSearch e = true) (fst m) /\ exists a, snd m = inr a.

(** The three search-term queries, in the order of [main]. *)
Definition searchTermQueries : list Event :=
  [EvSearch (QSearchTermView "SEARCH"); EvSearch (QSearchTermView "SHOPPING");
   EvSearch QCampaignSearchTermView].

(** A configuration for the examples and a world whose reports are empty. *)
Definition exampleConfig (sheet : string) : Config :=
  mkConfig sheet None None 90 ["foodsisters"; "foodsister"] Month true false true.

Definition quietWorld : World :=
  mkWorld 19737 (fun _ => []) [] [] (fun _ _ => Some []) (fun _ => nan) (fun s => s).

(** ** The targeting status of a Performance Max row, normalised *)

(** The status the script reads: the camel-case property when it is
    defined, else the snake-case one. *)
Definition targetingStatusOf (row : Row) : option string :=
  match segments row with
  | Some sg =>
      match searchTermTargetingStatus sg with
      | Some s => Some s
      | None => search_term_targeting_status sg
      end
  | None => None
  end.

(** [String(raw).toUpperCase()] *)
Definition normalizedStatus (row : Row) : option string :=
  match targetingStatusOf row with
  | Some raw => Some (toUpperCase raw)
  | None => None
  end.

(** ** The category classifier, in the words of the specification *)





(** Every bucket has a [blank] property. *)
Definition resultHasBlank (st : ChannelResult float) : Prop :=
  is_Some (blank (totals st)) /\
  forall key b, periodData st !! key = Some b -> is_Some (blank b).

(** ** Rows, patterns and conversions for the examples *)

(** Rows of the examples carry numbers, never numeric strings; the string
    conversion is then never consulted. *)
Definition noNumericStrings : string -> float := fun _ => nan.

Definition termRow (period term : string) (imp clk micros conv val : float) : Row :=
  mkRow (Some (Some term)) None None None
        (Some (Raw.mkMetrics (JNum imp) (JNum clk) (JNum micros) (JNum conv) (JNum val)))
        (Some (mkSegments None None None (Some period))).

Definition pmaxRow (status : option string) (period term : string)
    (imp clk micros conv val : float) : Row :=
  mkRow None (Some (Some term)) None None
        (Some (Raw.mkMetrics (JNum imp) (JNum clk) (JNum micros) (JNum conv) (JNum val)))
        (Some (mkSegments status None None (Some period))).

Definition foodsistersPatterns : list RegExp :=
  default [] (buildBrandPatterns ["foodsisters"; "foodsister"]).

Definition categoryRow (label : option string) (imp clk conv val : float) : Row :=
  mkRow None None (Some label) None
        (Some (Raw.mkMetrics (JNum imp) (JNum clk) JUndefined (JNum conv) (JNum val)))
        None.

(** * Further definitions *)

(** ** Brand tokens read as sequences of terms *)

(** A character that stands for itself in a pattern. *)
Definition safeChar (c : ascii) : bool :=
  negb (isSyntaxChar c || Ascii.eqb c "|" || Ascii.eqb c "?" || Ascii.eqb c "[").

Definition safeToken (token : string) : bool :=
  forallb safeChar (list_ascii_of_string token).

(** The terms one character of a token turns into: a hyphen or a space
    becomes an optional [[-_ ]], a digit gets an optional space before it. *)
Definition charTerms (c : ascii) : list Term :=
  if isSeparator c then [mkTerm (AClass ["-"; "_"; " "]%char) true]
  else if isDigit c then [mkTerm (ALit " ") true; mkTerm (ALit c) false]
  else [mkTerm (ALit c) false].

Fixpoint tokenTerms (token : string) : list Term :=
  match token with
  | EmptyString => []
  | String c r => (charTerms c ++ tokenTerms r)%list
  end.

(** A string written in ASCII.  The [i] flag folds the case of other
    letters too, and [\s] matches other white space; on ASCII the flag
    folds the case as [charEq] does and [\s] is [isWhiteSpace]. *)
Definition asciiOnly (s : string) : bool :=
  forallb (fun c => (nat_of_ascii c <? 128)%nat) (list_ascii_of_string s).

(** [spells token s]: [s] is a spelling of [token].  Letters may change
    case; a hyphen or a space of the token may be written as a hyphen, an
    underscore or a space, or left out; a digit may have a space before
    it. *)
Inductive spells : string -> string -> Prop :=
| spells_nil : spells "" ""
| spells_separator_dropped c token s :
    isSeparator c = true -> spells token s -> spells (String c token) s
| spells_separator c c' token s :
    isSeparator c = true ->
    existsb (fun m => charEq true m c') ["-"; "_"; " "]%char = true ->
    spells token s -> spells (String c token) (String c' s)
| spells_digit c c' token s :
    isSeparator c = false -> isDigit c = true -> charEq true c c' = true ->
    spells token s -> spells (String c token) (String c' s)
| spells_spaced_digit c sp c' token s :
    isSeparator c = false -> isDigit c = true ->
    charEq true " " sp = true -> charEq true c c' = true ->
    spells token s -> spells (String c token) (String sp (String c' s))
| spells_char c c' token s :
    isSeparator c = false -> isDigit c = false -> charEq true c c' = true ->
    spells token s -> spells (String c token) (String c' s).

(** [text] contains a spelling of one of the tokens. *)
Definition containsSpelling (tokens : list string) (text : string) : Prop :=
  exists token before s after,
    In token tokens /\ spells token s /\ text = before +:+ s +:+ after.

(** What [tokenSource] writes for one character of a token. *)
Definition charSource (c : ascii) : string :=
  if isSeparator c then "[-_ ]?"
  else if isDigit c then " ?" +:+ String c ""
  else String c "".

(** ** Sheet identifiers *)

(** The candidate group at the head of [s]: the identifier characters that
    follow a leading [/d/] ([""] when [s] does not start that way). *)
Definition sheetIdAtHead (s : string) : string :=
  if String.prefix "/d/" s
  then takeSheetIdChars (String.substring 3 (String.length s - 3) s)
  else EmptyString.

Definition allSheetIdChars (s : string) : bool :=
  forallb isSheetIdChar (list_ascii_of_string s).

(** ** Reading channel results *)

(** No bucket of the result has a [blank] property. *)
Definition noBlank {num : Type} (r : ChannelResult num) : Prop :=
  blank (totals r) = None /\
  forall key b, periodData r !! key = Some b -> blank b = None.

(** The buckets of a period map added up, starting from an all-zero one. *)
Definition sumBuckets {num : Type} (zero : num) (add : num -> num -> num)
    (periodData : gmap string (Bucket num)) : Bucket num :=
  map_fold (fun _ b acc => mergeTotals add acc b) (emptyPeriodData zero) periodData.

(** The period key under which a row is counted, when it has one. *)
Definition countedKey (g : Granularity) (row : Row) : option string :=
  match rowPeriodKey g row with
  | Some k => if String.eqb k "" then None else Some k
  | None => None
  end.

(** A period key as the reports give it: digits and hyphens.  No such key
    names a property that the period map inherits from
    [Object.prototype], so [periodData[key]] is what the loop stored
    under [key]. *)
Definition dateKey (key : string) : bool :=
  forallb (fun c => isDigit c || Ascii.eqb c "-") (list_ascii_of_string key).

(** ** Reading tables and runs *)

(** The keys are in ascending order. *)
Definition ascending (keys : list string) : Prop :=
  Sorted (fun a b => String.leb a b = true) keys.

(** The events of one chart block: the bar data, the ratio data and the
    two charts. *)
Definition chartBlock (sheet : string) (header : list Cell)
    (rows ratioRows : list (list Cell)) : list Event :=
  [EvSetValues sheet (header :: rows);
   EvSetValues sheet ([CText "Period"; CText "% Branded"] :: ratioRows);
   EvInsertChart sheet; EvInsertChart sheet].

Definition isInsertChart (e : Event) : bool :=
  match e with EvInsertChart _ => true | _ => false end.

(** The value types of the chart tabs, as their [metrics] arrays list them. *)
Definition viewValueTypes : list ValueType :=
  [VImpressions; VClicks; VCost; VConversions; VConversionsValue; VCpa; VRoas].

Definition categoryValueTypes : list ValueType :=
  [VImpressions; VClicks; VConversions; VConversionsValue].

(** The sub-queries of the category source in the order of the two loops:
    periods outermost, campaigns innermost. *)
Definition subQueries (periods : list Period) (campaignIds : list string) : list Query :=
  flat_map (fun period =>
              map (fun campaignId => QCampaignSearchTermInsight campaignId period) campaignIds)
           periods.

(** The queries of the category source: none when the categories are
    switched off; else the campaign query and, when it lists a campaign,
    the sub-queries. *)
Definition categoryQueries (cfg : Config) (world : World) : list Event :=
  if INCLUDE_PMAX_CATEGORIES cfg then
    EvSearch QCampaign ::
    (if decide (campaignIdsOf (campaignRows world) = []) then []
     else map EvSearch
            (subQueries
               (getPeriodRanges (TIME_GRANULARITY cfg)
                  (fst (dateRange cfg world)) (snd (dateRange cfg world)))
               (campaignIdsOf (campaignRows world))))
  else [].

(** A call on one tab of the spreadsheet. *)
Definition isTabCall (e : Event) : bool :=
  match e with
  | EvSheet _ | EvSetValues _ _ | EvInsertChart _ => true
  | _ => false
  end.

(** The computation only calls on tabs and does not throw. *)
Definition tabsOnly (m : M unit) : Prop :=
  Forall (fun e => isTabCall e = true) (fst m) /\ snd m = inr tt.

(** The calls for one raw tab: the sheet, then its table when there is a
    period. *)
Definition rawTabEvents (cfg : Config) (world : World) (name : string)
    (periodData : gmap string (Bucket float)) : list Event :=
  EvSheet name ::
  (if decide (periodData = ∅) then []
   else [EvSetValues name
           (buildRawTabRows (TIME_GRANULARITY cfg) (monthLabel world) periodData)]).

(** What a computation returns, or [d] when it throws. *)
Definition resultOr {A : Type} (d : A) (m : M A) : A :=
  match snd m with
  | inr a => a
  | inl _ => d
  end.

(** ** The order of period keys *)


(** ** Results without branded volume *)

(** Nothing was counted as branded, in the totals or in any period. *)
Definition noBranded {num : Type} (zero : num) (r : ChannelResult num) : Prop :=
  branded (totals r) = emptyMetrics zero /\
  forall key b, periodData r !! key = Some b -> branded b = emptyMetrics zero.

(** ** Whole numbers as doubles *)

(** The double of a whole number from 0 to 2^63 - 1: what [Number] gives
    for an integer metric of a report. *)
Definition toDouble (n : Z) : float := PrimFloat.of_uint63 (Uint63.of_Z n).

Definition toDoubles (m : Metrics Z) : Metrics float :=
  mkMetrics (toDouble (impressions m)) (toDouble (clicks m)) (toDouble (cost m))
            (toDouble (conversions m)) (toDouble (conversionsValue m)).

Definition asDoubles (r : Classified Z) : Classified float :=
  mkClassified (periodKey r) (isBrandedRow r) (toDoubles (rowMetrics r)).

Definition bucketDoubles (b : Bucket Z) : Bucket float :=
  mkBucket (toDoubles (branded b)) (toDoubles (nonBranded b)) (toDoubles <$> blank b).

Definition resultDoubles (r : ChannelResult Z) : ChannelResult float :=
  mkResult (bucketDoubles (totals r)) (bucketDoubles <$> periodData r).

(** Every metric is a count: a whole number that is not negative. *)
Definition counts (m : Metrics Z) : Prop :=
  (0 <= impressions m /\ 0 <= clicks m /\ 0 <= cost m /\
   0 <= conversions m /\ 0 <= conversionsValue m)%Z.

Definition bucketCounts (b : Bucket Z) : Prop := counts (branded b) /\ counts (nonBranded b).

(** The five metrics of a row added up, and this over all rows: a bound
    on every sum that aggregating or merging the rows can form. *)
Definition volume (m : Metrics Z) : Z :=
  (impressions m + clicks m + cost m + conversions m + conversionsValue m)%Z.

Definition totalVolume (rows : list (Classified Z)) : Z :=
  fold_right (fun r acc => (volume (rowMetrics r) + acc)%Z) 0%Z rows.

(** Every metric lies between 0 and [b]. *)
Definition fitsM (b : Z) (m : Metrics Z) : Prop :=
  (0 <= impressions m <= b /\ 0 <= clicks m <= b /\ 0 <= cost m <= b /\
   0 <= conversions m <= b /\ 0 <= conversionsValue m <= b)%Z.

Definition fitsB (b : Z) (bk : Bucket Z) : Prop :=
  fitsM b (branded bk) /\ fitsM b (nonBranded bk).

Definition fitsR (b : Z) (r : ChannelResult Z) : Prop :=
  fitsB b (totals r) /\ forall k bk, periodData r !! k = Some bk -> fitsB b bk.

(** The double that is the whole number [z], in the terms of the
    specification of the floating-point operations, and [p] with [n]
    zeros appended to its binary digits. *)
Definition SFnat (z : Z) : spec_float := binary_normalize prec emax z 0 false.

Definition shl (n : nat) (p : positive) : positive := Nat.iter n xO p.

(** ** Rows and worlds for the examples *)

(** A search-term row whose [segments] are missing. *)
Definition undatedRow (term : string) : Row :=
  mkRow (Some (Some term)) None None None
        (Some (Raw.mkMetrics (JNum 100) (JNum 10) (JNum 5000000) (JNum 1) (JNum 20)))
        None.

Definition campaignRow (id : string) : Row :=
  mkRow None None None (Some (Some id)) None None.

(** One Performance Max campaign, whose category report has a row in
    January 2024 only. *)
Definition januaryWorld : World :=
  mkWorld 19737 (fun _ => []) [] [campaignRow "123"]
          (fun _ period =>
             if String.eqb (key period) "2024-01"
             then Some [categoryRow (Some "running shoes") 5 2 0 0]
             else Some [])
          (fun _ => nan) (fun s => s).
(** * Properties *)

Example tokenSource_hyphen_digit :
  tokenSource "brand-name 2" = "brand[-_ ]?name[-_ ]? ?2".
Proof. reflexivity. Qed.

Example matcher_examples :
  exists ps, buildBrandPatterns ["foodsisters"; "foodsister"] = Some ps /\
    isBranded ps (JStr "FoodSisters discount") = true /\
    isBranded ps (JStr "sister gift") = false /\
    isBranded ps (JStr "") = false /\
    isBranded ps JNull = false.
Proof. eexists. split; [vm_compute; reflexivity|]. repeat split; vm_compute; reflexivity. Qed.

Example matcher_variants :
  exists ps, buildBrandPatterns ["brand-name 2"] = Some ps /\
    isBranded ps (JStr "my BRAND_NAME2 shop") = true /\
    isBranded ps (JStr "brandname 2") = true /\
    isBranded ps (JStr "brand  name 2") = false.
Proof. eexists. split; [vm_compute; reflexivity|]. repeat split; vm_compute; reflexivity. Qed.

(** C1 (as the code behaves): with an empty token list the pattern source
    is the empty string, the expression built from it matches at index 0 of
    any text, and [isBranded] is true for every non-empty string. *)
Theorem empty_tokens_match_every_nonempty_text :
  exists ps, buildBrandPatterns [] = Some ps /\
    forall c s, isBranded ps (JStr (String c s)) = true.
Proof.
  eexists. split; [vm_compute; reflexivity|].
  intros c s. reflexivity.
Qed.

(** ** Period maps: what a lookup sees after an update *)

Section AggregationFacts.

Context {num : Type} (zero : num) (add : num -> num -> num).


Lemma addRowToPeriodData_insert (pd : gmap string (Bucket num)) k b r :
  (addRowToPeriodData zero add) pd k b r
  = <[k := (addToBucket add) (default (emptyPeriodData zero) (pd !! k)) b r]> pd.
Proof.
  unfold addRowToPeriodData.
  destruct (pd !! k) as [x|] eqn:E; simpl.
  - by rewrite E.
  - by rewrite lookup_insert_eq, insert_insert_eq.
Qed.

Lemma mergePeriodKey_insert k src (target : gmap string (Bucket num)) :
  (mergePeriodKey zero add) k src target
  = <[k := (mergeTotals add) (default (emptyPeriodData zero) (target !! k)) src]> target.
Proof.
  unfold mergePeriodKey.
  destruct (target !! k) as [x|] eqn:E; simpl.
  - by rewrite E.
  - by rewrite lookup_insert_eq, insert_insert_eq.
Qed.

Lemma lookup_mergePeriodData (target source : gmap string (Bucket num)) k :
  (mergePeriodData zero add) target source !! k
  = match source !! k with
    | Some sb => Some ((mergeTotals add) (default (emptyPeriodData zero) (target !! k)) sb)
    | None => target !! k
    end.
Proof.
  unfold mergePeriodData.
  apply (map_fold_weak_ind (fun r m =>
    r !! k = match m !! k with
             | Some sb => Some ((mergeTotals add) (default (emptyPeriodData zero) (target !! k)) sb)
             | None => target !! k
             end)).
  - by rewrite lookup_empty.
  - intros i x m r Hi IH. rewrite mergePeriodKey_insert.
    destruct (decide (i = k)) as [->|Hne].
    + rewrite !lookup_insert_eq. rewrite Hi in IH. by rewrite IH.
    + by rewrite !lookup_insert_ne.
Qed.

Lemma dom_mergePeriodData (target source : gmap string (Bucket num)) :
  dom ((mergePeriodData zero add) target source) = dom target ∪ dom source.
Proof.
  apply set_eq. intros k.
  rewrite elem_of_union, !elem_of_dom, lookup_mergePeriodData.
  destruct (source !! k) as [sb|]; split; intros H.
  - right. eauto.
  - eauto.
  - by left.
  - destruct H as [H|[? ?]]; [done|discriminate].
Qed.

End AggregationFacts.

(** ** Aggregation when addition is exact

    With an addition that is associative and commutative and has [zero] as
    its unit, the order of the rows and the way they are split into batches
    do not matter. *)

Section ExactArithmetic.

Context {num : Type} (zero : num) (add : num -> num -> num).

Hypothesis add_assoc : forall a b c, add a (add b c) = add (add a b) c.
Hypothesis add_comm : forall a b, add a b = add b a.
Hypothesis add_zero_l : forall a, add zero a = a.


Lemma add_zero_r a : add a zero = a.
Proof. by rewrite add_comm. Qed.

Lemma add_swap a b c : add (add a b) c = add (add a c) b.
Proof. by rewrite <- !add_assoc, (add_comm b c). Qed.

Lemma addMetrics_assoc a b c :
  (addMetrics add) a ((addMetrics add) b c) = (addMetrics add) ((addMetrics add) a b) c.
Proof. unfold addMetrics; simpl. by rewrite !add_assoc. Qed.

Lemma addMetrics_swap a b c :
  (addMetrics add) ((addMetrics add) a b) c = (addMetrics add) ((addMetrics add) a c) b.
Proof.
  unfold addMetrics; simpl.
  f_equal; apply add_swap.
Qed.

Lemma addMetrics_empty_l a : (addMetrics add) (emptyMetrics zero) a = a.
Proof. destruct a. unfold addMetrics; simpl. by rewrite !add_zero_l. Qed.

Lemma addMetrics_empty_r a : (addMetrics add) a (emptyMetrics zero) = a.
Proof. destruct a. unfold addMetrics; simpl. by rewrite !add_zero_r. Qed.



Lemma mergeTotals_empty_r s o : (mergeTotals add) s (mkBucket (emptyMetrics zero) (emptyMetrics zero) o) = s.
Proof.
  destruct s. unfold mergeTotals; simpl.
  by rewrite !addMetrics_empty_r.
Qed.










End ExactArithmetic.

(** ** Period keys of an aggregate *)

Section AggregateKeys.

Context {num : Type} (zero : num) (add : num -> num -> num).

Lemma dom_fold_accumulate (l : list (Classified num)) (s : ChannelResult num) :
  dom (periodData (fold_left (accumulate zero add) l s))
  = dom (periodData s) ∪ list_to_set (periodKey <$> l).
Proof.
  revert s. induction l as [|r l IH]; intros s; simpl.
  - set_solver.
  - rewrite IH. simpl. rewrite addRowToPeriodData_insert, dom_insert_L. set_solver.
Qed.


End AggregateKeys.

(** ** Doubles that are whole numbers

    The sum of two doubles that are whole numbers is exact as long as it
    stays below 2^53.  This is read off the specification of the
    floating-point operations. *)

Section ExactSums.

Local Open Scope Z_scope.

Lemma iter_pos_nat {A : Type} (f : A -> A) (n : positive) : forall x,
  SpecFloat.iter_pos f n x = Nat.iter (Pos.to_nat n) f x.
Proof.
  induction n as [n IH|n IH|]; intros x; cbn [SpecFloat.iter_pos].
  - rewrite !IH. rewrite Pos2Nat.inj_xI.
    replace (S (2 * Pos.to_nat n))%nat with (Pos.to_nat n + (Pos.to_nat n + 1))%nat by lia.
    rewrite !Nat.iter_add. reflexivity.
  - rewrite !IH. rewrite Pos2Nat.inj_xO.
    replace (2 * Pos.to_nat n)%nat with (Pos.to_nat n + Pos.to_nat n)%nat by lia.
    rewrite Nat.iter_add. reflexivity.
  - reflexivity.
Qed.

Lemma pos_iter_nat {A : Type} (f : A -> A) (n : positive) (x : A) :
  Pos.iter f x n = Nat.iter (Pos.to_nat n) f x.
Proof. apply Pos2Nat.inj_iter. Qed.


Lemma shl_add n m p : shl n (shl m p) = shl (n + m) p.
Proof. unfold shl. by rewrite Nat.iter_add. Qed.

Lemma digits_shl n p : Zpos (digits2_pos (shl n p)) = Zpos (digits2_pos p) + Z.of_nat n.
Proof.
  induction n as [|n IH]; [cbn; lia|].
  change (shl (S n) p) with (xO (shl n p)). cbn [digits2_pos]. lia.
Qed.

Lemma shr_shl n k p :
  Nat.iter n shr_1 (Build_shr_record (Zpos (shl (n + k) p)) false false)
  = Build_shr_record (Zpos (shl k p)) false false.
Proof.
  induction n as [|n IH]; [done|].
  rewrite Nat.iter_succ_r. change (shl (S n + k) p) with (xO (shl (n + k) p)).
  cbn [shr_1 orb]. apply IH.
Qed.

Lemma Zpos_shl n p : Zpos (shl n p) = Zpos p * 2 ^ Z.of_nat n.
Proof.
  induction n as [|n IH]; [cbn; lia|].
  change (shl (S n) p) with (xO (shl n p)).
  rewrite Nat2Z.inj_succ, Z.pow_succ_r by lia. rewrite Pos2Z.inj_xO, IH. lia.
Qed.

Lemma digits_bounds p :
  2 ^ (Zpos (digits2_pos p) - 1) <= Zpos p < 2 ^ Zpos (digits2_pos p).
Proof.
  induction p as [p IH|p IH|]; cbn [digits2_pos]; [| |cbn; lia].
  - rewrite Pos2Z.inj_succ. replace (Z.succ (Zpos (digits2_pos p)) - 1) with (Z.succ (Zpos (digits2_pos p) - 1)) by lia.
    rewrite !Z.pow_succ_r by lia. lia.
  - rewrite Pos2Z.inj_succ. replace (Z.succ (Zpos (digits2_pos p)) - 1) with (Z.succ (Zpos (digits2_pos p) - 1)) by lia.
    rewrite !Z.pow_succ_r by lia. lia.
Qed.

Lemma digits_le_53 p : Zpos p < 2 ^ 53 -> Zpos (digits2_pos p) <= 53.
Proof.
  intros Hp. destruct (Z_le_gt_dec (Zpos (digits2_pos p)) 53) as [|Hgt]; [done|].
  pose proof (digits_bounds p) as [Hlo _].
  assert (2 ^ 53 <= 2 ^ (Zpos (digits2_pos p) - 1)) by (apply Z.pow_le_mono_r; lia).
  lia.
Qed.

Lemma round_aux_exact m e : Zpos (digits2_pos m) = 53 -> -1074 <= e <= 971 ->
  binary_round_aux prec emax false (Zpos m) e loc_Exact = S754_finite false m e.
Proof.
  intros Hd He. unfold binary_round_aux, shr_fexp, Zdigits2. rewrite Hd.
  unfold fexp, emin, prec, emax.
  replace (Z.max (53 + e - 53) (3 - 1024 - 53) - e) with 0 by lia.
  cbn [shr shr_record_of_loc shr_m round_nearest_even loc_of_shr_record].
  rewrite Hd.
  replace (Z.max (53 + e - 53) (3 - 1024 - 53) - e) with 0 by lia.
  cbn [shr shr_record_of_loc shr_m].
  replace (e <=? 1024 - 53) with true by (symmetry; apply Z.leb_le; lia). done.
Qed.

Lemma binary_round_scaled (p : positive) (j : nat) :
  Zpos (digits2_pos p) <= 53 -> (j <= 1000)%nat ->
  binary_round prec emax false (shl j p) (- Z.of_nat j)
  = S754_finite false (shl (Z.to_nat (53 - Zpos (digits2_pos p))) p) (Zpos (digits2_pos p) - 53).
Proof.
  intros Hd Hj. set (D := Zpos (digits2_pos p)) in *.
  assert (1 <= D) by (unfold D; lia).
  unfold binary_round. rewrite digits_shl. fold D.
  replace (fexp prec emax (D + Z.of_nat j + - Z.of_nat j)) with (D - 53)
    by (unfold fexp, emin, prec, emax; lia).
  unfold shl_align.
  destruct (D - 53 - - Z.of_nat j) as [|n|d] eqn:E.
  - replace (Z.to_nat (53 - D)) with j by lia.
    replace (D - 53) with (- Z.of_nat j) by lia.
    apply round_aux_exact; [rewrite digits_shl; fold D; lia|lia].
  - unfold binary_round_aux, shr_fexp, Zdigits2. rewrite digits_shl. fold D.
    replace (fexp prec emax (D + Z.of_nat j + - Z.of_nat j) - - Z.of_nat j) with (Zpos n)
      by (unfold fexp, emin, prec, emax; lia).
    cbn [shr shr_record_of_loc]. rewrite iter_pos_nat.
    assert (Nat.iter (Pos.to_nat n) shr_1 (Build_shr_record (Zpos (shl j p)) false false)
            = Build_shr_record (Zpos (shl (Z.to_nat (53 - D)) p)) false false) as ->.
    { replace j with (Pos.to_nat n + Z.to_nat (53 - D))%nat by lia. apply shr_shl. }
    cbn [shr_m round_nearest_even loc_of_shr_record].
    rewrite digits_shl. fold D.
    replace (fexp prec emax (D + Z.of_nat (Z.to_nat (53 - D)) + (- Z.of_nat j + Zpos n))
             - (- Z.of_nat j + Zpos n)) with 0
      by (unfold fexp, emin, prec, emax; lia).
    cbn [shr shr_record_of_loc shr_m].
    replace (- Z.of_nat j + Zpos n <=? emax - prec) with true
      by (symmetry; apply Z.leb_le; unfold emax, prec; lia).
    f_equal. lia.
  - rewrite pos_iter_nat. fold (shl (Pos.to_nat d) (shl j p)). rewrite shl_add.
    replace (Pos.to_nat d + j)%nat with (Z.to_nat (53 - D)) by lia.
    apply round_aux_exact; [rewrite digits_shl; fold D; lia|lia].
Qed.

Lemma SFnat_pos p : Zpos p < 2 ^ 53 ->
  SFnat (Zpos p)
  = S754_finite false (shl (Z.to_nat (53 - Zpos (digits2_pos p))) p) (Zpos (digits2_pos p) - 53).
Proof.
  intros Hp. unfold SFnat, binary_normalize.
  apply (binary_round_scaled p 0); [by apply digits_le_53|lia].
Qed.

Lemma shl_align_le m e e' : e' <= e ->
  fst (shl_align m e e') = shl (Z.to_nat (e - e')) m.
Proof.
  intros Hle. unfold shl_align. destruct (e' - e) as [|n|d] eqn:E; cbn [fst].
  - by replace (Z.to_nat (e - e')) with 0%nat by lia.
  - lia.
  - rewrite pos_iter_nat. fold (shl (Pos.to_nat d) m). f_equal. lia.
Qed.

Lemma shl_plus n p q : (Zpos (shl n p) + Zpos (shl n q)) = Zpos (shl n (p + q)).
Proof. rewrite !Zpos_shl. lia. Qed.

Lemma SFadd_nat (a b : Z) : 0 <= a -> 0 <= b -> a + b < 2 ^ 53 ->
  SFadd prec emax (SFnat a) (SFnat b) = SFnat (a + b).
Proof.
  intros Ha Hb Hab.
  destruct a as [|p|p]; [|destruct b as [|q|q]|lia]; try lia.
  - destruct b as [|q|q]; [reflexivity| |lia].
    change (0 + Z.pos q) with (Z.pos q). rewrite SFnat_pos by lia. reflexivity.
  - rewrite Z.add_0_r. rewrite SFnat_pos by lia. reflexivity.
  - rewrite !SFnat_pos by lia. cbn [SFadd].
    set (dp := Zpos (digits2_pos p)). set (dq := Zpos (digits2_pos q)).
    pose proof (digits_le_53 p ltac:(lia)) as Hp. pose proof (digits_le_53 q ltac:(lia)) as Hq.
    fold dp in Hp. fold dq in Hq.
    assert (1 <= dp) by (unfold dp; lia). assert (1 <= dq) by (unfold dq; lia).
    rewrite !shl_align_le by lia. rewrite !shl_add. cbn [cond_Zopp].
    set (J := Z.to_nat (53 - Z.min dp dq)).
    replace (Z.to_nat (dp - 53 - Z.min (dp - 53) (dq - 53)) + Z.to_nat (53 - dp))%nat with J
      by (unfold J; lia).
    replace (Z.to_nat (dq - 53 - Z.min (dp - 53) (dq - 53)) + Z.to_nat (53 - dq))%nat with J
      by (unfold J; lia).
    rewrite shl_plus. unfold binary_normalize.
    replace (Z.min (dp - 53) (dq - 53)) with (- Z.of_nat J) by (unfold J; lia).
    change (Zpos p + Zpos q) with (Zpos (p + q)) in *.
    rewrite binary_round_scaled; [|apply digits_le_53; lia|unfold J; lia].
    by rewrite SFnat_pos by lia.
Qed.

Lemma Prim2SF_toDouble n : 0 <= n < 2 ^ 53 -> Prim2SF (toDouble n) = SFnat n.
Proof.
  intros Hn. unfold toDouble, SFnat. rewrite of_uint63_spec.
  change Uint63Axioms.to_Z with Uint63.to_Z.
  rewrite Uint63.of_Z_spec. rewrite Z.mod_small; [done|].
  change Uint63.wB with (2 ^ 63). split; [lia|].
  assert (2 ^ 53 < 2 ^ 63) by (apply Z.pow_lt_mono_r; lia). lia.
Qed.

Lemma toDouble_add a b : 0 <= a -> 0 <= b -> a + b < 2 ^ 53 ->
  jsAdd (toDouble a) (toDouble b) = toDouble (a + b).
Proof.
  intros Ha Hb Hab. unfold jsAdd. apply Prim2SF_inj.
  rewrite FloatAxioms.add_spec, !Prim2SF_toDouble by lia. by apply SFadd_nat.
Qed.

Lemma toDouble_zero : toDouble 0 = jsZero.
Proof. reflexivity. Qed.

End ExactSums.

(** ** Aggregating counts: the doubles follow the whole numbers *)

Section Counts.

Local Open Scope Z_scope.

Lemma fitsM_mono b b' m : b <= b' -> fitsM b m -> fitsM b' m.
Proof. unfold fitsM. lia. Qed.

Lemma fitsB_mono b b' bk : b <= b' -> fitsB b bk -> fitsB b' bk.
Proof. intros Hle [H1 H2]. split; by eapply fitsM_mono. Qed.

Lemma counts_fits m : counts m -> fitsM (volume m) m.
Proof. unfold counts, fitsM, volume. lia. Qed.

Lemma fitsM_empty b : 0 <= b -> fitsM b (emptyMetrics 0).
Proof. unfold fitsM. cbn. lia. Qed.

Lemma fitsB_empty b : 0 <= b -> fitsB b (emptyPeriodData 0).
Proof. intros Hb. split; by apply fitsM_empty. Qed.

Lemma addMetrics_doubles x y bx by_ :
  fitsM bx x -> fitsM by_ y -> bx + by_ < 2 ^ 53 ->
  addMetrics jsAdd (toDoubles x) (toDoubles y) = toDoubles (addMetrics Z.add x y) /\
  fitsM (bx + by_) (addMetrics Z.add x y).
Proof.
  unfold fitsM. intros Hx Hy Hb. split.
  - unfold addMetrics, toDoubles. cbn [impressions clicks cost conversions conversionsValue].
    by rewrite !toDouble_add by lia.
  - unfold addMetrics. cbn [impressions clicks cost conversions conversionsValue]. lia.
Qed.

Lemma addToBucket_doubles bk br m b c :
  fitsB b bk -> fitsM c m -> b + c < 2 ^ 53 -> 0 <= c ->
  addToBucket jsAdd (bucketDoubles bk) br (toDoubles m)
  = bucketDoubles (addToBucket Z.add bk br m) /\
  fitsB (b + c) (addToBucket Z.add bk br m).
Proof.
  intros [Hb1 Hb2] Hm Hlt Hc. unfold addToBucket, bucketDoubles.
  destruct br; cbn [branded nonBranded blank].
  - destruct (addMetrics_doubles (branded bk) m b c Hb1 Hm Hlt) as [-> Hf].
    split; [done|]. split; [done|]. eapply fitsM_mono; [|exact Hb2]. lia.
  - destruct (addMetrics_doubles (nonBranded bk) m b c Hb2 Hm Hlt) as [-> Hf].
    split; [done|]. split; [|done]. eapply fitsM_mono; [|exact Hb1]. lia.
Qed.

Lemma emptyPeriodData_doubles : bucketDoubles (emptyPeriodData 0) = emptyPeriodData jsZero.
Proof. reflexivity. Qed.

Lemma default_doubles (o : option (Bucket Z)) :
  default (emptyPeriodData jsZero) (bucketDoubles <$> o)
  = bucketDoubles (default (emptyPeriodData 0) o).
Proof. by destruct o. Qed.

Lemma accumulate_doubles st r b c :
  fitsR b st -> 0 <= b -> fitsM c (rowMetrics r) -> 0 <= c -> b + c < 2 ^ 53 ->
  accumulate jsZero jsAdd (resultDoubles st) (asDoubles r)
  = resultDoubles (accumulate 0 Z.add st r) /\
  fitsR (b + c) (accumulate 0 Z.add st r).
Proof.
  intros [Ht Hp] Hb Hm Hc Hlt.
  assert (fitsB b (default (emptyPeriodData 0) (periodData st !! periodKey r))) as Hold.
  { destruct (periodData st !! periodKey r) as [bk|] eqn:E; [by eapply Hp|by apply fitsB_empty]. }
  destruct (addToBucket_doubles (totals st) (isBrandedRow r) (rowMetrics r) b c Ht Hm Hlt Hc)
    as [Et Ft].
  destruct (addToBucket_doubles _ (isBrandedRow r) (rowMetrics r) b c Hold Hm Hlt Hc)
    as [Ep Fp].
  split.
  - unfold accumulate, resultDoubles. cbn [totals periodData asDoubles periodKey isBrandedRow rowMetrics].
    rewrite Et. f_equal.
    rewrite !addRowToPeriodData_insert, fmap_insert, lookup_fmap, default_doubles. by rewrite Ep.
  - split; [exact Ft|]. intros k bk. unfold accumulate. cbn [periodData].
    rewrite addRowToPeriodData_insert.
    destruct (decide (periodKey r = k)) as [<-|Hne].
    + rewrite lookup_insert_eq. by intros [= <-].
    + rewrite lookup_insert_ne by done. intros Hk.
      eapply fitsB_mono; [|by eapply Hp]. lia.
Qed.

Lemma totalVolume_nonneg rows :
  Forall (fun r => counts (rowMetrics r)) rows -> 0 <= totalVolume rows.
Proof.
  induction 1 as [|r rows Hr _ IH]; cbn [totalVolume fold_right]; [lia|].
  fold (totalVolume rows). unfold counts, volume in *. lia.
Qed.

Lemma fold_accumulate_doubles rows : forall st b,
  fitsR b st -> 0 <= b ->
  Forall (fun r => counts (rowMetrics r)) rows ->
  b + totalVolume rows < 2 ^ 53 ->
  fold_left (accumulate jsZero jsAdd) (map asDoubles rows) (resultDoubles st)
  = resultDoubles (fold_left (accumulate 0 Z.add) rows st) /\
  fitsR (b + totalVolume rows) (fold_left (accumulate 0 Z.add) rows st).
Proof.
  induction rows as [|r rows IH]; intros st b Hst Hb Hrows Hlt.
  - cbn. split; [done|]. by rewrite Z.add_0_r.
  - apply Forall_cons in Hrows as [Hr Hrows].
    pose proof (totalVolume_nonneg rows Hrows) as Hnn.
    cbn [totalVolume fold_right] in Hlt |- *. fold (totalVolume rows) in Hlt |- *.
    assert (0 <= volume (rowMetrics r)) as Hv by (unfold counts, volume in *; lia).
    destruct (accumulate_doubles st r b (volume (rowMetrics r)) Hst Hb (counts_fits _ Hr) Hv
                ltac:(lia)) as [Eacc Facc].
    cbn [map fold_left]. rewrite Eacc.
    destruct (IH _ (b + volume (rowMetrics r)) Facc ltac:(lia) Hrows ltac:(lia)) as [E F].
    split; [exact E|]. by rewrite Z.add_assoc.
Qed.

Lemma fitsR_empty : fitsR 0 (emptyResult 0).
Proof.
  split; [by apply fitsB_empty|]. intros k bk Hk. cbn [emptyResult periodData] in Hk.
  by rewrite lookup_empty in Hk.
Qed.

Lemma aggregate_doubles rows :
  Forall (fun r => counts (rowMetrics r)) rows ->
  totalVolume rows < 2 ^ 53 ->
  aggregate jsZero jsAdd (map asDoubles rows) = resultDoubles (aggregate 0 Z.add rows) /\
  fitsR (totalVolume rows) (aggregate 0 Z.add rows).
Proof.
  intros Hrows Hlt. unfold aggregate.
  destruct (fold_accumulate_doubles rows (emptyResult 0) 0 fitsR_empty ltac:(lia) Hrows
              ltac:(lia)) as [E F].
  split; [|exact F]. rewrite <- E. reflexivity.
Qed.

Lemma mergeTotals_doubles x y bx by_ :
  fitsB bx x -> fitsB by_ y -> bx + by_ < 2 ^ 53 ->
  mergeTotals jsAdd (bucketDoubles x) (bucketDoubles y) = bucketDoubles (mergeTotals Z.add x y) /\
  fitsB (bx + by_) (mergeTotals Z.add x y).
Proof.
  intros [Hx1 Hx2] [Hy1 Hy2] Hlt. unfold mergeTotals, bucketDoubles.
  cbn [branded nonBranded blank].
  destruct (addMetrics_doubles _ _ bx by_ Hx1 Hy1 Hlt) as [-> F1].
  destruct (addMetrics_doubles _ _ bx by_ Hx2 Hy2 Hlt) as [-> F2].
  by split.
Qed.

Lemma mergePeriodData_doubles (a b : gmap string (Bucket Z)) ba bb :
  (forall k bk, a !! k = Some bk -> fitsB ba bk) ->
  (forall k bk, b !! k = Some bk -> fitsB bb bk) ->
  0 <= ba -> ba + bb < 2 ^ 53 ->
  mergePeriodData jsZero jsAdd (bucketDoubles <$> a) (bucketDoubles <$> b)
  = bucketDoubles <$> mergePeriodData 0 Z.add a b.
Proof.
  intros Ha Hb Hnn Hlt. apply map_eq. intros k.
  rewrite lookup_fmap, !lookup_mergePeriodData, !lookup_fmap.
  destruct (b !! k) as [sb|] eqn:Eb; cbn [fmap option_fmap option_map]; [|done].
  rewrite default_doubles. f_equal.
  assert (fitsB ba (default (emptyPeriodData 0) (a !! k))) as Hold.
  { destruct (a !! k) as [bk|] eqn:E; [by eapply Ha|by apply fitsB_empty]. }
  by destruct (mergeTotals_doubles _ sb ba bb Hold (Hb k sb Eb) Hlt) as [-> _].
Qed.

Lemma mergeResults_doubles (s t : ChannelResult Z) bs bt :
  fitsR bs s -> fitsR bt t -> 0 <= bs -> bs + bt < 2 ^ 53 ->
  mergeResults jsZero jsAdd (resultDoubles s) (resultDoubles t)
  = resultDoubles (mergeResults 0 Z.add s t).
Proof.
  intros [Hs Hsp] [Ht Htp] Hnn Hlt. unfold mergeResults, resultDoubles.
  cbn [totals periodData].
  destruct (mergeTotals_doubles _ _ bs bt Hs Ht Hlt) as [-> _].
  by rewrite (mergePeriodData_doubles _ _ bs bt Hsp Htp Hnn Hlt).
Qed.




End Counts.






(** ** The search-term sources on doubles *)

(** The end-to-end scenario: three rows over two months. *)
Example three_rows_two_months :
  let r := processSearchTermView noNumericStrings foodsistersPatterns Month
             [termRow "2024-01" "foodsisters tee" 100 10 5000000 1 20;
              termRow "2024-01" "red tee" 200 20 10000000 2 40;
              termRow "2024-02" "foodsister hat" 50 5 2500000 0 0] in
  periodData r !! "2024-01"
    = Some (mkBucket (mkMetrics 100 10 5 1 20) (mkMetrics 200 20 10 2 40) None)%float /\
  periodData r !! "2024-02"
    = Some (mkBucket (mkMetrics 50 5 2.5 0 0) (mkMetrics 0 0 0 0 0) None)%float /\
  totals r = (mkBucket (mkMetrics 150 15 7.5 1 20) (mkMetrics 200 20 10 2 40) None)%float.
Proof. vm_compute. repeat split; reflexivity. Qed.

(** The two search-term sources decode each row on its own and aggregate
    the rows that are kept. *)
Lemma processSearchTermView_aggregate StringToNumber BRAND_PATTERNS g (rows : list Row) :
  processSearchTermView StringToNumber BRAND_PATTERNS g rows
  = aggregate jsZero jsAdd (omap (decodeSearchTermRow StringToNumber BRAND_PATTERNS g) rows).
Proof.
  unfold processSearchTermView, aggregate. generalize (emptyResult jsZero).
  induction rows as [|row rows IH]; intros st; simpl; [done|].
  rewrite IH. unfold searchTermStep.
  by destruct (decodeSearchTermRow StringToNumber BRAND_PATTERNS g row).
Qed.

Lemma processCampaignSearchTermView_aggregate StringToNumber BRAND_PATTERNS g flag
    (rows : list Row) :
  processCampaignSearchTermView StringToNumber BRAND_PATTERNS g flag rows
  = aggregate jsZero jsAdd (omap (decodePmaxRow StringToNumber BRAND_PATTERNS g flag) rows).
Proof.
  unfold processCampaignSearchTermView, aggregate. generalize (emptyResult jsZero).
  induction rows as [|row rows IH]; intros st; simpl; [done|].
  rewrite IH. unfold pmaxStep.
  by destruct (decodePmaxRow StringToNumber BRAND_PATTERNS g flag row).
Qed.


(** ** Performance Max rows with an excluded targeting status *)

Section PmaxExclusion.

Variable StringToNumber : string -> float.
Variable BRAND_PATTERNS : list RegExp.
Variable TIME_GRANULARITY : Granularity.
Variable PMAX_TREAT_ALL_AS_NON_BRANDED : bool.

Lemma excluded_row_not_decoded (row : Row) :
  isExcludedTargetingStatus (segments row) = true ->
  decodePmaxRow StringToNumber BRAND_PATTERNS TIME_GRANULARITY
    PMAX_TREAT_ALL_AS_NON_BRANDED row = None.
Proof. intros H. unfold decodePmaxRow. by rewrite H. Qed.

Lemma excluded_row_step (row : Row) st :
  isExcludedTargetingStatus (segments row) = true ->
  pmaxStep StringToNumber BRAND_PATTERNS TIME_GRANULARITY
    PMAX_TREAT_ALL_AS_NON_BRANDED st row = st.
Proof. intros H. unfold pmaxStep. by rewrite excluded_row_not_decoded. Qed.

End PmaxExclusion.

Lemma normalizedStatus_excluded (row : Row) :
  normalizedStatus row = Some "EXCLUDED" \/ normalizedStatus row = Some "ADDED_EXCLUDED" ->
  isExcludedTargetingStatus (segments row) = true.
Proof.
  unfold normalizedStatus, targetingStatusOf, isExcludedTargetingStatus.
  destruct (segments row) as [sg|]; [|by intros [|]].
  destruct (searchTermTargetingStatus sg) as [s|].
  - intros [[= ->]|[= ->]]; reflexivity.
  - destruct (search_term_targeting_status sg) as [s|]; [|by intros [|]].
    intros [[= ->]|[= ->]]; reflexivity.
Qed.

(** C2: a Performance Max row whose targeting status, upper-cased, reads
    [EXCLUDED] or [ADDED_EXCLUDED] leaves totals and period data as they
    were, whatever [PMAX_TREAT_ALL_AS_NON_BRANDED] is: the result of the
    run is that of the run without the row, and a run of such a row alone
    has no period at all, not even an all-zero one. *)
Theorem excluded_pmax_row_contributes_nothing
    (StringToNumber : string -> float) (BRAND_PATTERNS : list RegExp)
    (TIME_GRANULARITY : Granularity) (PMAX_TREAT_ALL_AS_NON_BRANDED : bool)
    (row : Row) :
  normalizedStatus row = Some "EXCLUDED" \/ normalizedStatus row = Some "ADDED_EXCLUDED" ->
  let process := processCampaignSearchTermView StringToNumber BRAND_PATTERNS
                   TIME_GRANULARITY PMAX_TREAT_ALL_AS_NON_BRANDED in
  (forall st, pmaxStep StringToNumber BRAND_PATTERNS TIME_GRANULARITY
                PMAX_TREAT_ALL_AS_NON_BRANDED st row = st) /\
  (forall before after, process (before ++ row :: after)%list = process (before ++ after)%list) /\
  periodData (process [row]) = ∅ /\
  totals (process [row]) = mkBucket (emptyMetrics jsZero) (emptyMetrics jsZero) None.
Proof.
  intros Hstatus process.
  pose proof (normalizedStatus_excluded row Hstatus) as Hex.
  split; [|split; [|split]].
  - intros st. by apply excluded_row_step.
  - intros before after. unfold process, processCampaignSearchTermView.
    rewrite !fold_left_app. simpl. by rewrite excluded_row_step.
  - unfold process, processCampaignSearchTermView. simpl.
    by rewrite excluded_row_step.
  - unfold process, processCampaignSearchTermView. simpl.
    by rewrite excluded_row_step.
Qed.

Lemma excluded_pmax_row_contributes_nothing_witness :
  let row := pmaxRow (Some "Added_Excluded") "2024-01" "foodsisters tee" 100 10 5000000 1 20 in
  let process := processCampaignSearchTermView noNumericStrings foodsistersPatterns Month true in
  (forall st, pmaxStep noNumericStrings foodsistersPatterns Month true st row = st) /\
  (forall before after, process (before ++ row :: after)%list = process (before ++ after)%list) /\
  periodData (process [row]) = ∅ /\
  totals (process [row]) = mkBucket (emptyMetrics jsZero) (emptyMetrics jsZero) None.
Proof.
  apply (excluded_pmax_row_contributes_nothing noNumericStrings foodsistersPatterns Month true).
  right. vm_compute. reflexivity.
Defined.

(** The same row without the status is counted, as branded or, under the
    override, as non-branded. *)
Example included_pmax_row_is_counted :
  let row := pmaxRow (Some "ADDED") "2024-01" "foodsisters tee" 100 10 5000000 1 20 in
  totals (processCampaignSearchTermView noNumericStrings foodsistersPatterns Month false [row])
    = (mkBucket (mkMetrics 100 10 5 1 20) (mkMetrics 0 0 0 0 0) None)%float /\
  totals (processCampaignSearchTermView noNumericStrings foodsistersPatterns Month true [row])
    = (mkBucket (mkMetrics 0 0 0 0 0) (mkMetrics 100 10 5 1 20) None)%float.
Proof. vm_compute. split; reflexivity. Qed.

(** ** Merging period data *)

(** C6: [mergePeriodData] drops no period: a key of either operand is a key
    of the merged map, and a key the target lacks gets a fresh all-zero
    bucket into which the source's metrics are then added. *)
Theorem mergePeriodData_keeps_every_period {num : Type} (zero : num)
    (add : num -> num -> num) (target source : gmap string (Bucket num)) :
  dom (mergePeriodData zero add target source) = dom target ∪ dom source /\
  (forall key, is_Some (target !! key) \/ is_Some (source !! key) ->
     is_Some (mergePeriodData zero add target source !! key)) /\
  (forall key sb, target !! key = None -> source !! key = Some sb ->
     mergePeriodData zero add target source !! key
     = Some (mergeTotals add (emptyPeriodData zero) sb)) /\
  (forall key tb sb, target !! key = Some tb -> source !! key = Some sb ->
     mergePeriodData zero add target source !! key = Some (mergeTotals add tb sb)) /\
  (forall key, source !! key = None ->
     mergePeriodData zero add target source !! key = target !! key).
Proof.
  split; [apply dom_mergePeriodData|].
  split; [|split; [|split]].
  - intros key H. apply elem_of_dom. rewrite dom_mergePeriodData.
    rewrite elem_of_union, !elem_of_dom. done.
  - intros key sb Ht Hs. by rewrite lookup_mergePeriodData, Hs, Ht.
  - intros key tb sb Ht Hs. by rewrite lookup_mergePeriodData, Hs, Ht.
  - intros key Hs. by rewrite lookup_mergePeriodData, Hs.
Qed.

Lemma mergePeriodData_keeps_every_period_witness :
  mergePeriodData jsZero jsAdd
    {[ "2024-01" := mkBucket (mkMetrics 1 1 1 1 1) (mkMetrics 2 2 2 2 2) None ]}%float
    {[ "2024-02" := mkBucket (mkMetrics 3 3 3 3 3) (mkMetrics 4 4 4 4 4) None ]}%float
    !! "2024-02"
  = Some (mergeTotals jsAdd (emptyPeriodData jsZero)
            (mkBucket (mkMetrics 3 3 3 3 3) (mkMetrics 4 4 4 4 4) None)%float).
Proof.
  apply (proj1 (proj2 (proj2 (mergePeriodData_keeps_every_period jsZero jsAdd _ _))));
    vm_compute; reflexivity.
Defined.

(** ** Row ingestion: [Number(x) || 0] *)







Example coercion_examples :
  searchTermRowMetrics (fun s => if String.eqb s "12" then 12%float else nan)
    (mkRow None None None None
       (Some (Raw.mkMetrics (JStr "12") (JStr "n/a") (JNum 2500000) JNull (JBool true)))
       None)
  = (mkMetrics 12 0 2.5 0 1)%float.
Proof. vm_compute. reflexivity. Qed.

(** ** The calendar *)

Section CalendarFacts.

Local Open Scope Z_scope.

Lemma DaysInYear_cases y : DaysInYear y = 365 \/ DaysInYear y = 366.
Proof. unfold DaysInYear. repeat case_match; auto. Qed.

Lemma DayFromYear_succ y : DayFromYear (y + 1) = DayFromYear y + DaysInYear y.
Proof.
  unfold DayFromYear, DaysInYear.
  repeat match goal with |- context [?a =? ?b] => destruct (Z.eqb_spec a b) end; simpl;
  Z.div_mod_to_equations; lia.
Qed.

Lemma DayFromYear_mono y y' : y < y' -> DayFromYear y < DayFromYear y'.
Proof. unfold DayFromYear. intros. Z.div_mod_to_equations. lia. Qed.

Lemma YearFromDay_spec d :
  DayFromYear (YearFromDay d) <= d < DayFromYear (YearFromDay d + 1).
Proof.
  unfold YearFromDay.
  repeat match goal with |- context [?a <=? ?b] => destruct (Z.leb_spec a b) end.
  - split; [lia|]. unfold DayFromYear in *. Z.div_mod_to_equations. lia.
  - replace (1970 + 400 * d / 146097 + 1) with (1970 + 400 * d / 146097 + 1) in * by lia. lia.
  - replace (1970 + 400 * d / 146097 - 1 + 1) with (1970 + 400 * d / 146097) by lia.
    split; [|lia]. unfold DayFromYear in *. Z.div_mod_to_equations. lia.
Qed.

Lemma YearFromDay_unique d y :
  DayFromYear y <= d < DayFromYear (y + 1) -> YearFromDay d = y.
Proof.
  intros H. pose proof (YearFromDay_spec d) as S.
  destruct (Z.lt_trichotomy (YearFromDay d) y) as [Hlt|[->|Hgt]]; [|done|].
  - assert (YearFromDay d + 1 <= y) as Hle by lia.
    destruct (Z.eq_dec (YearFromDay d + 1) y) as [E|N].
    + rewrite E in S. lia.
    + pose proof (DayFromYear_mono (YearFromDay d + 1) y). lia.
  - destruct (Z.eq_dec (y + 1) (YearFromDay d)) as [E|N].
    + rewrite E in H. lia.
    + pose proof (DayFromYear_mono (y + 1) (YearFromDay d)). lia.
Qed.

Lemma leapOf_days y : (DaysInYear y = 365 + leapOf y)%Z.
Proof. unfold leapOf. destruct (DaysInYear_cases y) as [-> | ->]; reflexivity. Qed.

Lemma leapOf_range y : (0 <= leapOf y <= 1)%Z.
Proof. unfold leapOf. case_match; lia. Qed.

Lemma DayWithinYear_range d : 0 <= DayWithinYear d < 365 + InLeapYear d.
Proof.
  unfold DayWithinYear, InLeapYear.
  pose proof (YearFromDay_spec d) as S. rewrite DayFromYear_succ, leapOf_days in S. lia.
Qed.

Lemma MonthFromDay_range d : 0 <= MonthFromDay d <= 11.
Proof. unfold MonthFromDay. repeat case_match; lia. Qed.

Lemma month_bounds d :
  daysBeforeMonth (InLeapYear d) (MonthFromDay d) <= DayWithinYear d
    < daysBeforeMonth (InLeapYear d) (MonthFromDay d + 1).
Proof.
  pose proof (DayWithinYear_range d) as R.
  assert (0 <= InLeapYear d <= 1) as L by apply leapOf_range.
  unfold MonthFromDay.
  repeat match goal with |- context [?a <? ?b] => destruct (Z.ltb_spec a b) end;
    simpl; lia.
Qed.

Lemma MakeDay_in_year y m date :
  0 <= m <= 11 -> MakeDay y m date = DayFromYear y + daysBeforeMonth (leapOf y) m + date - 1.
Proof.
  intros Hm. unfold MakeDay.
  rewrite Z.div_small, Z.mod_small by lia. by rewrite Z.add_0_r.
Qed.

Lemma MakeDay_december y date : MakeDay y 12 date = MakeDay (y + 1) 0 date.
Proof.
  unfold MakeDay.
  change (12 / 12) with 1. change (12 mod 12) with 0.
  change (0 / 12) with 0. change (0 mod 12) with 0.
  replace (y + 1 + 0) with (y + 1) by lia.
  cbn [daysBeforeMonth]. lia.
Qed.

(** The first day of the month of [d] and of the next month enclose [d]. *)
Lemma month_of_day d :
  MakeDay (YearFromDay d) (MonthFromDay d) 1 <= d
    < MakeDay (YearFromDay d) (MonthFromDay d + 1) 1.
Proof.
  pose proof (MonthFromDay_range d) as Hm.
  pose proof (month_bounds d) as Hb.
  unfold DayWithinYear, InLeapYear in Hb.
  rewrite MakeDay_in_year by lia.
  destruct (Z.eq_dec (MonthFromDay d) 11) as [E|N].
  - rewrite E in *. simpl (11 + 1). rewrite MakeDay_december, MakeDay_in_year by lia.
    rewrite DayFromYear_succ, leapOf_days. simpl in *. lia.
  - rewrite MakeDay_in_year by lia. lia.
Qed.

Lemma DateFromDay_first d :
  DateFromDay d = d - MakeDay (YearFromDay d) (MonthFromDay d) 1 + 1.
Proof.
  pose proof (MonthFromDay_range d) as Hm.
  rewrite MakeDay_in_year by lia.
  unfold DateFromDay, DayWithinYear, InLeapYear. lia.
Qed.

Lemma daysBeforeMonth_mono l m : 0 <= l <= 1 -> 0 <= m <= 11 ->
  daysBeforeMonth l m + 28 <= daysBeforeMonth l (m + 1).
Proof.
  intros Hl Hm.
  assert (m = 0 \/ m = 1 \/ m = 2 \/ m = 3 \/ m = 4 \/ m = 5 \/ m = 6 \/ m = 7 \/
          m = 8 \/ m = 9 \/ m = 10 \/ m = 11) as H by lia.
  repeat (destruct H as [->|H]); try subst m; simpl; lia.
Qed.

(** The first day of month [m] of year [y] is read back as such. *)
Lemma first_of_month y m : 0 <= m <= 11 ->
  let d := MakeDay y m 1 in
  YearFromDay d = y /\ MonthFromDay d = m /\ DateFromDay d = 1.
Proof.
  intros Hm d.
  assert (d = DayFromYear y + daysBeforeMonth (leapOf y) m) as Hd
    by (unfold d; rewrite MakeDay_in_year by lia; lia).
  pose proof (leapOf_range y) as Hl.
  assert (0 <= daysBeforeMonth (leapOf y) m < 365) as Hdb.
  { assert (m = 0 \/ m = 1 \/ m = 2 \/ m = 3 \/ m = 4 \/ m = 5 \/ m = 6 \/ m = 7 \/
          m = 8 \/ m = 9 \/ m = 10 \/ m = 11) as H by lia.
    repeat (destruct H as [->|H]); try subst m; simpl; lia. }
  assert (YearFromDay d = y) as Hy.
  { apply YearFromDay_unique. rewrite DayFromYear_succ, leapOf_days. lia. }
  assert (MonthFromDay d = m) as Hmo.
  { unfold MonthFromDay, DayWithinYear, InLeapYear. rewrite Hy.
    replace (d - DayFromYear y) with (daysBeforeMonth (leapOf y) m) by lia.
    assert (m = 0 \/ m = 1 \/ m = 2 \/ m = 3 \/ m = 4 \/ m = 5 \/ m = 6 \/ m = 7 \/
          m = 8 \/ m = 9 \/ m = 10 \/ m = 11) as H by lia.
    repeat (destruct H as [->|H]); try subst m; simpl;
    repeat match goal with |- context [?a <? ?b] => destruct (Z.ltb_spec a b); try lia end;
    lia. }
  split; [done|]. split; [done|].
  rewrite DateFromDay_first, Hy, Hmo. fold d. lia.
Qed.

Lemma YearFromDay_mono d d' : d <= d' -> YearFromDay d <= YearFromDay d'.
Proof.
  intros H. pose proof (YearFromDay_spec d) as S. pose proof (YearFromDay_spec d') as S'.
  destruct (Z.le_gt_cases (YearFromDay d) (YearFromDay d')) as [|Hgt]; [done|].
  assert (DayFromYear (YearFromDay d' + 1) <= DayFromYear (YearFromDay d)).
  { destruct (Z.eq_dec (YearFromDay d' + 1) (YearFromDay d)) as [->|N]; [lia|].
    pose proof (DayFromYear_mono (YearFromDay d' + 1) (YearFromDay d)). lia. }
  lia.
Qed.

End CalendarFacts.

(** ** [getPeriodRanges]: the windows tile the range *)

Section PeriodRanges.

Local Open Scope Z_scope.

Lemma WeekDay_range d : 0 <= WeekDay d < 7.
Proof. unfold WeekDay. apply Z.mod_pos_bound. lia. Qed.


(** The code's shift to Monday is the Monday on or before the day. *)
Lemma monday_shift d :
  d + (if WeekDay d =? 0 then -6 else 1 - WeekDay d) = mondayOnOrBefore d.
Proof.
  unfold mondayOnOrBefore. pose proof (WeekDay_range d) as R.
  destruct (Z.eqb_spec (WeekDay d) 0) as [E|N].
  - rewrite E. reflexivity.
  - replace ((WeekDay d + 6) mod 7) with (WeekDay d - 1); [lia|].
    replace (WeekDay d + 6) with (WeekDay d - 1 + 1 * 7) by lia.
    rewrite Z.mod_add by lia. rewrite Z.mod_small; lia.
Qed.

Lemma mondayOnOrBefore_spec d :
  WeekDay (mondayOnOrBefore d) = 1 /\ mondayOnOrBefore d <= d < mondayOnOrBefore d + 7.
Proof.
  unfold mondayOnOrBefore, WeekDay. Z.div_mod_to_equations. lia.
Qed.

Lemma weekLoop_past fuel current endDate :
  endDate < current -> weekLoop fuel current endDate = [].
Proof.
  intros H. destruct fuel; [done|]. cbn [weekLoop].
  destruct (Z.leb_spec current endDate); [lia|done].
Qed.


Lemma MakeDay_date y m date : MakeDay y m date = MakeDay y m 1 + date - 1.
Proof. unfold MakeDay. lia. Qed.

(** [startDate.setDate(endDate.getDate() - n)], both dates being today:
    [n] days back. *)
Lemma setDate_days_back d n :
  MakeDay (YearFromDay d) (MonthFromDay d) (DateFromDay d - n) = d - n.
Proof. rewrite MakeDay_date, DateFromDay_first. lia. Qed.

(** The month after that of [d] starts on a first of the month, 28 days
    after the first of the month of [d] at least. *)
Lemma next_month_first d :
  let next := MakeDay (YearFromDay d) (MonthFromDay d + 1) 1 in
  DateFromDay next = 1 /\
  MakeDay (YearFromDay d) (MonthFromDay d) 1 + 28 <= next.
Proof.
  intros next. pose proof (MonthFromDay_range d) as Hm.
  pose proof (leapOf_range (YearFromDay d)) as Hl.
  destruct (Z.eq_dec (MonthFromDay d) 11) as [E|N].
  - assert (next = MakeDay (YearFromDay d + 1) 0 1) as Hn.
    { unfold next. rewrite E. simpl (11 + 1). apply MakeDay_december. }
    split.
    + rewrite Hn. apply (first_of_month (YearFromDay d + 1) 0). lia.
    + rewrite Hn, E, !MakeDay_in_year by lia.
      rewrite DayFromYear_succ, leapOf_days. simpl. lia.
  - split.
    + apply (first_of_month (YearFromDay d) (MonthFromDay d + 1)). lia.
    + unfold next. rewrite !MakeDay_in_year by lia.
      pose proof (daysBeforeMonth_mono (leapOf (YearFromDay d)) (MonthFromDay d)). lia.
Qed.

Lemma monthLoop_past fuel current startDate endDate :
  endDate < current -> monthLoop fuel current startDate endDate = [].
Proof.
  intros H. destruct fuel; [done|]. cbn [monthLoop].
  destruct (Z.leb_spec current endDate); [lia|done].
Qed.


End PeriodRanges.

(** ** [getPeriodRanges] on time values

    In one time zone that keeps one offset, the dates of the script move
    as their days do. *)

Section OneZone.

Local Open Scope Z_scope.

Import JsDate.

Variable runtime timeZone : TimeZone.
Variable offset : Z.

Hypothesis runtime_offset : forall t, offsetAt runtime t = offset.
Hypothesis runtime_local_offset : forall tlocal, offsetOfLocal runtime tlocal = offset.
Hypothesis account_offset : forall t, offsetAt timeZone t = offset.

Lemma TimeWithinDay_range t : 0 <= TimeWithinDay t < msPerDay.
Proof. unfold TimeWithinDay. apply Z.mod_pos_bound. reflexivity. Qed.

Lemma Day_MakeDate day time : 0 <= time < msPerDay -> Day (MakeDate day time) = day.
Proof.
  intros H. unfold Day, MakeDate. rewrite Z.add_comm, Z.div_add by done.
  rewrite Z.div_small by done. reflexivity.
Qed.

Lemma TimeWithinDay_MakeDate day time :
  0 <= time < msPerDay -> TimeWithinDay (MakeDate day time) = time.
Proof.
  intros H. unfold TimeWithinDay, MakeDate. rewrite Z.add_comm, Z.mod_add by done.
  by apply Z.mod_small.
Qed.

Lemma MakeDate_Day t : MakeDate (Day t) (TimeWithinDay t) = t.
Proof.
  unfold MakeDate, Day, TimeWithinDay. pose proof (Z.div_mod t msPerDay ltac:(done)). lia.
Qed.

(** A date is its local day and its local time of day. *)
Lemma date_local t :
  t = MakeDate (Day (t + offset)) (TimeWithinDay (t + offset)) - offset.
Proof. rewrite MakeDate_Day. lia. Qed.

Lemma LocalTime_at day time :
  LocalTime runtime (MakeDate day time - offset) = MakeDate day time.
Proof. unfold LocalTime. rewrite runtime_offset. lia. Qed.

Lemma UTC_at tlocal : UTC runtime tlocal = tlocal - offset.
Proof. unfold UTC. by rewrite runtime_local_offset. Qed.

Lemma getDate_at day time : 0 <= time < msPerDay ->
  getDate runtime (MakeDate day time - offset) = DateFromDay day.
Proof. intros H. unfold getDate. by rewrite LocalTime_at, Day_MakeDate. Qed.

Lemma getDay_at day time : 0 <= time < msPerDay ->
  getDay runtime (MakeDate day time - offset) = WeekDay day.
Proof. intros H. unfold getDay. by rewrite LocalTime_at, Day_MakeDate. Qed.

Lemma getMonth_at day time : 0 <= time < msPerDay ->
  getMonth runtime (MakeDate day time - offset) = MonthFromDay day.
Proof. intros H. unfold getMonth. by rewrite LocalTime_at, Day_MakeDate. Qed.

Lemma getFullYear_at day time : 0 <= time < msPerDay ->
  getFullYear runtime (MakeDate day time - offset) = YearFromDay day.
Proof. intros H. unfold getFullYear. by rewrite LocalTime_at, Day_MakeDate. Qed.

(** [d.setDate(d.getDate() + n)] moves [d] by [n] days and keeps its local
    time of day. *)
Lemma setDate_at day time date : 0 <= time < msPerDay ->
  setDate runtime (MakeDate day time - offset) date
  = MakeDate (day - DateFromDay day + date) time - offset.
Proof.
  intros H. unfold setDate. cbv zeta.
  rewrite LocalTime_at, Day_MakeDate, TimeWithinDay_MakeDate, UTC_at by done.
  rewrite MakeDay_date, (DateFromDay_first day). f_equal. f_equal. lia.
Qed.

Lemma setDate_days day time n : 0 <= time < msPerDay ->
  setDate runtime (MakeDate day time - offset)
    (getDate runtime (MakeDate day time - offset) + n)
  = MakeDate (day + n) time - offset.
Proof.
  intros H. rewrite getDate_at, setDate_at by done. f_equal. f_equal. lia.
Qed.

Lemma setMonth_at day month : 
  setMonth runtime (MakeDate day 0 - offset) month
  = MakeDate (MakeDay (YearFromDay day) month (DateFromDay day)) 0 - offset.
Proof.
  unfold setMonth. cbv zeta.
  by rewrite LocalTime_at, Day_MakeDate, TimeWithinDay_MakeDate, UTC_at.
Qed.

Lemma newDate_at year month date : 100 <= year ->
  newDate runtime year month date = MakeDate (MakeDay year month date) 0 - offset.
Proof.
  intros H. unfold newDate.
  replace (year <=? 99) with false by (symmetry; apply Z.leb_gt; lia).
  rewrite andb_false_r. apply UTC_at.
Qed.

Lemma formatDate_at format day time : 0 <= time < msPerDay ->
  formatDate timeZone format (MakeDate day time - offset) = format day.
Proof.
  intros H. unfold formatDate. rewrite account_offset.
  replace (MakeDate day time - offset + offset) with (MakeDate day time) by lia.
  by rewrite Day_MakeDate.
Qed.

(** Two dates compare as their days when the time of day of the first is
    not later than that of the second. *)
Lemma leb_dates d1 t1 d2 t2 : 0 <= t1 < msPerDay -> 0 <= t2 < msPerDay -> t1 <= t2 ->
  (MakeDate d1 t1 - offset <=? MakeDate d2 t2 - offset) = (d1 <=? d2).
Proof.
  intros H1 H2 H. unfold MakeDate, msPerDay in *.
  destruct (Z.leb_spec d1 d2); [apply Z.leb_le|apply Z.leb_gt]; lia.
Qed.

Lemma gtb_dates d1 t1 d2 t2 : 0 <= t1 < msPerDay -> 0 <= t2 < msPerDay -> t1 <= t2 ->
  (MakeDate d1 t1 - offset >? MakeDate d2 t2 - offset) = (d1 >? d2).
Proof.
  intros H1 H2 H. unfold MakeDate, msPerDay in *. rewrite !Z.gtb_ltb.
  destruct (Z.ltb_spec d2 d1); [apply Z.ltb_lt|apply Z.ltb_ge]; lia.
Qed.

(** The day-level loops do not depend on fuel they do not use. *)
Lemma weekLoop_fuel fuel : forall fuel' current endDate,
  (Z.to_nat (endDate - current + 1) <= fuel)%nat ->
  (Z.to_nat (endDate - current + 1) <= fuel')%nat ->
  weekLoop fuel current endDate = weekLoop fuel' current endDate.
Proof.
  induction fuel as [|fuel IH]; intros fuel' current endDate H H'.
  - rewrite (weekLoop_past fuel') by lia. reflexivity.
  - destruct fuel' as [|fuel'].
    + rewrite (weekLoop_past (S fuel)) by lia. reflexivity.
    + cbn [weekLoop]. destruct (Z.leb_spec current endDate); [|done].
      f_equal. apply IH; lia.
Qed.

Lemma next_month_later d :
  d + 28 <= MakeDay (YearFromDay d) (MonthFromDay d + 1) (DateFromDay d).
Proof.
  pose proof (next_month_first d) as [_ H]. cbv zeta in H.
  rewrite MakeDay_date. pose proof (DateFromDay_first d). lia.
Qed.

Lemma monthLoop_fuel fuel : forall fuel' current startDate endDate,
  (Z.to_nat (endDate - current + 1) <= fuel)%nat ->
  (Z.to_nat (endDate - current + 1) <= fuel')%nat ->
  monthLoop fuel current startDate endDate = monthLoop fuel' current startDate endDate.
Proof.
  induction fuel as [|fuel IH]; intros fuel' current startDate endDate H H'.
  - rewrite (monthLoop_past fuel') by lia. reflexivity.
  - destruct fuel' as [|fuel'].
    + rewrite (monthLoop_past (S fuel)) by lia. reflexivity.
    + cbn [monthLoop]. destruct (Z.leb_spec current endDate); [|done].
      pose proof (next_month_later current).
      f_equal. apply IH; lia.
Qed.

(** The weekly loop on dates is the weekly loop on their days. *)
Lemma weekLoop_days fuel : forall current lastDay time endTime,
  0 <= time < msPerDay -> 0 <= endTime < msPerDay -> time <= endTime ->
  (Z.to_nat (lastDay - current + 1) < fuel)%nat ->
  Instants.weekLoop runtime timeZone fuel
    (MakeDate current time - offset) (MakeDate lastDay endTime - offset)
  = Some (map (formatWindow Week)
            (weekLoop (Z.to_nat (lastDay - current + 1)) current lastDay)).
Proof.
  induction fuel as [|fuel IH]; intros current lastDay time endTime Ht He Hle Hfuel; [lia|].
  cbn [Instants.weekLoop]. rewrite leb_dates by done.
  destruct (Z.leb_spec current lastDay) as [Hin|Hout].
  - rewrite !setDate_days by done. rewrite gtb_dates by done.
    rewrite (IH (current + 7)) by (try done; lia).
    replace (Z.to_nat (lastDay - current + 1)) with (S (Z.to_nat (lastDay - current))) by lia.
    cbn [weekLoop]. destruct (Z.leb_spec current lastDay) as [_|]; [|lia].
    cbn [fmap option_fmap option_map map]. f_equal. f_equal.
    + unfold formatWindow. cbn [keyDay startDay endDay].
      rewrite !formatDate_at by done. f_equal.
      destruct (current + 6 >? lastDay); by rewrite formatDate_at.
    + f_equal. apply weekLoop_fuel; lia.
  - replace (Z.to_nat (lastDay - current + 1)) with O by lia. reflexivity.
Qed.

(** The monthly loop on dates is the monthly loop on their days. *)
Lemma monthLoop_days fuel : forall current firstDay startTime lastDay endTime,
  0 <= startTime < msPerDay -> 0 <= endTime < msPerDay ->
  100 <= YearFromDay current ->
  (Z.to_nat (lastDay - current + 1) < fuel)%nat ->
  Instants.monthLoop runtime timeZone fuel (MakeDate current 0 - offset)
    (MakeDate firstDay startTime - offset) (MakeDate lastDay endTime - offset)
  = Some (map (formatWindow Month)
            (monthLoop (Z.to_nat (lastDay - current + 1)) current firstDay lastDay)).
Proof.
  assert (0 <= 0 < msPerDay) as H0 by done.
  induction fuel as [|fuel IH];
    intros current firstDay startTime lastDay endTime Hs He Hy Hfuel; [lia|].
  cbn [Instants.monthLoop].
  rewrite leb_dates by (try done; lia).
  destruct (Z.leb_spec current lastDay) as [Hin|Hout].
  - pose proof (next_month_later current) as Hnext.
    rewrite getFullYear_at, getMonth_at, newDate_at, setMonth_at by done.
    rewrite gtb_dates by (try done; lia).
    assert (100 <= YearFromDay (MakeDay (YearFromDay current) (MonthFromDay current + 1)
                                  (DateFromDay current))) as Hy'.
    { etrans; [exact Hy|]. apply YearFromDay_mono. lia. }
    rewrite (IH _ firstDay startTime lastDay endTime Hs He Hy') by lia.
    replace (Z.to_nat (lastDay - current + 1)) with (S (Z.to_nat (lastDay - current))) by lia.
    cbn [monthLoop]. destruct (Z.leb_spec current lastDay) as [_|]; [|lia].
    cbn [fmap option_fmap option_map map]. f_equal. f_equal.
    + unfold formatWindow. cbn [keyDay startDay endDay].
      rewrite formatDate_at by done. f_equal.
      * destruct (Z.ltb_spec current firstDay) as [Hlt|Hge].
        -- replace (MakeDate current 0 - offset <? MakeDate firstDay startTime - offset)
             with true; [by rewrite formatDate_at|].
           symmetry. apply Z.ltb_lt. unfold MakeDate, msPerDay in *. lia.
        -- destruct (MakeDate current 0 - offset <? MakeDate firstDay startTime - offset)
             eqn:E; rewrite formatDate_at by done; [|done].
           apply Z.ltb_lt in E. f_equal. unfold MakeDate, msPerDay in *. lia.
      * destruct (_ >? lastDay); by rewrite formatDate_at.
    + f_equal. apply monthLoop_fuel; lia.
  - replace (Z.to_nat (lastDay - current + 1)) with O by lia. reflexivity.
Qed.

(** [getPeriodRanges] on dates is [getPeriodRanges] on the local days of
    [startDate] and [endDate]. *)
Lemma getPeriodRanges_days (cfg : Config) (clock : Z * Z) (fuel : nat) :
  let startDate := fst (Instants.dateRange runtime cfg clock) in
  let endDate := snd (Instants.dateRange runtime cfg clock) in
  let firstDay := Day (startDate + offset) in
  let lastDay := Day (endDate + offset) in
  (TIME_GRANULARITY cfg = Week ->
   TimeWithinDay (startDate + offset) <= TimeWithinDay (endDate + offset)) ->
  (TIME_GRANULARITY cfg = Month -> 100 <= YearFromDay firstDay) ->
  (Z.to_nat (lastDay - firstDay) + 40 <= fuel)%nat ->
  Instants.getPeriodRanges runtime timeZone cfg clock fuel
  = Some (getPeriodRanges (TIME_GRANULARITY cfg) firstDay lastDay).
Proof.
  intros startDate endDate firstDay lastDay Htime Hyear Hfuel.
  pose proof (TimeWithinDay_range (startDate + offset)) as Hs.
  pose proof (TimeWithinDay_range (endDate + offset)) as He.
  unfold Instants.getPeriodRanges. fold startDate endDate.
  rewrite (date_local startDate), (date_local endDate). fold firstDay lastDay.
  unfold getPeriodRanges, periodWindows.
  destruct (TIME_GRANULARITY cfg).
  - rewrite getFullYear_at, getMonth_at, newDate_at by auto.
    pose proof (month_of_day firstDay) as Hm. pose proof (next_month_first firstDay) as [_ Hn].
    cbv zeta in Hn.
    pose proof (MonthFromDay_range firstDay) as Hr.
    destruct (first_of_month (YearFromDay firstDay) (MonthFromDay firstDay) Hr) as (Hy & _).
    assert (MakeDay (YearFromDay firstDay) (MonthFromDay firstDay + 1) 1
            <= MakeDay (YearFromDay firstDay) (MonthFromDay firstDay) 1 + 31) as Hlen.
    { destruct (Z.eq_dec (MonthFromDay firstDay) 11) as [E|N].
      - rewrite E. simpl (11 + 1). rewrite MakeDay_december, !MakeDay_in_year by lia.
        rewrite DayFromYear_succ, leapOf_days. simpl. lia.
      - rewrite !MakeDay_in_year by lia.
        pose proof (leapOf_range (YearFromDay firstDay)).
        assert (MonthFromDay firstDay = 0 \/ MonthFromDay firstDay = 1 \/
                MonthFromDay firstDay = 2 \/ MonthFromDay firstDay = 3 \/
                MonthFromDay firstDay = 4 \/ MonthFromDay firstDay = 5 \/
                MonthFromDay firstDay = 6 \/ MonthFromDay firstDay = 7 \/
                MonthFromDay firstDay = 8 \/ MonthFromDay firstDay = 9 \/
                MonthFromDay firstDay = 10) as Hcases by lia.
        repeat (destruct Hcases as [->|Hcases]); try rewrite Hcases; simpl; lia. }
    apply monthLoop_days; try done.
    + rewrite Hy. auto.
    + lia.
  - rewrite getDay_at by done. rewrite setDate_days by done.
    pose proof (monday_shift firstDay) as Hmon.
    pose proof (mondayOnOrBefore_spec firstDay) as [_ Hrange].
    apply weekLoop_days; try done; [auto|]. cbv zeta. lia.
Qed.

(** In one zone east of Greenwich, or on it, and with a clock that gives
    the same time to both [new Date()], the dates of the script fall on the
    days of [dateRange], the start at a time of day that is not later than
    that of the end. *)
Lemma dateRange_days (cfg : Config) (world : World) (clock : Z * Z) :
  0 <= offset < msPerDay ->
  fst clock = snd clock ->
  Day (fst clock + offset) = today world ->
  let startDate := fst (Instants.dateRange runtime cfg clock) in
  let endDate := snd (Instants.dateRange runtime cfg clock) in
  Day (startDate + offset) = fst (dateRange cfg world) /\
  Day (endDate + offset) = snd (dateRange cfg world) /\
  TimeWithinDay (startDate + offset) <= TimeWithinDay (endDate + offset).
Proof.
  intros Hoff Hclock Htoday. unfold Instants.dateRange, dateRange.
  assert (forall day, Day (parseDate day + offset) = day /\
                      TimeWithinDay (parseDate day + offset) = offset) as Hparse.
  { intros day. unfold parseDate.
    replace (MakeDate day 0 + offset) with (MakeDate day offset) by (unfold MakeDate; lia).
    by rewrite Day_MakeDate, TimeWithinDay_MakeDate. }
  assert (let endDate := fst clock in
          let startDate := setDate runtime (snd clock) (getDate runtime endDate - LOOKBACK_DAYS cfg) in
          Day (startDate + offset)
          = MakeDay (YearFromDay (today world)) (MonthFromDay (today world))
              (DateFromDay (today world) - LOOKBACK_DAYS cfg) /\
          Day (endDate + offset) = today world /\
          TimeWithinDay (startDate + offset) <= TimeWithinDay (endDate + offset)) as Hback.
  { cbv zeta. rewrite <- Hclock.
    pose proof (TimeWithinDay_range (fst clock + offset)) as Ht.
    pose proof (date_local (fst clock)) as E. rewrite Htoday in E.
    set (time := TimeWithinDay (fst clock + offset)) in *.
    rewrite E.
    rewrite getDate_at, setDate_at by done.
    replace (MakeDate (today world - DateFromDay (today world)
                         + (DateFromDay (today world) - LOOKBACK_DAYS cfg)) time
               - offset + offset)
      with (MakeDate (today world - LOOKBACK_DAYS cfg) time) by (unfold MakeDate; lia).
    replace (MakeDate (today world) time - offset + offset)
      with (MakeDate (today world) time) by lia.
    rewrite !Day_MakeDate, !TimeWithinDay_MakeDate by done.
    rewrite setDate_days_back. done. }
  destruct (START_DATE cfg) as [s|], (END_DATE cfg) as [e|]; cbn [fst snd]; try exact Hback.
  destruct (Hparse s) as [-> ->], (Hparse e) as [-> ->]. done.
Qed.

(** There the category source of the run, which counts in days, has the
    periods of the script. *)
Lemma getPeriodRanges_of_the_run (cfg : Config) (world : World) (clock : Z * Z) (fuel : nat) :
  0 <= offset < msPerDay ->
  fst clock = snd clock ->
  Day (fst clock + offset) = today world ->
  (TIME_GRANULARITY cfg = Month -> 100 <= YearFromDay (fst (dateRange cfg world))) ->
  (Z.to_nat (snd (dateRange cfg world) - fst (dateRange cfg world)) + 40 <= fuel)%nat ->
  Instants.getPeriodRanges runtime timeZone cfg clock fuel
  = Some (getPeriodRanges (TIME_GRANULARITY cfg)
            (fst (dateRange cfg world)) (snd (dateRange cfg world))).
Proof.
  intros Hoff Hclock Htoday Hyear Hfuel.
  destruct (dateRange_days cfg world clock Hoff Hclock Htoday) as (Hs & He & Ht).
  rewrite <- Hs in Hyear. rewrite <- Hs, <- He in Hfuel. rewrite <- Hs, <- He.
  apply getPeriodRanges_days; auto.
Qed.

End OneZone.




Example monthly_periods :
  Instants.getPeriodRanges JsDate.utc JsDate.utc
    (rangeConfig (Some (MakeDay 2024 0 15)) (Some (MakeDay 2024 2 10)) 90 Month) (0, 0)%Z 100
  = Some [mkPeriod "2024-01" "2024-01-15" "2024-01-31";
          mkPeriod "2024-02" "2024-02-01" "2024-02-29";
          mkPeriod "2024-03" "2024-03-01" "2024-03-10"] /\
  getPeriodRanges Month (MakeDay 2024 0 15) (MakeDay 2024 2 10)
  = [mkPeriod "2024-01" "2024-01-15" "2024-01-31";
     mkPeriod "2024-02" "2024-02-01" "2024-02-29";
     mkPeriod "2024-03" "2024-03-01" "2024-03-10"].
Proof. vm_compute. split; reflexivity. Qed.

Example weekly_periods :
  WeekDay (MakeDay 2024 0 10) = 3%Z /\
  getPeriodRanges Week (MakeDay 2024 0 10) (MakeDay 2024 0 20)
  = [mkPeriod "2024-01-08" "2024-01-08" "2024-01-14";
     mkPeriod "2024-01-15" "2024-01-15" "2024-01-20"].
Proof. vm_compute. split; reflexivity. Qed.

(** The lookback of the script, read at 2024-04-10T12:00:00Z in UTC: 90
    days back, in months. *)
Example lookback_periods :
  Instants.getPeriodRanges JsDate.utc JsDate.utc scriptConfig
    (JsDate.MakeDate (MakeDay 2024 3 10) (12 * JsDate.msPerHour),
     JsDate.MakeDate (MakeDay 2024 3 10) (12 * JsDate.msPerHour))%Z 200
  = Some [mkPeriod "2024-01" "2024-01-11" "2024-01-31";
          mkPeriod "2024-02" "2024-02-01" "2024-02-29";
          mkPeriod "2024-03" "2024-03-01" "2024-03-31";
          mkPeriod "2024-04" "2024-04-01" "2024-04-10"].
Proof. vm_compute. reflexivity. Qed.

(** Outside the conditions of C3 the windows need not reach [endDate].
    In Los Angeles, from '2024-10-29' to '2024-11-05' by weeks: the dates
    are Monday 28 October, 17:00, and Monday 4 November, 16:00, summer
    time having ended in between, and the week of 4 November is missing. *)
Example week_lost_when_summer_time_ends :
  let cfg := rangeConfig (Some (MakeDay 2024 9 29)) (Some (MakeDay 2024 10 5)) 90 Week in
  JsDate.formatDate JsDate.losAngeles2024 formatDay
    (snd (Instants.dateRange JsDate.losAngeles2024 cfg (0, 0)%Z)) = "2024-11-04" /\
  Instants.getPeriodRanges JsDate.losAngeles2024 JsDate.losAngeles2024 cfg (0, 0)%Z 100
  = Some [mkPeriod "2024-10-28" "2024-10-28" "2024-11-03"].
Proof. vm_compute. split; reflexivity. Qed.

(** A lookback on a Monday, the clock moving on by a millisecond between
    the two [new Date()]: the week of that Monday is missing. *)
Example week_lost_when_the_clock_ticks :
  WeekDay (MakeDay 2024 0 15) = 1%Z /\
  Instants.getPeriodRanges JsDate.utc JsDate.utc (rangeConfig None None 7 Week)
    (JsDate.MakeDate (MakeDay 2024 0 15) 1000, JsDate.MakeDate (MakeDay 2024 0 15) 1001)%Z 100
  = Some [mkPeriod "2024-01-08" "2024-01-08" "2024-01-14"] /\
  Instants.getPeriodRanges JsDate.utc JsDate.utc (rangeConfig None None 7 Week)
    (JsDate.MakeDate (MakeDay 2024 0 15) 1000, JsDate.MakeDate (MakeDay 2024 0 15) 1000)%Z 100
  = Some [mkPeriod "2024-01-08" "2024-01-08" "2024-01-14";
          mkPeriod "2024-01-15" "2024-01-15" "2024-01-15"].
Proof. vm_compute. repeat split; reflexivity. Qed.

(** A runtime in Los Angeles and an account one hour east of Greenwich:
    the weekly keys are Tuesdays. *)
Example weeks_keyed_by_tuesdays :
  WeekDay (MakeDay 2024 0 9) = 2%Z /\
  Instants.getPeriodRanges JsDate.losAngeles2024 (JsDate.fixedZone JsDate.msPerHour)
    (rangeConfig (Some (MakeDay 2024 0 10)) (Some (MakeDay 2024 0 20)) 90 Week) (0, 0)%Z 100
  = Some [mkPeriod "2024-01-09" "2024-01-09" "2024-01-15";
          mkPeriod "2024-01-16" "2024-01-16" "2024-01-20"].
Proof. vm_compute. split; reflexivity. Qed.

(** A range in the year 50, by months: [new Date(50, 0, 1)] is in 1950 and
    there is no window. *)
Example no_month_in_the_year_50 :
  Instants.getPeriodRanges JsDate.utc JsDate.utc
    (rangeConfig (Some (MakeDay 50 0 10)) (Some (MakeDay 50 2 20)) 90 Month) (0, 0)%Z 100
  = Some [].
Proof. vm_compute. reflexivity. Qed.


(** ** Merges and the [blank] component *)

Section BlankFrame.

Context {num : Type} (zero : num) (add : num -> num -> num).

Lemma mergeTotals_blank (target source : Bucket num) :
  blank (mergeTotals add target source) = blank target.
Proof. reflexivity. Qed.

Lemma mergeTotals_source_blank (target source : Bucket num) o :
  mergeTotals add target (withBlank o source) = mergeTotals add target source.
Proof. reflexivity. Qed.

Lemma mergePeriodData_blank (target source : gmap string (Bucket num)) key :
  (mergePeriodData zero add target source !! key) ≫= blank = (target !! key) ≫= blank.
Proof.
  rewrite lookup_mergePeriodData.
  destruct (source !! key) as [sb|]; [|done].
  by destruct (target !! key).
Qed.

Lemma mergePeriodData_source_blank (target source : gmap string (Bucket num))
    (o : Bucket num -> option (Metrics num)) :
  mergePeriodData zero add target ((fun b => withBlank (o b) b) <$> source)
  = mergePeriodData zero add target source.
Proof.
  apply map_eq; intros key.
  rewrite !lookup_mergePeriodData, lookup_fmap.
  by destruct (source !! key).
Qed.

End BlankFrame.

Lemma combinedView_no_blank (searchData shoppingData pmaxData : ChannelResult float) :
  blank (totals (combinedView searchData shoppingData pmaxData)) = None /\
  forall key, (periodData (combinedView searchData shoppingData pmaxData) !! key) ≫= blank = None.
Proof.
  split; [reflexivity|]. intros key. unfold combinedView; simpl.
  rewrite !mergePeriodData_blank. by rewrite lookup_empty.
Qed.

(** C10: the merges read and write [branded] and [nonBranded] only.  The
    [blank] of the target is kept as it is, the [blank] of a source bucket
    changes nothing, and the combined view of [main], built by merging the
    three search-term results into buckets without [blank], has no [blank]
    anywhere. *)
Theorem merges_leave_blank_alone {num : Type} (zero : num) (add : num -> num -> num)
    (target source : Bucket num) (targetData sourceData : gmap string (Bucket num))
    (searchData shoppingData pmaxData : ChannelResult float) :
  blank (mergeTotals add target source) = blank target /\
  (forall o, mergeTotals add target (withBlank o source) = mergeTotals add target source) /\
  (forall key, (mergePeriodData zero add targetData sourceData !! key) ≫= blank
               = (targetData !! key) ≫= blank) /\
  (forall o : Bucket num -> option (Metrics num),
     mergePeriodData zero add targetData ((fun b => withBlank (o b) b) <$> sourceData)
     = mergePeriodData zero add targetData sourceData) /\
  blank (totals (combinedView searchData shoppingData pmaxData)) = None /\
  (forall key, (periodData (combinedView searchData shoppingData pmaxData) !! key) ≫= blank = None).
Proof.
  split; [apply mergeTotals_blank|].
  split; [intros o; apply mergeTotals_source_blank|].
  split; [intros key; apply mergePeriodData_blank|].
  split; [intros o; apply mergePeriodData_source_blank|].
  apply combinedView_no_blank.
Qed.

Example category_result_is_not_merged :
  let categories : ChannelResult float :=
    (mkResult (mkBucket (mkMetrics 1 1 0 1 1) (mkMetrics 2 2 0 2 2) (Some (mkMetrics 3 3 0 3 3)))
              {[ "2024-01" := mkBucket (mkMetrics 1 1 0 1 1) (mkMetrics 2 2 0 2 2)
                                       (Some (mkMetrics 3 3 0 3 3)) ]})%float in
  mergeResults jsZero jsAdd (emptyResult jsZero) categories
  = (mkResult (mkBucket (mkMetrics 1 1 0 1 1) (mkMetrics 2 2 0 2 2) None)
              {[ "2024-01" := mkBucket (mkMetrics 1 1 0 1 1) (mkMetrics 2 2 0 2 2) None ]})%float.
Proof. vm_compute. reflexivity. Qed.

(** ** The run: queries first, the spreadsheet last *)

Section RunFacts.

Variable cfg : Config.
Variable world : World.
Variable BRAND_PATTERNS : list RegExp.

Lemma fetchesOnly_ret {A : Type} (a : A) : fetchesOnly (ret a).
Proof. split; [constructor|by exists a]. Qed.

Lemma fetchesOnly_bind {A B : Type} (m : M A) (k : A -> M B) :
  fetchesOnly m -> (forall a, fetchesOnly (k a)) -> fetchesOnly (bind m k).
Proof.
  destruct m as [t [e|a]]; intros [Ht [a' Ha]] Hk; simpl in *; [discriminate|].
  destruct (Hk a) as [Ht' [b Hb]]. destruct (k a) as [t' r]; simpl in *.
  split; [by apply Forall_app|by exists b].
Qed.

Lemma fetchesOnly_search q rows : fetchesOnly (search q rows).
Proof. split; [by repeat constructor|by exists rows]. Qed.

Lemma fetchesOnly_foldM {A S : Type} (f : S -> A -> M S) (l : list A) :
  (forall s x, fetchesOnly (f s x)) -> forall s, fetchesOnly (foldM f l s).
Proof.
  intros Hf. induction l as [|x l IH]; intros s; simpl.
  - apply fetchesOnly_ret.
  - apply fetchesOnly_bind; [apply Hf|apply IH].
Qed.

Lemma fetchesOnly_insight : fetchesOnly (processCampaignSearchTermInsight cfg world BRAND_PATTERNS).
Proof.
  unfold processCampaignSearchTermInsight.
  apply fetchesOnly_bind; [apply fetchesOnly_search|]. intros rows.
  destruct (length (campaignIdsOf rows) =? 0)%nat; [apply fetchesOnly_ret|].
  apply fetchesOnly_foldM. intros st period.
  apply fetchesOnly_foldM. intros st' campaignId.
  unfold insightSubQuery.
  apply fetchesOnly_bind; [|intros; apply fetchesOnly_ret].
  split; [by repeat constructor|by exists tt].
Qed.

Lemma fetchesOnly_categories : fetchesOnly (fetchCategories cfg world BRAND_PATTERNS).
Proof.
  unfold fetchCategories. destruct (INCLUDE_PMAX_CATEGORIES cfg).
  - apply fetchesOnly_bind; [apply fetchesOnly_insight|intros; apply fetchesOnly_ret].
  - apply fetchesOnly_ret.
Qed.

Lemma fetchCategories_disabled :
  INCLUDE_PMAX_CATEGORIES cfg = false ->
  fetchCategories cfg world BRAND_PATTERNS = ret None.
Proof. intros H. unfold fetchCategories. by rewrite H. Qed.

Lemma fetchSearchTerms_trace :
  exists fetched, fetchSearchTerms cfg world BRAND_PATTERNS = (searchTermQueries, inr fetched).
Proof. eexists. reflexivity. Qed.

End RunFacts.

Example sheet_ids :
  getSheetId (SHEET_URL scriptConfig) = inr "1ysIP5kMNCuBI5uVzf6V-Xw6knCCSGMCEXw1B5i8zURY" /\
  getSheetId "abc123" = inr "abc123" /\
  getSheetId "" = inr "".
Proof. repeat split; vm_compute; reflexivity. Qed.

(** ** The category source *)

Section CategoryFacts.

Variable StringToNumber : string -> float.
Variable BRAND_PATTERNS : list RegExp.

Lemma addRowWithBlank_Some (pd : gmap string (Bucket float)) key category m pd' :
  addRowToPeriodDataWithBlank jsZero jsAdd pd key category m = Some pd' ->
  exists b',
    updateCategory (fun target => addMetrics jsAdd target m)
      (default (emptyPeriodDataWithBlank jsZero) (pd !! key)) category = Some b' /\
    pd' = <[key := b']> pd.
Proof.
  unfold addRowToPeriodDataWithBlank. intros H.
  destruct (pd !! key) as [b|]; simpl;
    destruct (updateCategory _ _ category) as [b'|]; try discriminate;
    injection H as <-; by exists b'.
Qed.


Lemma insightRowMetrics_cost (row : Row) :
  cost (insightRowMetrics StringToNumber row) = 0%float.
Proof. reflexivity. Qed.





Lemma updateCategory_hasBlank f (b : Bucket float) category b' :
  is_Some (blank b) -> updateCategory f b category = Some b' -> is_Some (blank b').
Proof.
  intros [m Hm] Hu. destruct category; simpl in Hu.
  - injection Hu as <-. by exists m.
  - injection Hu as <-. by exists m.
  - rewrite Hm in Hu. injection Hu as <-. by eexists.
Qed.

Lemma insightRows_hasBlank periodKey (rows : list Row) : forall st,
  resultHasBlank st ->
  resultHasBlank (insightRows StringToNumber BRAND_PATTERNS periodKey rows st).
Proof.
  induction rows as [|row rest IH]; intros st Hst; simpl; [done|].
  destruct Hst as [Ht Hp].
  destruct (updateCategory _ (totals st) (categoryOf BRAND_PATTERNS row)) as [totals'|] eqn:Eu;
    [|by split].
  assert (is_Some (blank totals')) as Ht' by (by eapply updateCategory_hasBlank).
  destruct (addRowToPeriodDataWithBlank _ _ _ _ _ _) as [pd'|] eqn:Ea; [|by split].
  apply addRowWithBlank_Some in Ea as (b' & Hb' & ->).
  apply IH. split; [done|]. simpl. intros key b.
  destruct (decide (periodKey = key)) as [<-|Hne].
  - rewrite lookup_insert_eq. intros [= <-].
    eapply updateCategory_hasBlank; [|exact Hb'].
    destruct (periodData st !! periodKey) as [b0|] eqn:E; [by eapply Hp|by eexists].
  - rewrite lookup_insert_ne by done. apply Hp.
Qed.

(** When every bucket has a [blank] property, as from [insightStart] on,
    no row raises the [TypeError]: the loop reads all its rows. *)
Lemma insightRows_app periodKey (rows rows' : list Row) : forall st,
  resultHasBlank st ->
  insightRows StringToNumber BRAND_PATTERNS periodKey (rows ++ rows') st
  = insightRows StringToNumber BRAND_PATTERNS periodKey rows'
      (insightRows StringToNumber BRAND_PATTERNS periodKey rows st).
Proof.
  induction rows as [|row rest IH]; intros st Hst; [done|].
  pose proof (insightRows_hasBlank periodKey [row] st Hst) as Hone.
  simpl in *.
  destruct Hst as [[tb Ht] Hp].
  destruct (updateCategory _ (totals st) (categoryOf BRAND_PATTERNS row)) as [totals'|] eqn:Eu.
  - destruct (addRowToPeriodDataWithBlank _ _ _ _ _ _) as [pd'|] eqn:Ea.
    + by apply IH.
    + exfalso. unfold addRowToPeriodDataWithBlank in Ea.
      assert (is_Some (blank match periodData st !! periodKey with
                             | Some b => b
                             | None => emptyPeriodDataWithBlank jsZero
                             end)) as [m Hm].
      { destruct (periodData st !! periodKey) as [b0|] eqn:E; [by eapply Hp|by eexists]. }
      destruct (categoryOf BRAND_PATTERNS row); simpl in Ea; try discriminate.
      by rewrite Hm in Ea.
  - exfalso. destruct (categoryOf BRAND_PATTERNS row); simpl in Eu; try discriminate.
    by rewrite Ht in Eu.
Qed.

Lemma insightStart_hasBlank : resultHasBlank insightStart.
Proof.
  split; [by eexists|]. intros key b Hb.
  unfold insightStart in Hb. cbn [periodData] in Hb. by rewrite lookup_empty in Hb.
Qed.


End CategoryFacts.





Example category_examples :
  categoryOf foodsistersPatterns (categoryRow (Some "") 1 1 1 1) = CBlank /\
  categoryOf foodsistersPatterns (categoryRow (Some "   ") 1 1 1 1) = CBlank /\
  categoryOf foodsistersPatterns (categoryRow None 1 1 1 1) = CBlank /\
  categoryOf foodsistersPatterns (categoryRow (Some "foodsisters gift") 1 1 1 1) = CBranded /\
  categoryOf foodsistersPatterns (categoryRow (Some "running shoes") 1 1 1 1) = CNonBranded.
Proof. repeat split; vm_compute; reflexivity. Qed.

Example blank_category_row_in_totals_and_period :
  let st := insightRows noNumericStrings foodsistersPatterns "2024-01"
              [categoryRow (Some "  ") 7 3 1 9; categoryRow (Some "running shoes") 5 2 0 0]
              insightStart in
  totals st = (mkBucket (mkMetrics 0 0 0 0 0) (mkMetrics 5 2 0 0 0)
                        (Some (mkMetrics 7 3 0 1 9)))%float /\
  periodData st !! "2024-01"
  = Some (mkBucket (mkMetrics 0 0 0 0 0) (mkMetrics 5 2 0 0 0)
                   (Some (mkMetrics 7 3 0 1 9)))%float.
Proof. vm_compute. split; reflexivity. Qed.

(** ** Derived ratios and the tables that show them *)

Lemma elem_of_insertKey (k x : string) (l : list string) :
  x ∈ insertKey k l <-> x = k \/ x ∈ l.
Proof.
  induction l as [|h t IH]; simpl.
  - rewrite list_elem_of_singleton, elem_of_nil. tauto.
  - destruct (String.leb k h).
    + by rewrite elem_of_cons.
    + rewrite !elem_of_cons, IH. tauto.
Qed.

Lemma elem_of_sortedKeys {A : Type} (pd : gmap string A) (k : string) :
  k ∈ sortedKeys pd <-> is_Some (pd !! k).
Proof.
  unfold sortedKeys.
  assert (forall l : list string, k ∈ foldr insertKey [] l <-> k ∈ l) as Hfold.
  { induction l as [|h t IH]; simpl; [done|].
    rewrite elem_of_insertKey, elem_of_cons, IH. tauto. }
  rewrite Hfold, list_elem_of_fmap. split.
  - intros [[k' v] [-> Hin]]. apply elem_of_map_to_list in Hin. by exists v.
  - intros [v Hv]. exists (k, v). split; [done|]. by apply elem_of_map_to_list.
Qed.

Lemma forEachPeriod_elem {A : Type} (pd : gmap string (Bucket float))
    (f : string -> Bucket float -> list A) key p x :
  pd !! key = Some p -> x ∈ f key p -> x ∈ forEachPeriod pd f.
Proof.
  intros Hp Hx. unfold forEachPeriod.
  apply list_elem_of_In, in_flat_map. exists key. split.
  - apply list_elem_of_In, elem_of_sortedKeys. by exists p.
  - rewrite Hp. by apply list_elem_of_In.
Qed.

Lemma cpa_positive m :
  (0 <? conversions m)%float = true -> cpa m = (cost m / conversions m)%float.
Proof. intros H. unfold cpa. by rewrite H. Qed.

Lemma cpa_not_positive m : (0 <? conversions m)%float = false -> cpa m = 0%float.
Proof. intros H. unfold cpa. by rewrite H. Qed.

Lemma roas_positive m :
  (0 <? cost m)%float = true -> roas m = (conversionsValue m / cost m)%float.
Proof. intros H. unfold roas. by rewrite H. Qed.

Lemma roas_not_positive m : (0 <? cost m)%float = false -> roas m = 0%float.
Proof. intros H. unfold roas. by rewrite H. Qed.

(** C8: the derived ratios are total.  CPA is [cost / conversions] when
    [conversions > 0] and 0 otherwise, in particular when [conversions] is
    0; ROAS is [conversionsValue / cost] when [cost > 0] and 0 otherwise,
    in particular when [cost] is 0; 4 conversions for a cost of 40 give a
    CPA of 10.  These are the values in the CPA and ROAS columns of the raw
    table and in the CPA chart rows of every period. *)
Theorem derived_ratios_are_total (m : Metrics float) :
  ((0 <? conversions m)%float = true -> cpa m = (cost m / conversions m)%float) /\
  ((0 <? conversions m)%float = false -> cpa m = 0%float) /\
  (conversions m = 0%float -> cpa m = 0%float) /\
  ((0 <? cost m)%float = true -> roas m = (conversionsValue m / cost m)%float) /\
  ((0 <? cost m)%float = false -> roas m = 0%float) /\
  (cost m = 0%float -> roas m = 0%float) /\
  cpa (mkMetrics 0 0 40 4 0)%float = 10%float /\
  (forall g monthLabel periodData periodKey p,
     periodData !! periodKey = Some p ->
     let label := formatPeriodLabel g monthLabel periodKey in
     rawRow label "Branded" (branded p) (cpa (branded p)) (roas (branded p))
       ∈ buildRawTabRows g monthLabel periodData /\
     rawRow label "Non-branded" (nonBranded p) (cpa (nonBranded p)) (roas (nonBranded p))
       ∈ buildRawTabRows g monthLabel periodData /\
     [CText label; CNum (cpa (branded p)); CNum (cpa (nonBranded p))]
       ∈ buildChartDataRows g monthLabel periodData VCpa /\
     [CText label; CNum (roas (branded p)); CNum (roas (nonBranded p))]
       ∈ buildChartDataRows g monthLabel periodData VRoas).
Proof.
  split; [apply cpa_positive|].
  split; [apply cpa_not_positive|].
  split; [intros H; apply cpa_not_positive; by rewrite H|].
  split; [apply roas_positive|].
  split; [apply roas_not_positive|].
  split; [intros H; apply roas_not_positive; by rewrite H|].
  split; [reflexivity|].
  intros g monthLabel periodData periodKey p Hp label.
  split; [|split; [|split]].
  - unfold buildRawTabRows. apply elem_of_cons. right.
    eapply forEachPeriod_elem; [exact Hp|]. unfold rawRowsOf. apply elem_of_cons. by left.
  - unfold buildRawTabRows. apply elem_of_cons. right.
    eapply forEachPeriod_elem; [exact Hp|]. unfold rawRowsOf.
    apply elem_of_cons. right. apply elem_of_cons. by left.
  - unfold buildChartDataRows.
    eapply forEachPeriod_elem; [exact Hp|]. apply elem_of_cons. by left.
  - unfold buildChartDataRows.
    eapply forEachPeriod_elem; [exact Hp|]. apply elem_of_cons. by left.
Qed.

Lemma derived_ratios_are_total_witness :
  cpa (mkMetrics 100 10 5 1 20)%float = (5 / 1)%float /\
  roas (mkMetrics 100 10 5 1 20)%float = (20 / 5)%float /\
  cpa (mkMetrics 50 5 2.5 0 0)%float = 0%float /\
  roas (mkMetrics 50 5 0 0 0)%float = 0%float.
Proof.
  split; [|split; [|split]].
  - apply (proj1 (derived_ratios_are_total (mkMetrics 100 10 5 1 20)%float)). reflexivity.
  - apply (proj1 (proj2 (proj2 (proj2 (derived_ratios_are_total (mkMetrics 100 10 5 1 20)%float))))).
    reflexivity.
  - apply (proj1 (proj2 (proj2 (derived_ratios_are_total (mkMetrics 50 5 2.5 0 0)%float)))).
    reflexivity.
  - apply (proj1 (proj2 (proj2 (proj2 (proj2 (proj2
             (derived_ratios_are_total (mkMetrics 50 5 0 0 0)%float))))))).
    reflexivity.
Defined.

Example raw_table_of_two_months :
  buildRawTabRows Week (fun s => s)
    {[ "2024-01-08" := mkBucket (mkMetrics 50 5 2.5 0 0) (mkMetrics 0 0 0 0 0) None;
       "2024-01-01" := mkBucket (mkMetrics 100 10 40 4 20) (mkMetrics 200 20 0 2 40) None ]}%float
  = [rawHeader;
     [CText "w/c 2024-01-01"; CText "Branded"; CNum 100; CNum 10; CNum 40; CNum 4; CNum 20;
      CNum 10; CNum 0.5];
     [CText "w/c 2024-01-01"; CText "Non-branded"; CNum 200; CNum 20; CNum 0; CNum 2; CNum 40;
      CNum 0; CNum 0];
     [CText "w/c 2024-01-08"; CText "Branded"; CNum 50; CNum 5; CNum 2.5; CNum 0; CNum 0;
      CNum 0; CNum 0];
     [CText "w/c 2024-01-08"; CText "Non-branded"; CNum 0; CNum 0; CNum 0; CNum 0; CNum 0;
      CNum 0; CNum 0]]%float.
Proof. vm_compute. reflexivity. Qed.

(** * Further properties *)

(** ** The matcher: case, position, and what a token matches *)











Lemma matchTerms_app ic (ts : list Term) : forall s after,
  matchTerms ic ts s = true -> matchTerms ic ts (s +:+ after) = true.
Proof.
  induction ts as [|t ts IH]; intros s after H; simpl in *; [done|].
  apply orb_true_iff in H as [H|H]; apply orb_true_iff.
  - left. destruct s as [|c r]; [discriminate|]. simpl.
    apply andb_true_iff in H as [Ha Hr]. by rewrite Ha, IH.
  - right. apply andb_true_iff in H as [Ho Hr]. by rewrite Ho, IH.
Qed.

Lemma test_app_r re s after : test re s = true -> test re (s +:+ after) = true.
Proof.
  assert (forall s, matchHere re s = true -> matchHere re (s +:+ after) = true) as Hhere.
  { intros s'. unfold matchHere. rewrite !existsb_exists.
    intros (alt & Hin & Hm). exists alt. split; [done|]. by apply matchTerms_app. }
  induction s as [|c r IH]; intros H.
  - cbn [test] in H. rewrite orb_false_r in H. pose proof (Hhere "" H) as H'.
    change ("" +:+ after) with after in *. destruct after; cbn [test]; by rewrite H'.
  - cbn [test] in H. change (String c r +:+ after) with (String c (r +:+ after)).
    cbn [test]. apply orb_true_iff in H as [H|H].
    + pose proof (Hhere (String c r) H) as H'.
      change (String c r +:+ after) with (String c (r +:+ after)) in H'. by rewrite H'.
    + rewrite (IH H). by rewrite orb_true_r.
Qed.

Lemma test_app_l re before s : test re s = true -> test re (before +:+ s) = true.
Proof.
  intros H. induction before as [|c r IH]; [done|].
  change (String c r +:+ s) with (String c (r +:+ s)). cbn [test].
  by rewrite IH, orb_true_r.
Qed.

Lemma isBranded_inside ps (before s after : string) :
  isBranded ps (JStr s) = true -> isBranded ps (JStr (before +:+ s +:+ after)) = true.
Proof.
  unfold isBranded. destruct (String.eqb_spec s "") as [->|Hne]; [discriminate|].
  intros H.
  destruct (String.eqb_spec (before +:+ s +:+ after) "") as [E|_].
  - destruct before; [|discriminate]. destruct s; [done|discriminate].
  - rewrite existsb_exists in *. destruct H as (p & Hin & Ht).
    exists p. split; [done|]. by apply test_app_l, test_app_r.
Qed.

(** X2: for tokens free of characters that are special in a regular
    expression, the pattern built from them is not anchored: a text that
    is branded stays branded with any text before and after it. *)
Theorem branded_text_stays_branded_inside_a_longer_text
    (tokens : list string) ps (before s after : string) :
  forallb safeToken tokens = true ->
  buildBrandPatterns tokens = Some ps ->
  isBranded ps (JStr s) = true -> isBranded ps (JStr (before +:+ s +:+ after)) = true.
Proof. intros _ _ H. by apply isBranded_inside. Qed.

Lemma branded_text_stays_branded_inside_a_longer_text_witness :
  isBranded foodsistersPatterns (JStr ("buy " +:+ "foodsisters" +:+ " tee")) = true.
Proof.
  apply (branded_text_stays_branded_inside_a_longer_text ["foodsisters"; "foodsister"]
           foodsistersPatterns "buy " "foodsisters" " tee").
  - vm_compute. reflexivity.
  - vm_compute. reflexivity.
  - vm_compute. reflexivity.
Defined.

Lemma string_app_cons (c : ascii) (a b : string) : String c a +:+ b = String c (a +:+ b).
Proof. reflexivity. Qed.

Lemma string_app_assoc (a b c : string) : (a +:+ b) +:+ c = a +:+ (b +:+ c).
Proof. induction a as [|x a IH]; [done|]. rewrite !string_app_cons. by f_equal. Qed.

Lemma string_app_nil_r (a : string) : a +:+ "" = a.
Proof. induction a as [|x a IH]; [done|]. rewrite string_app_cons. by f_equal. Qed.

Lemma tokenSource_cons (c : ascii) (r : string) :
  tokenSource (String c r) = charSource c +:+ tokenSource r.
Proof.
  unfold tokenSource, charSource. cbn [replaceSeparators].
  destruct (isSeparator c) eqn:Es.
  - reflexivity.
  - cbn [replaceDigits]. destruct (isDigit c); reflexivity.
Qed.

Lemma parseFrom_app (a b : string) : forall st,
  parseFrom st (a +:+ b)
  = match parseFrom st a with Some st' => parseFrom st' b | None => None end.
Proof.
  induction a as [|c a IH]; intros st; [done|].
  change (String c a +:+ b) with (String c (a +:+ b)). cbn [parseFrom].
  destruct (parseStep st c); [apply IH|done].
Qed.

Lemma safeChar_literal (c : ascii) cur cl :
  safeChar c = true ->
  parseStep (mkParse Normal cur cl) c = Some (mkParse Normal (mkTerm (ALit c) false :: cur) cl).
Proof.
  unfold safeChar. rewrite negb_true_iff, !orb_false_iff. intros [[[Hs Hb] Hq] Hk].
  unfold parseStep. cbn [mode current closed]. by rewrite Hb, Hq, Hk, Hs.
Qed.

Lemma parse_charSource (c : ascii) cur cl :
  safeChar c = true ->
  parseFrom (mkParse Normal cur cl) (charSource c)
  = Some (mkParse Normal (rev (charTerms c) ++ cur) cl).
Proof.
  intros Hc. unfold charSource, charTerms.
  destruct (isSeparator c); [reflexivity|].
  destruct (isDigit c).
  - change (" ?" +:+ String c "") with (String " " (String "?" (String c ""))).
    cbn [parseFrom]. rewrite (safeChar_literal " ") by reflexivity.
    change (parseStep (mkParse Normal (mkTerm (ALit " ") false :: cur) cl) "?")
      with (Some (mkParse Normal (mkTerm (ALit " ") true :: cur) cl)).
    cbv beta iota. by rewrite safeChar_literal.
  - cbn [parseFrom]. by rewrite safeChar_literal.
Qed.

Lemma parse_tokenSource (token : string) : forall cur cl,
  safeToken token = true ->
  parseFrom (mkParse Normal cur cl) (tokenSource token)
  = Some (mkParse Normal (rev (tokenTerms token) ++ cur) cl).
Proof.
  induction token as [|c r IH]; intros cur cl Hsafe; [done|].
  unfold safeToken in Hsafe. cbn [list_ascii_of_string forallb] in Hsafe.
  apply andb_true_iff in Hsafe as [Hc Hr].
  rewrite tokenSource_cons, parseFrom_app, parse_charSource by done.
  rewrite IH by done. cbn [tokenTerms]. by rewrite rev_app_distr, <- app_assoc.
Qed.

Lemma parse_patternSource (tokens : list string) : forall token cur cl,
  forallb safeToken (token :: tokens) = true ->
  exists cur' cl',
    parseFrom (mkParse Normal cur cl) (patternSource (token :: tokens))
    = Some (mkParse Normal cur' cl') /\
    rev (rev cur' :: cl')
    = (rev cl ++ (rev cur ++ tokenTerms token) :: map tokenTerms tokens)%list.
Proof.
  unfold patternSource.
  induction tokens as [|token' tokens IH]; intros token cur cl Hsafe;
    cbn [forallb] in Hsafe; apply andb_true_iff in Hsafe as [Ht Hts].
  - cbn [map String.concat]. rewrite parse_tokenSource by done.
    eexists _, _. split; [done|]. cbn [rev map].
    by rewrite rev_app_distr, rev_involutive.
  - change (String.concat "|" (map tokenSource (token :: token' :: tokens)))
      with (tokenSource token +:+ String "|" (String.concat "|" (map tokenSource (token' :: tokens)))).
    rewrite parseFrom_app, parse_tokenSource by done.
    cbn [parseFrom].
    change (parseStep (mkParse Normal (rev (tokenTerms token) ++ cur) cl) "|")
      with (Some (mkParse Normal [] (rev (rev (tokenTerms token) ++ cur) :: cl))).
    cbv beta iota.
    destruct (IH token' [] (rev (rev (tokenTerms token) ++ cur) :: cl) Hts)
      as (cur' & cl' & Hp & Hr).
    exists cur', cl'. split; [exact Hp|]. rewrite Hr. cbn [rev map].
    rewrite rev_app_distr, rev_involutive. by rewrite <- app_assoc.
Qed.

Lemma buildBrandPatterns_safe (tokens : list string) :
  forallb safeToken tokens = true -> tokens <> [] ->
  buildBrandPatterns tokens = Some [mkRegExp (map tokenTerms tokens) true].
Proof.
  intros Hsafe Hne. destruct tokens as [|token tokens]; [done|].
  destruct (parse_patternSource tokens token [] [] Hsafe) as (cur' & cl' & Hp & Hr).
  unfold buildBrandPatterns, newRegExp. by rewrite Hp, Hr.
Qed.

(** X3: for a non-empty list of tokens free of characters that are special
    in a regular expression, [buildBrandPatterns] yields one
    case-insensitive pattern with one alternative per token, in the order
    of the tokens: a hyphen or a space of the token becomes an optional
    hyphen, underscore or space; a digit gets an optional space before
    it; and any other character, an underscore too, stands for itself. *)
Theorem safe_tokens_compile_to_one_alternative_each (tokens : list string) :
  forallb safeToken tokens = true -> tokens <> [] ->
  buildBrandPatterns tokens = Some [mkRegExp (map tokenTerms tokens) true].
Proof.
  intros Hsafe Hne. destruct tokens as [|token tokens]; [done|].
  destruct (parse_patternSource tokens token [] [] Hsafe) as (cur' & cl' & Hp & Hr).
  unfold buildBrandPatterns, newRegExp. rewrite Hp, Hr. reflexivity.
Qed.

Lemma safe_tokens_compile_to_one_alternative_each_witness :
  buildBrandPatterns ["foodsisters"; "brand-2"]
  = Some [mkRegExp (map tokenTerms ["foodsisters"; "brand-2"]) true].
Proof.
  apply (safe_tokens_compile_to_one_alternative_each ["foodsisters"; "brand-2"]).
  - vm_compute. reflexivity.
  - discriminate.
Defined.
Lemma matchTerms_spells (token : string) : forall str,
  matchTerms true (tokenTerms token) str = true <->
  exists s rest, str = s +:+ rest /\ spells token s.
Proof.
  induction token as [|c r IH]; intros str.
  - split; [intros _; exists "", str; split; [done|constructor]|done].
  - cbn [tokenTerms]. unfold charTerms.
    destruct (isSeparator c) eqn:Es; [|destruct (isDigit c) eqn:Ed].
    + (* a hyphen or a space of the token *)
      cbn [app matchTerms atom optional atomMatches]. rewrite orb_true_iff. split.
      * intros [H|H].
        -- destruct str as [|c' str']; [discriminate|].
           apply andb_true_iff in H as [Hc Hr]. apply IH in Hr as (s & rest & -> & Hs).
           exists (String c' s), rest. split; [done|]. by apply spells_separator.
        -- apply IH in H as (s & rest & -> & Hs).
           exists s, rest. split; [done|]. by apply spells_separator_dropped.
      * intros (s & rest & -> & Hs). inversion Hs; subst; try congruence.
        -- right. apply IH. by exists s, rest.
        -- left. rewrite string_app_cons. apply andb_true_iff. split; [done|].
           apply IH. by eexists _, rest.
    + (* a digit *)
      cbn [app matchTerms atom optional atomMatches]. rewrite !orb_true_iff. split.
      * intros [H|H].
        -- destruct str as [|sp str']; [discriminate|].
           apply andb_true_iff in H as [Hsp H]. rewrite orb_false_r in H.
           destruct str' as [|c' str'']; [discriminate|].
           apply andb_true_iff in H as [Hc Hr]. apply IH in Hr as (s & rest & -> & Hs).
           exists (String sp (String c' s)), rest. split; [done|].
           by apply spells_spaced_digit.
        -- rewrite andb_true_l, orb_false_r in H.
           destruct str as [|c' str']; [discriminate|].
           apply andb_true_iff in H as [Hc Hr]. apply IH in Hr as (s & rest & -> & Hs).
           exists (String c' s), rest. split; [done|]. by apply spells_digit.
      * intros (s & rest & -> & Hs). inversion Hs; subst; try congruence.
        -- right. rewrite andb_true_l, orb_false_r, string_app_cons.
           apply andb_true_iff. split; [done|]. apply IH. by eexists _, rest.
        -- left. rewrite !string_app_cons. apply andb_true_iff. split; [done|].
           rewrite orb_false_r. apply andb_true_iff. split; [done|].
           apply IH. by eexists _, rest.
    + (* any other character *)
      cbn [app matchTerms atom optional atomMatches]. rewrite orb_false_r. split.
      * intros H. destruct str as [|c' str']; [discriminate|].
        apply andb_true_iff in H as [Hc Hr]. apply IH in Hr as (s & rest & -> & Hs).
        exists (String c' s), rest. split; [done|]. by apply spells_char.
      * intros (s & rest & -> & Hs). inversion Hs; subst; try congruence.
        rewrite string_app_cons. apply andb_true_iff. split; [done|].
        apply IH. by eexists _, rest.
Qed.

Lemma test_somewhere (re : RegExp) (str : string) :
  test re str = true <->
  exists before suffix, str = before +:+ suffix /\ matchHere re suffix = true.
Proof.
  induction str as [|c r IH]; cbn [test].
  - rewrite orb_false_r. split.
    + intros H. by exists "", "".
    + intros (before & suffix & E & H). destruct before; [|discriminate].
      change ("" +:+ suffix) with suffix in E. by subst.
  - rewrite orb_true_iff, IH. split.
    + intros [H|(before & suffix & -> & H)].
      * by exists "", (String c r).
      * by exists (String c before), suffix.
    + intros (before & suffix & E & H). destruct before as [|c' before].
      * left. change ("" +:+ suffix) with suffix in E. by subst.
      * right. rewrite string_app_cons in E. injection E as -> ->. by exists before, suffix.
Qed.

(** X4: for a non-empty list of ASCII tokens free of characters that are
    special in a regular expression, an ASCII text is branded exactly when
    it is not empty and contains a spelling of one of the tokens.  A spelling
    may write a hyphen or a space of the token as a hyphen, an underscore
    or a space, or leave it out; it may put a space before a digit; and
    it may change the case of a letter. *)
Theorem branded_iff_text_contains_a_spelling (tokens : list string) ps (text : string) :
  forallb asciiOnly tokens = true -> asciiOnly text = true ->
  forallb safeToken tokens = true -> tokens <> [] ->
  buildBrandPatterns tokens = Some ps ->
  isBranded ps (JStr text) = true <-> text <> "" /\ containsSpelling tokens text.
Proof.
  intros _ _ Hsafe Hne Hps.
  rewrite (buildBrandPatterns_safe tokens Hsafe Hne) in Hps.
  injection Hps as <-. unfold isBranded, containsSpelling.
  destruct (String.eqb_spec text "") as [->|Htext]; [split; [done|by intros [? _]]|].
  cbn [existsb]. rewrite orb_false_r, test_somewhere. split.
  - intros (before & suffix & -> & H). split; [done|].
    unfold matchHere in H. cbn [alternatives ignoreCase] in H.
    apply existsb_exists in H as (alt & Hin & Hm).
    apply in_map_iff in Hin as (token & <- & Hin).
    apply matchTerms_spells in Hm as (s & rest & -> & Hs).
    by exists token, before, s, rest.
  - intros [_ (token & before & s & after & Hin & Hs & ->)].
    exists before, (s +:+ after). split; [done|].
    unfold matchHere. cbn [alternatives ignoreCase].
    apply existsb_exists. exists (tokenTerms token). split; [by apply in_map|].
    apply matchTerms_spells. by exists s, after.
Qed.

Lemma branded_iff_text_contains_a_spelling_witness :
  isBranded (default [] (buildBrandPatterns ["brand-2"])) (JStr "my brand 2 shop") = true
  <-> "my brand 2 shop" <> "" /\ containsSpelling ["brand-2"] "my brand 2 shop".
Proof.
  apply (branded_iff_text_contains_a_spelling ["brand-2"]).
  - vm_compute. reflexivity.
  - vm_compute. reflexivity.
  - vm_compute. reflexivity.
  - discriminate.
  - vm_compute. reflexivity.
Defined.

(** ** [getSheetId] *)

Lemma substring_all (s : string) : String.substring 0 (String.length s) s = s.
Proof. induction s as [|c s IH]; [done|]. cbn [String.length String.substring]. by rewrite IH. Qed.

Lemma sheetIdAtHead_marker (x : string) : sheetIdAtHead ("/d/" +:+ x) = takeSheetIdChars x.
Proof.
  unfold sheetIdAtHead. change ("/d/" +:+ x) with (String "/" (String "d" (String "/" x))).
  cbn [String.prefix]. repeat (destruct (ascii_dec _ _) as [_|N]; [|by destruct N]).
  destruct x as [|c x]; [reflexivity|].
  cbn [String.length Nat.sub String.substring].
  change (String.substring 0 (S (String.length x)) (String c x))
    with (String.substring 0 (String.length (String c x)) (String c x)).
  by rewrite substring_all.
Qed.

Lemma sheetIdAtHead_inv (s : string) :
  sheetIdAtHead s <> "" -> exists x, s = "/d/" +:+ x /\ sheetIdAtHead s = takeSheetIdChars x.
Proof.
  intros H. unfold sheetIdAtHead in H.
  destruct (String.prefix "/d/" s) eqn:Ep; [|done].
  destruct s as [|c0 [|c1 [|c2 x]]]; try discriminate.
  - cbn [String.prefix] in Ep. destruct (ascii_dec _ _); discriminate.
  - cbn [String.prefix] in Ep. repeat (destruct (ascii_dec _ _); [|discriminate]). discriminate.
  - cbn [String.prefix] in Ep.
    destruct (ascii_dec "/" c0) as [<-|]; [|discriminate].
    destruct (ascii_dec "d" c1) as [<-|]; [|discriminate].
    destruct (ascii_dec "/" c2) as [<-|]; [|discriminate].
    exists x. split; [done|]. apply (sheetIdAtHead_marker x).
Qed.

Lemma matchSheetId_unfold (c : ascii) (r : string) :
  matchSheetId (String c r)
  = match sheetIdAtHead (String c r) with
    | EmptyString => matchSheetId r
    | id => Some id
    end.
Proof. reflexivity. Qed.

Lemma takeSheetIdChars_all (x : string) : allSheetIdChars (takeSheetIdChars x) = true.
Proof.
  unfold allSheetIdChars. induction x as [|c x IH]; [done|].
  cbn [takeSheetIdChars]. destruct (isSheetIdChar c) eqn:E; [|done].
  cbn [list_ascii_of_string forallb]. by rewrite E, IH.
Qed.

Lemma takeSheetIdChars_prefix (x : string) : exists rest, x = takeSheetIdChars x +:+ rest.
Proof.
  induction x as [|c x [rest IH]]; [by exists ""|].
  cbn [takeSheetIdChars]. destruct (isSheetIdChar c).
  - exists rest. rewrite string_app_cons. by f_equal.
  - by exists (String c x).
Qed.

Lemma matchSheetId_sound (s id : string) :
  matchSheetId s = Some id ->
  id <> "" /\ allSheetIdChars id = true /\
  exists before after, s = before +:+ "/d/" +:+ id +:+ after.
Proof.
  induction s as [|c r IH]; [done|]. rewrite matchSheetId_unfold.
  destruct (sheetIdAtHead (String c r)) as [|c' id'] eqn:E.
  - intros H. destruct (IH H) as (Hne & Hall & before & after & ->).
    split; [done|]. split; [done|]. by exists (String c before), after.
  - intros [= <-]. split; [done|].
    destruct (sheetIdAtHead_inv (String c r)) as (x & Hs & Hx); [by rewrite E|].
    rewrite E in Hx. rewrite Hx. split; [apply takeSheetIdChars_all|].
    destruct (takeSheetIdChars_prefix x) as [rest Hrest].
    exists "", rest. rewrite Hs. change ("" +:+ "/d/" +:+ takeSheetIdChars x +:+ rest)
      with ("/d/" +:+ (takeSheetIdChars x +:+ rest)). by rewrite <- Hrest.
Qed.

Lemma includesSlash_false_getSheetId (s : string) :
  includesSlash s = false -> getSheetId s = inr s.
Proof. intros H. unfold getSheetId. by rewrite H, orb_true_r. Qed.

(** X5: what [getSheetId] returns is either its argument, which then has
    no slash, or a non-empty run of letters, digits, hyphens and
    underscores that follows a [/d/] of the argument. *)
Theorem getSheetId_result (s id : string) :
  getSheetId s = inr id ->
  (includesSlash s = false /\ id = s) \/
  (includesSlash s = true /\ id <> "" /\ allSheetIdChars id = true /\
   exists before after, s = before +:+ "/d/" +:+ id +:+ after).
Proof.
  unfold getSheetId. destruct (String.eqb_spec s "") as [->|Hne].
  - intros [= <-]. by left.
  - cbn [orb]. destruct (includesSlash s) eqn:Ei; cbn [negb].
    + destruct (matchSheetId s) as [id'|] eqn:Em; [|discriminate].
      intros [= <-]. right. split; [done|]. by apply matchSheetId_sound.
    + intros [= <-]. by left.
Qed.

Lemma getSheetId_result_witness :
  (includesSlash "https://docs.google.com/spreadsheets/d/1ysIP5kMNCuBI5uVzf6V-Xw6knCCSGMCEXw1B5i8zURY/edit?usp=sharing" = false /\
   "1ysIP5kMNCuBI5uVzf6V-Xw6knCCSGMCEXw1B5i8zURY"
   = "https://docs.google.com/spreadsheets/d/1ysIP5kMNCuBI5uVzf6V-Xw6knCCSGMCEXw1B5i8zURY/edit?usp=sharing") \/
  (includesSlash "https://docs.google.com/spreadsheets/d/1ysIP5kMNCuBI5uVzf6V-Xw6knCCSGMCEXw1B5i8zURY/edit?usp=sharing" = true /\
   "1ysIP5kMNCuBI5uVzf6V-Xw6knCCSGMCEXw1B5i8zURY" <> "" /\
   allSheetIdChars "1ysIP5kMNCuBI5uVzf6V-Xw6knCCSGMCEXw1B5i8zURY" = true /\
   exists before after,
     "https://docs.google.com/spreadsheets/d/1ysIP5kMNCuBI5uVzf6V-Xw6knCCSGMCEXw1B5i8zURY/edit?usp=sharing"
     = before +:+ "/d/" +:+ "1ysIP5kMNCuBI5uVzf6V-Xw6knCCSGMCEXw1B5i8zURY" +:+ after).
Proof.
  apply (getSheetId_result
           "https://docs.google.com/spreadsheets/d/1ysIP5kMNCuBI5uVzf6V-Xw6knCCSGMCEXw1B5i8zURY/edit?usp=sharing"
           "1ysIP5kMNCuBI5uVzf6V-Xw6knCCSGMCEXw1B5i8zURY").
  vm_compute. reflexivity.
Defined.

Lemma takeSheetIdChars_id (id rest : string) :
  allSheetIdChars id = true ->
  takeSheetIdChars rest = "" ->
  takeSheetIdChars (id +:+ rest) = id.
Proof.
  intros Hall Hrest. unfold allSheetIdChars in Hall.
  induction id as [|c id IH]; [done|].
  cbn [list_ascii_of_string forallb] in Hall. apply andb_true_iff in Hall as [Hc Hid].
  rewrite string_app_cons. cbn [takeSheetIdChars]. by rewrite Hc, IH.
Qed.

Lemma sheetIdAtHead_app (x y : string) :
  (4 <= String.length x)%nat -> sheetIdAtHead x = "" -> sheetIdAtHead (x +:+ y) = "".
Proof.
  intros Hlen H.
  destruct x as [|c0 [|c1 [|c2 [|c3 x]]]]; cbn [String.length] in Hlen; try lia.
  unfold sheetIdAtHead in *. rewrite !string_app_cons.
  cbn [String.prefix] in *.
  destruct (ascii_dec "/" c0) as [<-|]; [|done].
  destruct (ascii_dec "d" c1) as [<-|]; [|done].
  destruct (ascii_dec "/" c2) as [<-|]; [|done].
  cbn [String.length Nat.sub String.substring takeSheetIdChars] in *.
  by destruct (isSheetIdChar c3).
Qed.

Lemma includesSlash_app (a b : string) :
  includesSlash (a +:+ b) = includesSlash a || includesSlash b.
Proof.
  induction a as [|c a IH]; [done|].
  rewrite string_app_cons. cbn [includesSlash]. by rewrite IH, orb_assoc.
Qed.

Lemma string_length_app (a b : string) :
  String.length (a +:+ b) = (String.length a + String.length b)%nat.
Proof. induction a as [|c a IH]; [done|]. rewrite string_app_cons. cbn [String.length]. by rewrite IH. Qed.

Lemma matchSheetId_after_prefix (before id rest : string) :
  matchSheetId (before +:+ "/d/") = None ->
  id <> "" -> allSheetIdChars id = true -> takeSheetIdChars rest = "" ->
  matchSheetId (before +:+ "/d/" +:+ id +:+ rest) = Some id.
Proof.
  intros Hbefore Hne Hall Hrest.
  induction before as [|c before IH].
  - change ("" +:+ "/d/" +:+ id +:+ rest) with (String "/" ("d/" +:+ id +:+ rest)).
    rewrite matchSheetId_unfold.
    change (String "/" ("d/" +:+ id +:+ rest)) with ("/d/" +:+ (id +:+ rest)).
    rewrite sheetIdAtHead_marker, takeSheetIdChars_id by done.
    by destruct id.
  - rewrite string_app_cons in *. rewrite matchSheetId_unfold in *.
    destruct (sheetIdAtHead (String c (before +:+ "/d/"))) eqn:E; [|discriminate].
    assert (sheetIdAtHead (String c (before +:+ "/d/" +:+ id +:+ rest)) = "") as ->.
    { replace (String c (before +:+ "/d/" +:+ id +:+ rest))
        with ((String c before +:+ "/d/") +:+ (id +:+ rest))
        by (by rewrite string_app_assoc).
      apply sheetIdAtHead_app; [|by rewrite string_app_cons].
      rewrite string_length_app. cbn [String.length]. lia. }
    by apply IH.
Qed.

(** X6: [getSheetId] reads the identifier of a spreadsheet URL: when
    nothing before the [/d/] matches, the identifier is made of letters,
    digits, hyphens and underscores, and what follows it starts with none
    of them, the identifier is returned. *)
Theorem getSheetId_reads_the_id_after_the_marker (before id rest : string) :
  matchSheetId (before +:+ "/d/") = None ->
  id <> "" -> allSheetIdChars id = true -> takeSheetIdChars rest = "" ->
  getSheetId (before +:+ "/d/" +:+ id +:+ rest) = inr id.
Proof.
  intros Hbefore Hne Hall Hrest. unfold getSheetId.
  rewrite (matchSheetId_after_prefix before id rest) by done.
  assert (includesSlash (before +:+ "/d/" +:+ id +:+ rest) = true) as ->.
  { rewrite includesSlash_app. change (includesSlash ("/d/" +:+ id +:+ rest)) with true.
    by rewrite orb_true_r. }
  destruct (String.eqb_spec (before +:+ "/d/" +:+ id +:+ rest) "") as [E|_]; [|done].
  destruct before; discriminate.
Qed.

Lemma getSheetId_reads_the_id_after_the_marker_witness :
  getSheetId ("https://docs.google.com/spreadsheets" +:+ "/d/"
              +:+ "1ysIP5kMNCuBI5uVzf6V-Xw6knCCSGMCEXw1B5i8zURY" +:+ "/edit?usp=sharing")
  = inr "1ysIP5kMNCuBI5uVzf6V-Xw6knCCSGMCEXw1B5i8zURY".
Proof.
  apply (getSheetId_reads_the_id_after_the_marker "https://docs.google.com/spreadsheets"
           "1ysIP5kMNCuBI5uVzf6V-Xw6knCCSGMCEXw1B5i8zURY" "/edit?usp=sharing").
  - vm_compute. reflexivity.
  - discriminate.
  - vm_compute. reflexivity.
  - vm_compute. reflexivity.
Defined.

(** ** Rows without a period key, and the keys of a result *)

Section SkippedRows.

Variable StringToNumber : string -> float.
Variable BRAND_PATTERNS : list RegExp.
Variable g : Granularity.
Variable flag : bool.

Lemma countedKey_None_search (row : Row) :
  countedKey g row = None -> decodeSearchTermRow StringToNumber BRAND_PATTERNS g row = None.
Proof.
  unfold countedKey, decodeSearchTermRow, truthyString.
  destruct (rowPeriodKey g row) as [k|]; [|done].
  by destruct (String.eqb k "").
Qed.

Lemma countedKey_None_pmax (row : Row) :
  countedKey g row = None -> decodePmaxRow StringToNumber BRAND_PATTERNS g flag row = None.
Proof.
  unfold countedKey, decodePmaxRow, truthyString.
  destruct (isExcludedTargetingStatus (segments row)); [done|].
  destruct (rowPeriodKey g row) as [k|]; [|done].
  by destruct (String.eqb k "").
Qed.

Lemma decodeSearchTermRow_key (row : Row) r :
  decodeSearchTermRow StringToNumber BRAND_PATTERNS g row = Some r ->
  countedKey g row = Some (periodKey r).
Proof.
  unfold countedKey, decodeSearchTermRow, truthyString.
  destruct (rowPeriodKey g row) as [k|]; [|done].
  destruct (String.eqb k ""); [done|]. by intros [= <-].
Qed.

Lemma decodeSearchTermRow_Some (row : Row) k :
  countedKey g row = Some k ->
  exists r, decodeSearchTermRow StringToNumber BRAND_PATTERNS g row = Some r /\ periodKey r = k.
Proof.
  unfold countedKey, decodeSearchTermRow, truthyString.
  destruct (rowPeriodKey g row) as [k'|]; [|done].
  destruct (String.eqb k' ""); [done|]. intros [= <-]. by eexists.
Qed.

Lemma decodePmaxRow_key (row : Row) r :
  decodePmaxRow StringToNumber BRAND_PATTERNS g flag row = Some r ->
  isExcludedTargetingStatus (segments row) = false /\ countedKey g row = Some (periodKey r).
Proof.
  unfold countedKey, decodePmaxRow, truthyString.
  destruct (isExcludedTargetingStatus (segments row)); [done|].
  destruct (rowPeriodKey g row) as [k|]; [|done].
  destruct (String.eqb k ""); [done|]. by intros [= <-].
Qed.

Lemma decodePmaxRow_Some (row : Row) k :
  isExcludedTargetingStatus (segments row) = false ->
  countedKey g row = Some k ->
  exists r, decodePmaxRow StringToNumber BRAND_PATTERNS g flag row = Some r /\ periodKey r = k.
Proof.
  unfold countedKey, decodePmaxRow, truthyString. intros ->.
  destruct (rowPeriodKey g row) as [k'|]; [|done].
  destruct (String.eqb k' ""); [done|]. intros [= <-]. by eexists.
Qed.

End SkippedRows.

(** X7: a row without a period key (no [segments], or no or an empty
    month or week in them) is skipped by both search-term sources: the
    result is that of the rows without it. *)
Theorem row_without_period_key_is_skipped
    (StringToNumber : string -> float) (BRAND_PATTERNS : list RegExp)
    (g : Granularity) (flag : bool) (row : Row) :
  countedKey g row = None ->
  (forall before after,
     processSearchTermView StringToNumber BRAND_PATTERNS g (before ++ row :: after)%list
     = processSearchTermView StringToNumber BRAND_PATTERNS g (before ++ after)%list) /\
  (forall before after,
     processCampaignSearchTermView StringToNumber BRAND_PATTERNS g flag (before ++ row :: after)%list
     = processCampaignSearchTermView StringToNumber BRAND_PATTERNS g flag (before ++ after)%list).
Proof.
  intros Hkey. split; intros before after.
  - unfold processSearchTermView. rewrite !fold_left_app. cbn [fold_left].
    unfold searchTermStep at 2. by rewrite countedKey_None_search.
  - unfold processCampaignSearchTermView. rewrite !fold_left_app. cbn [fold_left].
    unfold pmaxStep at 2. by rewrite countedKey_None_pmax.
Qed.

Lemma row_without_period_key_is_skipped_witness :
  (forall before after,
     processSearchTermView noNumericStrings foodsistersPatterns Month
       (before ++ undatedRow "foodsisters tee" :: after)%list
     = processSearchTermView noNumericStrings foodsistersPatterns Month (before ++ after)%list) /\
  (forall before after,
     processCampaignSearchTermView noNumericStrings foodsistersPatterns Month false
       (before ++ undatedRow "foodsisters tee" :: after)%list
     = processCampaignSearchTermView noNumericStrings foodsistersPatterns Month false
         (before ++ after)%list).
Proof.
  apply (row_without_period_key_is_skipped noNumericStrings foodsistersPatterns Month false
           (undatedRow "foodsisters tee")).
  vm_compute. reflexivity.
Defined.

Lemma period_keys_of_the_rows
    (StringToNumber : string -> float) (BRAND_PATTERNS : list RegExp)
    (g : Granularity) (flag : bool) (rows : list Row) (k : string) :
  (k ∈ dom (periodData (processSearchTermView StringToNumber BRAND_PATTERNS g rows)) <->
   exists row, row ∈ rows /\ countedKey g row = Some k) /\
  (k ∈ dom (periodData (processCampaignSearchTermView StringToNumber BRAND_PATTERNS g flag rows)) <->
   exists row, row ∈ rows /\ isExcludedTargetingStatus (segments row) = false /\
               countedKey g row = Some k).
Proof.
  split.
  - rewrite processSearchTermView_aggregate. unfold aggregate.
    rewrite dom_fold_accumulate. cbn [emptyResult periodData].
    rewrite dom_empty_L, elem_of_union, elem_of_list_to_set, list_elem_of_fmap. split.
    + intros [H|(r & -> & Hin)]; [by apply not_elem_of_empty in H|].
      apply list_elem_of_omap in Hin as (row & Hrow & Hdec).
      exists row. split; [done|]. by eapply decodeSearchTermRow_key.
    + intros (row & Hrow & Hkey).
      destruct (decodeSearchTermRow_Some StringToNumber BRAND_PATTERNS g row k Hkey)
        as (r & Hdec & <-).
      right. exists r. split; [done|]. apply list_elem_of_omap. by exists row.
  - rewrite processCampaignSearchTermView_aggregate. unfold aggregate.
    rewrite dom_fold_accumulate. cbn [emptyResult periodData].
    rewrite dom_empty_L, elem_of_union, elem_of_list_to_set, list_elem_of_fmap. split.
    + intros [H|(r & -> & Hin)]; [by apply not_elem_of_empty in H|].
      apply list_elem_of_omap in Hin as (row & Hrow & Hdec).
      exists row. split; [done|]. by eapply decodePmaxRow_key.
    + intros (row & Hrow & Hex & Hkey).
      destruct (decodePmaxRow_Some StringToNumber BRAND_PATTERNS g flag row k Hex Hkey)
        as (r & Hdec & <-).
      right. exists r. split; [done|]. apply list_elem_of_omap. by exists row.
Qed.

(** X8: when the period keys of the rows are dates (digits and hyphens),
    the period keys of a search-term result are exactly the keys of its
    rows that have one; for the Performance Max source, of those of its
    rows that are not excluded. *)
Theorem period_keys_are_those_of_the_counted_rows
    (StringToNumber : string -> float) (BRAND_PATTERNS : list RegExp)
    (g : Granularity) (flag : bool) (rows : list Row) (k : string) :
  (forall row key, row ∈ rows -> countedKey g row = Some key -> dateKey key = true) ->
  (k ∈ dom (periodData (processSearchTermView StringToNumber BRAND_PATTERNS g rows)) <->
   exists row, row ∈ rows /\ countedKey g row = Some k) /\
  (k ∈ dom (periodData (processCampaignSearchTermView StringToNumber BRAND_PATTERNS g flag rows)) <->
   exists row, row ∈ rows /\ isExcludedTargetingStatus (segments row) = false /\
               countedKey g row = Some k).
Proof. intros _. apply period_keys_of_the_rows. Qed.

Lemma period_keys_are_those_of_the_counted_rows_witness :
  ("2024-01" ∈ dom (periodData (processSearchTermView noNumericStrings foodsistersPatterns Month
                                  [termRow "2024-01" "red tee" 200 20 10000000 2 40;
                                   undatedRow "foodsisters tee"])) <->
   exists row, row ∈ [termRow "2024-01" "red tee" 200 20 10000000 2 40;
                      undatedRow "foodsisters tee"] /\
               countedKey Month row = Some "2024-01") /\
  ("2024-01" ∈ dom (periodData (processCampaignSearchTermView noNumericStrings foodsistersPatterns
                                  Month false
                                  [termRow "2024-01" "red tee" 200 20 10000000 2 40;
                                   undatedRow "foodsisters tee"])) <->
   exists row, row ∈ [termRow "2024-01" "red tee" 200 20 10000000 2 40;
                      undatedRow "foodsisters tee"] /\
               isExcludedTargetingStatus (segments row) = false /\
               countedKey Month row = Some "2024-01").
Proof.
  apply (period_keys_are_those_of_the_counted_rows noNumericStrings foodsistersPatterns Month
           false).
  intros row key Hrow Hkey.
  apply elem_of_cons in Hrow as [->|Hrow].
  - vm_compute in Hkey. injection Hkey as <-. reflexivity.
  - apply list_elem_of_singleton in Hrow as ->. vm_compute in Hkey. discriminate Hkey.
Defined.

(** ** Search-term results have no [blank] *)

Section NoBlank.

Context {num : Type} (zero : num) (add : num -> num -> num).

Lemma accumulate_noBlank (st : ChannelResult num) (r : Classified num) :
  noBlank st -> noBlank (accumulate zero add st r).
Proof.
  intros [Ht Hp]. split.
  - unfold accumulate, addToBucket. cbn [totals]. by destruct (isBrandedRow r).
  - intros key b. unfold accumulate. cbn [periodData].
    rewrite addRowToPeriodData_insert.
    destruct (decide (periodKey r = key)) as [<-|Hne].
    + rewrite lookup_insert_eq. intros [= <-].
      assert (blank (default (emptyPeriodData zero) (periodData st !! periodKey r)) = None) as Hb.
      { destruct (periodData st !! periodKey r) as [b0|] eqn:E; [by eapply Hp|done]. }
      unfold addToBucket. by destruct (isBrandedRow r).
    + rewrite lookup_insert_ne by done. apply Hp.
Qed.

Lemma aggregate_noBlank (rows : list (Classified num)) : noBlank (aggregate zero add rows).
Proof.
  unfold aggregate.
  assert (noBlank (emptyResult zero)) as H0.
  { split; [done|]. intros key b Hb. cbn [emptyResult periodData] in Hb.
    by rewrite lookup_empty in Hb. }
  revert H0. generalize (emptyResult zero).
  induction rows as [|r rows IH]; intros st Hst; [done|].
  cbn [fold_left]. by apply IH, accumulate_noBlank.
Qed.

End NoBlank.

(** X9: the search-term sources never create a [blank] entry, neither in
    the totals nor in the bucket of any period. *)
Theorem search_term_results_have_no_blank
    (StringToNumber : string -> float) (BRAND_PATTERNS : list RegExp)
    (g : Granularity) (flag : bool) (rows : list Row) :
  noBlank (processSearchTermView StringToNumber BRAND_PATTERNS g rows) /\
  noBlank (processCampaignSearchTermView StringToNumber BRAND_PATTERNS g flag rows).
Proof.
  rewrite processSearchTermView_aggregate, processCampaignSearchTermView_aggregate.
  split; apply aggregate_noBlank.
Qed.

(** ** More on exact arithmetic: totals and merges *)

Section ExactTotals.

Context {num : Type} (zero : num) (add : num -> num -> num).

Hypothesis add_assoc : forall a b c, add a (add b c) = add (add a b) c.
Hypothesis add_comm : forall a b, add a b = add b a.
Hypothesis add_zero_l : forall a, add zero a = a.

Lemma mergeTotals_assoc (x y z : Bucket num) :
  mergeTotals add (mergeTotals add x y) z = mergeTotals add x (mergeTotals add y z).
Proof.
  unfold mergeTotals. cbn [branded nonBranded blank].
  by rewrite !(addMetrics_assoc add add_assoc).
Qed.

Lemma mergeTotals_swap (x y z : Bucket num) :
  mergeTotals add (mergeTotals add x y) z = mergeTotals add (mergeTotals add x z) y.
Proof.
  unfold mergeTotals. cbn [branded nonBranded blank].
  by rewrite (addMetrics_swap add add_assoc add_comm _ (branded y)),
             (addMetrics_swap add add_assoc add_comm _ (nonBranded y)).
Qed.

Lemma mergeTotals_empty (x : Bucket num) :
  mergeTotals add x (emptyPeriodData zero) = x.
Proof. apply (mergeTotals_empty_r zero add add_comm add_zero_l). Qed.

Lemma mergeTotals_comm (x y : Bucket num) :
  blank x = None -> blank y = None -> mergeTotals add x y = mergeTotals add y x.
Proof.
  intros Hx Hy. unfold mergeTotals. rewrite Hx, Hy.
  f_equal; unfold addMetrics; f_equal; apply add_comm.
Qed.

Lemma sumBuckets_insert (pd : gmap string (Bucket num)) k b :
  pd !! k = None ->
  sumBuckets zero add (<[k := b]> pd) = mergeTotals add (sumBuckets zero add pd) b.
Proof.
  intros Hk. unfold sumBuckets.
  apply (map_fold_insert_L (fun _ b acc => mergeTotals add acc b)); [|done].
  intros j1 j2 z1 z2 y _ _ _. apply mergeTotals_swap.
Qed.



Lemma mergePeriodData_assoc (a b c : gmap string (Bucket num)) :
  mergePeriodData zero add (mergePeriodData zero add a b) c
  = mergePeriodData zero add a (mergePeriodData zero add b c).
Proof.
  apply map_eq; intros k. rewrite !lookup_mergePeriodData.
  destruct (a !! k) as [ab|], (b !! k) as [bb|], (c !! k) as [cb|];
    cbn [default from_option]; try done; f_equal.
  - apply mergeTotals_assoc.
  - by rewrite <- mergeTotals_assoc, mergeTotals_empty.
  - apply mergeTotals_assoc.
  - by rewrite <- mergeTotals_assoc, mergeTotals_empty.
Qed.

Lemma mergePeriodData_comm (a b : gmap string (Bucket num)) :
  (forall k x, a !! k = Some x -> blank x = None) ->
  (forall k x, b !! k = Some x -> blank x = None) ->
  mergePeriodData zero add a b = mergePeriodData zero add b a.
Proof.
  intros Ha Hb. apply map_eq; intros k. rewrite !lookup_mergePeriodData.
  destruct (a !! k) as [ab|] eqn:Ea, (b !! k) as [bb|] eqn:Eb;
    cbn [default from_option]; try done; f_equal.
  - apply mergeTotals_comm; [by eapply Ha|by eapply Hb].
  - rewrite (mergeTotals_comm (emptyPeriodData zero) ab);
      [by rewrite mergeTotals_empty|done|by eapply Ha].
  - rewrite (mergeTotals_comm (emptyPeriodData zero) bb);
      [by rewrite mergeTotals_empty|done|by eapply Hb].
Qed.


Lemma mergeResults_assoc (a b c : ChannelResult num) :
  mergeResults zero add (mergeResults zero add a b) c
  = mergeResults zero add a (mergeResults zero add b c).
Proof.
  unfold mergeResults. cbn [totals periodData]. f_equal.
  - apply mergeTotals_assoc.
  - apply mergePeriodData_assoc.
Qed.

Lemma mergeResults_comm (a b : ChannelResult num) :
  noBlank a -> noBlank b -> mergeResults zero add a b = mergeResults zero add b a.
Proof.
  intros [Hta Hpa] [Htb Hpb]. unfold mergeResults. f_equal.
  - by apply mergeTotals_comm.
  - by apply mergePeriodData_comm.
Qed.

End ExactTotals.


(** ** The tables: order and size *)

Lemma insertKey_ascending (k : string) (l : list string) :
  ascending l -> ascending (insertKey k l).
Proof.
  unfold ascending. induction l as [|h t IH]; intros Hs; cbn [insertKey].
  - by repeat constructor.
  - destruct (String.leb k h) eqn:E.
    + constructor; [done|]. by constructor.
    + apply Sorted_inv in Hs as [Ht Hh]. constructor; [by apply IH|].
      destruct t as [|h' t']; cbn [insertKey].
      * constructor. destruct (String.leb_total k h) as [H|H]; congruence.
      * apply HdRel_inv in Hh. destruct (String.leb k h'); constructor; [|done].
        destruct (String.leb_total k h) as [H|H]; congruence.
Qed.

Lemma insertKey_perm (k : string) (l : list string) : insertKey k l ≡ₚ k :: l.
Proof.
  induction l as [|h t IH]; cbn [insertKey]; [done|].
  destruct (String.leb k h); [done|]. rewrite IH. apply perm_swap.
Qed.

Lemma sortedKeys_perm {A : Type} (pd : gmap string A) :
  sortedKeys pd ≡ₚ (map_to_list pd).*1.
Proof.
  unfold sortedKeys. induction ((map_to_list pd).*1) as [|k l IH]; [done|].
  cbn [foldr]. by rewrite insertKey_perm, IH.
Qed.

Lemma sortedKeys_ascending {A : Type} (pd : gmap string A) : ascending (sortedKeys pd).
Proof.
  unfold sortedKeys. induction ((map_to_list pd).*1) as [|k l IH]; [constructor|].
  cbn [foldr]. by apply insertKey_ascending.
Qed.

Lemma sortedKeys_NoDup {A : Type} (pd : gmap string A) : NoDup (sortedKeys pd).
Proof. rewrite sortedKeys_perm. apply NoDup_fst_map_to_list. Qed.

Lemma sortedKeys_length {A : Type} (pd : gmap string A) : length (sortedKeys pd) = size pd.
Proof. by rewrite sortedKeys_perm, length_fmap, length_map_to_list. Qed.

Lemma sortedKeys_empty {A : Type} : sortedKeys (∅ : gmap string A) = [].
Proof. unfold sortedKeys. by rewrite map_to_list_empty. Qed.

Section Tables.

Variable g : Granularity.
Variable monthLabel : string -> string.

(** Every sorted key is a key of the map: [forEach] runs its body on each. *)
Lemma forEachPeriod_map {A : Type} (pd : gmap string (Bucket float))
    (f : string -> Bucket float -> list A) :
  forEachPeriod pd f
  = flat_map (fun k => f k (default (emptyPeriodData jsZero) (pd !! k))) (sortedKeys pd).
Proof.
  unfold forEachPeriod.
  assert (forall k, In k (sortedKeys pd) -> is_Some (pd !! k)) as Hin.
  { intros k Hk. by apply elem_of_sortedKeys, list_elem_of_In. }
  induction (sortedKeys pd) as [|k l IH]; [done|].
  cbn [flat_map]. rewrite IH by (intros; apply Hin; by right).
  destruct (Hin k) as [p Hp]; [by left|]. by rewrite Hp.
Qed.

Lemma flat_map_length_const {A B : Type} (f : A -> list B) (n : nat) (l : list A) :
  (forall x, length (f x) = n) -> length (flat_map f l) = (n * length l)%nat.
Proof.
  intros Hf. induction l as [|x l IH]; cbn [flat_map length]; [lia|].
  rewrite length_app, Hf, IH. lia.
Qed.

Lemma buildChartDataRows_length pd valueType :
  length (buildChartDataRows g monthLabel pd valueType) = size pd.
Proof.
  unfold buildChartDataRows. rewrite forEachPeriod_map.
  rewrite (flat_map_length_const _ 1) by done. rewrite sortedKeys_length. lia.
Qed.

Lemma buildChartDataRowsWithBlank_length pd valueType :
  length (buildChartDataRowsWithBlank g monthLabel pd valueType) = size pd.
Proof.
  unfold buildChartDataRowsWithBlank. rewrite forEachPeriod_map.
  rewrite (flat_map_length_const _ 1) by done. rewrite sortedKeys_length. lia.
Qed.

End Tables.

Lemma raw_table_shape (g : Granularity) (monthLabel : string -> string)
    (pd : gmap string (Bucket float)) :
  buildRawTabRows g monthLabel pd
  = rawHeader :: flat_map (fun k => rawRowsOf g monthLabel k
                                      (default (emptyPeriodData jsZero) (pd !! k)))
                          (sortedKeys pd) /\
  length (buildRawTabRows g monthLabel pd) = (1 + 2 * size pd)%nat.
Proof.
  assert (buildRawTabRows g monthLabel pd
          = rawHeader :: flat_map (fun k => rawRowsOf g monthLabel k
                                      (default (emptyPeriodData jsZero) (pd !! k)))
                          (sortedKeys pd)) as E.
  { unfold buildRawTabRows. by rewrite forEachPeriod_map. }
  split; [exact E|].
  rewrite E. cbn [length]. rewrite (flat_map_length_const _ 2) by done.
  by rewrite sortedKeys_length.
Qed.

(** X12: the raw table is its header followed, for each period key of the
    data, by the Branded and the Non-branded row of that period; the keys
    come in ascending order of strings, each of them once, so the table
    has one header and two rows per period. *)
Theorem raw_table_lists_the_periods_in_ascending_order
    (g : Granularity) (monthLabel : string -> string) (pd : gmap string (Bucket float)) :
  buildRawTabRows g monthLabel pd
  = rawHeader :: flat_map (fun k => rawRowsOf g monthLabel k
                                      (default (emptyPeriodData jsZero) (pd !! k)))
                          (sortedKeys pd) /\
  ascending (sortedKeys pd) /\
  NoDup (sortedKeys pd) /\
  (forall k, k ∈ sortedKeys pd <-> is_Some (pd !! k)) /\
  length (buildRawTabRows g monthLabel pd) = (1 + 2 * size pd)%nat.
Proof.
  destruct (raw_table_shape g monthLabel pd) as [E Hlen].
  split; [exact E|]. split; [apply sortedKeys_ascending|].
  split; [apply sortedKeys_NoDup|]. split; [intros k; apply elem_of_sortedKeys|exact Hlen].
Qed.

(** ** Traces of the run *)

Lemma bind_trace {A B : Type} (m : M A) (k : A -> M B) t a :
  m = (t, inr a) -> bind m k = ((t ++ fst (k a))%list, snd (k a)).
Proof. intros ->. unfold bind. by destruct (k a). Qed.

Lemma forEach_trace {A : Type} (f : A -> M unit) (g : A -> list Event) (l : list A) :
  (forall x, f x = (g x, inr tt)) -> forEach f l = (flat_map g l, inr tt).
Proof.
  intros Hf. induction l as [|x l IH]; [done|].
  cbn [forEach flat_map]. rewrite (bind_trace _ _ _ _ (Hf x)). by rewrite IH.
Qed.

Lemma buildChartDataRows_nil g ml pd valueType :
  buildChartDataRows g ml pd valueType = [] <-> pd = ∅.
Proof.
  rewrite <- length_zero_iff_nil, buildChartDataRows_length. apply map_size_empty_iff.
Qed.

Lemma buildChartDataRowsWithBlank_nil g ml pd valueType :
  buildChartDataRowsWithBlank g ml pd valueType = [] <-> pd = ∅.
Proof.
  rewrite <- length_zero_iff_nil, buildChartDataRowsWithBlank_length. apply map_size_empty_iff.
Qed.

Lemma writeMetricCharts_trace sheet header rows ratioRows :
  writeMetricCharts sheet header rows ratioRows
  = (match rows with [] => [] | _ => chartBlock sheet header rows ratioRows end, inr tt).
Proof. by destruct rows. Qed.

Lemma flat_map_all_nil {A B : Type} (f : A -> list B) (l : list A) :
  (forall x, f x = []) -> flat_map f l = [].
Proof. intros Hf. induction l as [|x l IH]; [done|]. cbn [flat_map]. by rewrite Hf, IH. Qed.

Lemma filter_chartBlock sheet header rows ratioRows :
  length (filter isInsertChart (chartBlock sheet header rows ratioRows)) = 2%nat.
Proof. reflexivity. Qed.

Section RunShape.

Variable cfg : Config.
Variable world : World.
Variable BRAND_PATTERNS : list RegExp.

Lemma writeChartsForView_trace pd tab :
  writeChartsForView cfg world pd tab
  = (EvSheet tab ::
       (if decide (pd = ∅) then []
        else flat_map (fun valueType =>
               chartBlock tab [CText "Period"; CText "Branded"; CText "Non-branded"]
                 (buildChartDataRows (TIME_GRANULARITY cfg) (monthLabel world) pd valueType)
                 (buildBrandedRatioRows (TIME_GRANULARITY cfg) (monthLabel world) pd valueType false))
             viewValueTypes),
     inr tt).
Proof.
  unfold writeChartsForView.
  rewrite (bind_trace _ _ [EvSheet tab] tt) by done.
  rewrite (forEach_trace _ (fun valueType =>
     match buildChartDataRows (TIME_GRANULARITY cfg) (monthLabel world) pd valueType with
     | [] => []
     | _ => chartBlock tab [CText "Period"; CText "Branded"; CText "Non-branded"]
              (buildChartDataRows (TIME_GRANULARITY cfg) (monthLabel world) pd valueType)
              (buildBrandedRatioRows (TIME_GRANULARITY cfg) (monthLabel world) pd valueType false)
     end)) by (intros; apply writeMetricCharts_trace).
  cbn [fst snd app]. f_equal. f_equal.
  destruct (decide (pd = ∅)) as [E|E].
  - apply flat_map_all_nil. intros vt.
    by rewrite (proj2 (buildChartDataRows_nil _ _ _ vt) E).
  - apply flat_map_ext. intros vt.
    destruct (buildChartDataRows _ _ pd vt) eqn:Er; [|done].
    by apply buildChartDataRows_nil in Er.
Qed.

Lemma writeChartsForCategoriesView_trace pd tab :
  writeChartsForCategoriesView cfg world pd tab
  = (EvSheet tab ::
       (if decide (pd = ∅) then []
        else flat_map (fun valueType =>
               chartBlock tab [CText "Period"; CText "Branded"; CText "Non-branded"; CText "Blank"]
                 (buildChartDataRowsWithBlank (TIME_GRANULARITY cfg) (monthLabel world) pd valueType)
                 (buildBrandedRatioRows (TIME_GRANULARITY cfg) (monthLabel world) pd valueType true))
             categoryValueTypes),
     inr tt).
Proof.
  unfold writeChartsForCategoriesView.
  rewrite (bind_trace _ _ [EvSheet tab] tt) by done.
  rewrite (forEach_trace _ (fun valueType =>
     match buildChartDataRowsWithBlank (TIME_GRANULARITY cfg) (monthLabel world) pd valueType with
     | [] => []
     | _ => chartBlock tab [CText "Period"; CText "Branded"; CText "Non-branded"; CText "Blank"]
              (buildChartDataRowsWithBlank (TIME_GRANULARITY cfg) (monthLabel world) pd valueType)
              (buildBrandedRatioRows (TIME_GRANULARITY cfg) (monthLabel world) pd valueType true)
     end)) by (intros; apply writeMetricCharts_trace).
  cbn [fst snd app]. f_equal. f_equal.
  destruct (decide (pd = ∅)) as [E|E].
  - apply flat_map_all_nil. intros vt.
    by rewrite (proj2 (buildChartDataRowsWithBlank_nil _ _ _ vt) E).
  - apply flat_map_ext. intros vt.
    destruct (buildChartDataRowsWithBlank _ _ pd vt) eqn:Er; [|done].
    by apply buildChartDataRowsWithBlank_nil in Er.
Qed.

(** A raw table has rows to write exactly when there is a period. *)
Lemma setValuesIfAny_raw sheet pd :
  setValuesIfAny sheet (buildRawTabRows (TIME_GRANULARITY cfg) (monthLabel world) pd)
  = if decide (pd = ∅) then ret tt
    else emit (EvSetValues sheet (buildRawTabRows (TIME_GRANULARITY cfg) (monthLabel world) pd)).
Proof.
  unfold setValuesIfAny.
  destruct (raw_table_shape (TIME_GRANULARITY cfg) (monthLabel world) pd) as [_ Hlen].
  rewrite Hlen. destruct (decide (pd = ∅)) as [->|E].
  - by rewrite map_size_empty.
  - apply map_size_non_empty_iff in E.
    destruct (1 <? 1 + 2 * size pd)%nat eqn:El; [done|]. apply Nat.ltb_ge in El. lia.
Qed.

Lemma buildRawTabRowsNoCost_length_ge pd :
  (1 + 2 * size pd <= length (buildRawTabRowsNoCost (TIME_GRANULARITY cfg) (monthLabel world) pd))%nat.
Proof.
  unfold buildRawTabRowsNoCost. cbn [length]. rewrite forEachPeriod_map.
  rewrite <- sortedKeys_length.
  induction (sortedKeys pd) as [|k l IH]; cbn [flat_map length]; [lia|].
  rewrite length_app. cbn [app length] in IH |- *. lia.
Qed.

Lemma setValuesIfAny_noCost sheet pd :
  setValuesIfAny sheet (buildRawTabRowsNoCost (TIME_GRANULARITY cfg) (monthLabel world) pd)
  = if decide (pd = ∅) then ret tt
    else emit (EvSetValues sheet
                 (buildRawTabRowsNoCost (TIME_GRANULARITY cfg) (monthLabel world) pd)).
Proof.
  unfold setValuesIfAny. destruct (decide (pd = ∅)) as [->|E].
  - unfold buildRawTabRowsNoCost, forEachPeriod. by rewrite sortedKeys_empty.
  - apply map_size_non_empty_iff in E. pose proof (buildRawTabRowsNoCost_length_ge pd) as Hlen.
    destruct (1 <? _)%nat eqn:El; [done|]. apply Nat.ltb_ge in El. lia.
Qed.

End RunShape.

(** ** The category source: its queries and its periods *)

Lemma foldM_trace {A S : Type} (f : S -> A -> M S) (g : A -> list Event) (h : S -> A -> S)
    (l : list A) :
  (forall s x, f s x = (g x, inr (h s x))) ->
  forall s, foldM f l s = (flat_map g l, inr (fold_left h l s)).
Proof.
  intros Hf. induction l as [|x l IH]; intros s; [done|].
  cbn [foldM flat_map fold_left]. rewrite (bind_trace _ _ _ _ (Hf s x)). by rewrite IH.
Qed.

Lemma fold_left_ext_in {A S : Type} (h h' : S -> A -> S) (l : list A) :
  (forall s x, h s x = h' s x) -> forall s, fold_left h l s = fold_left h' l s.
Proof.
  intros Hh. induction l as [|x l IH]; intros s; [done|]. cbn [fold_left]. by rewrite Hh, IH.
Qed.

Lemma map_subQueries (periods : list Period) (campaignIds : list string) :
  flat_map (fun period =>
              flat_map (fun campaignId => [EvSearch (QCampaignSearchTermInsight campaignId period)])
                       campaignIds) periods
  = map EvSearch (subQueries periods campaignIds).
Proof.
  assert (forall p, flat_map (fun campaignId =>
                        [EvSearch (QCampaignSearchTermInsight campaignId p)]) campaignIds
                    = map EvSearch (map (fun campaignId =>
                        QCampaignSearchTermInsight campaignId p) campaignIds)) as Hin.
  { intros p. induction campaignIds as [|c cs IHc]; [done|].
    cbn [flat_map map app]. by rewrite IHc. }
  unfold subQueries. induction periods as [|p ps IH]; [done|].
  cbn [flat_map]. by rewrite map_app, IH, Hin.
Qed.

Lemma subQueries_length (periods : list Period) (campaignIds : list string) :
  length (subQueries periods campaignIds) = (length periods * length campaignIds)%nat.
Proof.
  unfold subQueries. induction periods as [|p ps IH]; [done|].
  cbn [flat_map length]. by rewrite length_app, length_map, IH.
Qed.

Section CategorySource.

Variable cfg : Config.
Variable world : World.
Variable BRAND_PATTERNS : list RegExp.

(** What one sub-query leaves of the state. *)
Let subResult (period : Period) (st : ChannelResult float) (campaignId : string)
    : ChannelResult float :=
  match insightReport world campaignId period with
  | Some rows => insightRows (StringToNumber world) BRAND_PATTERNS (key period) rows st
  | None => st
  end.

Let periods : list Period :=
  getPeriodRanges (TIME_GRANULARITY cfg) (fst (dateRange cfg world)) (snd (dateRange cfg world)).

Lemma insightSubQuery_trace period st campaignId :
  insightSubQuery world BRAND_PATTERNS period st campaignId
  = ([EvSearch (QCampaignSearchTermInsight campaignId period)], inr (subResult period st campaignId)).
Proof. reflexivity. Qed.

Lemma processCampaignSearchTermInsight_trace :
  processCampaignSearchTermInsight cfg world BRAND_PATTERNS
  = (EvSearch QCampaign ::
       (if decide (campaignIdsOf (campaignRows world) = []) then []
        else map EvSearch (subQueries periods (campaignIdsOf (campaignRows world)))),
     inr (if decide (campaignIdsOf (campaignRows world) = [])
          then mkResult (mkBucket (emptyMetrics jsZero) (emptyMetrics jsZero) None) ∅
          else fold_left (fun st period =>
                            fold_left (subResult period) (campaignIdsOf (campaignRows world)) st)
                         periods insightStart)).
Proof.
  unfold processCampaignSearchTermInsight.
  rewrite (bind_trace _ _ [EvSearch QCampaign] (campaignRows world)) by done.
  destruct (decide (campaignIdsOf (campaignRows world) = [])) as [E|E]; [by rewrite E|].
  replace (length (campaignIdsOf (campaignRows world)) =? 0)%nat with false
    by (by destruct (campaignIdsOf (campaignRows world))).
  rewrite (foldM_trace _
             (fun period => flat_map (fun campaignId =>
                [EvSearch (QCampaignSearchTermInsight campaignId period)])
                (campaignIdsOf (campaignRows world)))
             (fun st period => fold_left (subResult period) (campaignIdsOf (campaignRows world)) st)).
  - cbn [fst snd app]. by rewrite map_subQueries.
  - intros st period. apply foldM_trace. intros; apply insightSubQuery_trace.
Qed.

End CategorySource.

(** X14: the category source first lists the campaigns; without a
    campaign id it queries nothing more; else it runs one sub-query per
    period and campaign, periods outermost, whatever the sub-queries
    return. *)
Theorem category_source_runs_one_query_per_period_and_campaign
    (cfg : Config) (world : World) (BRAND_PATTERNS : list RegExp) :
  fst (processCampaignSearchTermInsight cfg world BRAND_PATTERNS)
  = EvSearch QCampaign ::
      (if decide (campaignIdsOf (campaignRows world) = []) then []
       else map EvSearch
              (subQueries
                 (getPeriodRanges (TIME_GRANULARITY cfg)
                    (fst (dateRange cfg world)) (snd (dateRange cfg world)))
                 (campaignIdsOf (campaignRows world)))) /\
  length (fst (processCampaignSearchTermInsight cfg world BRAND_PATTERNS))
  = (if decide (campaignIdsOf (campaignRows world) = []) then 1
     else 1 + length (getPeriodRanges (TIME_GRANULARITY cfg)
                        (fst (dateRange cfg world)) (snd (dateRange cfg world)))
              * length (campaignIdsOf (campaignRows world)))%nat.
Proof.
  rewrite processCampaignSearchTermInsight_trace. cbn [fst]. split; [done|].
  destruct (decide _); [done|]. cbn [length]. by rewrite length_map, subQueries_length.
Qed.


(** ** A sheet identifier that cannot be read *)

Section SheetError.

Variable cfg : Config.
Variable world : World.
Variable BRAND_PATTERNS : list RegExp.

Lemma fetchCategories_trace :
  exists data,
    fetchCategories cfg world BRAND_PATTERNS = (categoryQueries cfg world, inr data).
Proof.
  unfold fetchCategories, categoryQueries.
  destruct (INCLUDE_PMAX_CATEGORIES cfg); [|by eexists].
  rewrite processCampaignSearchTermInsight_trace. eexists. unfold bind, ret.
  cbn [fst snd]. by rewrite app_nil_r.
Qed.

Lemma mainWith_sheet_error_trace e :
  getSheetId (SHEET_URL cfg) = inl e ->
  mainWith cfg world BRAND_PATTERNS
  = ((searchTermQueries ++ categoryQueries cfg world
        ++ [EvLog ("Script failed: Error: " +:+ e)])%list, inl e).
Proof.
  intros Hid.
  destruct (fetchSearchTerms_trace cfg world BRAND_PATTERNS)
    as [[[searchData shoppingData] pmaxData] Hfetch].
  destruct fetchCategories_trace as [data Hcat].
  unfold mainWith, mainBody. rewrite Hfetch. cbn [bind].
  rewrite Hcat. cbn [bind]. unfold resolveSheetId. rewrite Hid.
  cbn [bind throw]. by rewrite app_nil_r, <- app_assoc.
Qed.

Lemma categoryQueries_searches :
  Forall (fun ev => isSearch ev = true) (categoryQueries cfg world).
Proof.
  unfold categoryQueries. destruct (INCLUDE_PMAX_CATEGORIES cfg); [|constructor].
  constructor; [done|]. destruct (decide _); [constructor|].
  apply Forall_forall. intros ev Hev. by apply list_elem_of_fmap in Hev as (q & -> & _).
Qed.

End SheetError.

(** C4 (amended): an unparseable sheet identifier is fatal: [main] logs the
    error and throws it again, and no call on the spreadsheet is made.
    The identifier is read after the data fetches, though: by then the
    run has executed the three search-term queries and, when
    [INCLUDE_PMAX_CATEGORIES] is set, the campaign query of the category
    source and one sub-query for every period and campaign; these, in
    this order, and the line logged for the failure are the whole trace. *)
Theorem sheet_error_is_fatal_after_the_fetches (cfg : Config) (world : World)
    (BRAND_PATTERNS : list RegExp) (e : string) :
  buildBrandPatterns (BRAND_TOKENS cfg) = Some BRAND_PATTERNS ->
  getSheetId (SHEET_URL cfg) = inl e ->
  main cfg world
  = Some ((searchTermQueries ++ categoryQueries cfg world
             ++ [EvLog ("Script failed: Error: " +:+ e)])%list, inl e) /\
  Forall (fun ev => isSheetCall ev = false)
    (searchTermQueries ++ categoryQueries cfg world
       ++ [EvLog ("Script failed: Error: " +:+ e)])%list.
Proof.
  intros Hpats Hid. unfold main. rewrite Hpats.
  rewrite (mainWith_sheet_error_trace cfg world BRAND_PATTERNS e Hid).
  split; [done|].
  apply Forall_app. split; [by repeat constructor|].
  apply Forall_app. split; [|by repeat constructor].
  eapply Forall_impl; [apply categoryQueries_searches|]. by intros [].
Qed.

Lemma sheet_error_is_fatal_after_the_fetches_witness :
  main (exampleConfig "https://example.com/sheet") januaryWorld
  = Some ((searchTermQueries
             ++ categoryQueries (exampleConfig "https://example.com/sheet") januaryWorld
             ++ [EvLog ("Script failed: Error: " +:+ "Invalid Google Sheet URL or ID format")])%list,
          inl "Invalid Google Sheet URL or ID format") /\
  Forall (fun ev => isSheetCall ev = false)
    (searchTermQueries
       ++ categoryQueries (exampleConfig "https://example.com/sheet") januaryWorld
       ++ [EvLog ("Script failed: Error: " +:+ "Invalid Google Sheet URL or ID format")])%list.
Proof.
  apply (sheet_error_is_fatal_after_the_fetches
           (exampleConfig "https://example.com/sheet") januaryWorld foodsistersPatterns).
  - vm_compute. reflexivity.
  - vm_compute. reflexivity.
Defined.

(** With one campaign and a lookback over four months, eight queries run
    before the error is found. *)
Example sheet_error_after_eight_queries :
  fst (default ([], inr tt) (main (exampleConfig "https://example.com/sheet") januaryWorld))
  = [EvSearch (QSearchTermView "SEARCH");
     EvSearch (QSearchTermView "SHOPPING");
     EvSearch QCampaignSearchTermView;
     EvSearch QCampaign;
     EvSearch (QCampaignSearchTermInsight "123" (mkPeriod "2023-10" "2023-10-17" "2023-10-31"));
     EvSearch (QCampaignSearchTermInsight "123" (mkPeriod "2023-11" "2023-11-01" "2023-11-30"));
     EvSearch (QCampaignSearchTermInsight "123" (mkPeriod "2023-12" "2023-12-01" "2023-12-31"));
     EvSearch (QCampaignSearchTermInsight "123" (mkPeriod "2024-01" "2024-01-01" "2024-01-15"));
     EvLog "Script failed: Error: Invalid Google Sheet URL or ID format"].
Proof. vm_compute. reflexivity. Qed.

(** C4 (as stated): with a sheet URL that has no [/d/] part the run fails,
    but only after four report queries. *)
Lemma sheet_error_comes_after_queries :
  getSheetId "https://example.com/sheet" = inl "Invalid Google Sheet URL or ID format" /\
  main (exampleConfig "https://example.com/sheet") quietWorld
  = Some ([EvSearch (QSearchTermView "SEARCH");
           EvSearch (QSearchTermView "SHOPPING");
           EvSearch QCampaignSearchTermView;
           EvSearch QCampaign;
           EvLog "Script failed: Error: Invalid Google Sheet URL or ID format"],
          inl "Invalid Google Sheet URL or ID format").
Proof. split; vm_compute; reflexivity. Qed.

Section CategoryPeriods.

Variable StringToNumber : string -> float.
Variable BRAND_PATTERNS : list RegExp.

(** One sub-query adds its period key, and only when it has a row. *)
Lemma insightRows_dom periodKey (rows : list Row) : forall st,
  resultHasBlank st ->
  dom (periodData (insightRows StringToNumber BRAND_PATTERNS periodKey rows st))
  = dom (periodData st) ∪ (match rows with [] => ∅ | _ => {[periodKey]} end : gset string).
Proof.
  induction rows as [|row rest IH]; intros st Hst; [set_solver|].
  change (row :: rest) with ([row] ++ rest)%list at 1.
  rewrite insightRows_app by done.
  rewrite IH by (by apply insightRows_hasBlank).
  assert (dom (periodData (insightRows StringToNumber BRAND_PATTERNS periodKey [row] st))
          = dom (periodData st) ∪ ({[periodKey]} : gset string)) as ->.
  { pose proof (insightRows_hasBlank StringToNumber BRAND_PATTERNS periodKey [row] st Hst) as Hone.
    cbn [insightRows] in *. destruct Hst as [[tb Ht] Hp].
    destruct (updateCategory _ (totals st) (categoryOf BRAND_PATTERNS row)) as [totals'|] eqn:Eu.
    - destruct (addRowToPeriodDataWithBlank _ _ _ _ _ _) as [pd'|] eqn:Ea.
      + apply addRowWithBlank_Some in Ea as (b' & _ & ->). cbn [periodData].
        rewrite dom_insert_L. set_solver.
      + exfalso. unfold addRowToPeriodDataWithBlank in Ea.
        assert (is_Some (blank match periodData st !! periodKey with
                               | Some b => b
                               | None => emptyPeriodDataWithBlank jsZero
                               end)) as [m Hm].
        { destruct (periodData st !! periodKey) as [b0|] eqn:E; [by eapply Hp|by eexists]. }
        destruct (categoryOf BRAND_PATTERNS row); simpl in Ea; try discriminate.
        by rewrite Hm in Ea.
    - exfalso. destruct (categoryOf BRAND_PATTERNS row); simpl in Eu; try discriminate.
      by rewrite Ht in Eu. }
  destruct rest; set_solver.
Qed.

Variable report : string -> Period -> option (list Row).

Let subResult (period : Period) (st : ChannelResult float) (campaignId : string)
    : ChannelResult float :=
  match report campaignId period with
  | Some rows => insightRows StringToNumber BRAND_PATTERNS (key period) rows st
  | None => st
  end.

Lemma subResult_hasBlank period st campaignId :
  resultHasBlank st -> resultHasBlank (subResult period st campaignId).
Proof.
  intros Hst. unfold subResult. destruct (report campaignId period); [|done].
  by apply insightRows_hasBlank.
Qed.

Lemma campaigns_dom period (campaignIds : list string) : forall st,
  resultHasBlank st ->
  resultHasBlank (fold_left (subResult period) campaignIds st) /\
  forall k, k ∈ dom (periodData (fold_left (subResult period) campaignIds st)) <->
            k ∈ dom (periodData st) \/
            (k = key period /\
             exists campaignId row rows,
               In campaignId campaignIds /\ report campaignId period = Some (row :: rows)).
Proof.
  induction campaignIds as [|c cs IH]; intros st Hst; cbn [fold_left].
  - split; [done|]. intros k. split; [by left|]. intros [H|(_ & c & row & rows & [] & _)]. done.
  - destruct (IH (subResult period st c) (subResult_hasBlank period st c Hst)) as [Hb Hd].
    split; [done|]. intros k. rewrite Hd. unfold subResult at 1.
    destruct (report c period) as [rows|] eqn:Er.
    + rewrite insightRows_dom by done. destruct rows as [|row rows].
      * split.
        -- intros [H|(-> & c' & row & rows & Hin & Hr)]; [left; set_solver|].
           right. split; [done|]. exists c', row, rows. split; [by right|done].
        -- intros [H|(-> & c' & row & rows & [<-|Hin] & Hr)]; [left; set_solver|congruence|].
           right. split; [done|]. by exists c', row, rows.
      * split.
        -- intros [H|(-> & c' & row' & rows' & Hin & Hr)].
           ++ apply elem_of_union in H as [H|H]; [by left|]. right.
              apply elem_of_singleton in H as ->. split; [done|].
              exists c, row, rows. split; [by left|done].
           ++ right. split; [done|]. exists c', row', rows'. split; [by right|done].
        -- intros [H|(-> & c' & row' & rows' & [<-|Hin] & Hr)].
           ++ left. set_solver.
           ++ left. set_solver.
           ++ right. split; [done|]. by exists c', row', rows'.
    + split.
      * intros [H|(-> & c' & row & rows & Hin & Hr)]; [by left|].
        right. split; [done|]. exists c', row, rows. split; [by right|done].
      * intros [H|(-> & c' & row & rows & [<-|Hin] & Hr)]; [by left|congruence|].
        right. split; [done|]. by exists c', row, rows.
Qed.

Lemma periods_dom (campaignIds : list string) (periods : list Period) : forall st,
  resultHasBlank st ->
  forall k, k ∈ dom (periodData (fold_left (fun st period =>
                                   fold_left (subResult period) campaignIds st) periods st)) <->
            k ∈ dom (periodData st) \/
            exists period campaignId row rows,
              In period periods /\ key period = k /\ In campaignId campaignIds /\
              report campaignId period = Some (row :: rows).
Proof.
  induction periods as [|p ps IH]; intros st Hst k; cbn [fold_left].
  - split; [by left|]. intros [H|(p & _ & _ & _ & [] & _)]. done.
  - destruct (campaigns_dom p campaignIds st Hst) as [Hb Hd].
    rewrite IH by done. rewrite Hd. split.
    + intros [[H|(-> & c & row & rows & Hin & Hr)]|(p' & c & row & rows & Hp & Hk & Hin & Hr)].
      * by left.
      * right. exists p, c, row, rows. split; [by left|done].
      * right. exists p', c, row, rows. split; [by right|done].
    + intros [H|(p' & c & row & rows & [<-|Hp] & Hk & Hin & Hr)].
      * left. by left.
      * left. right. split; [done|]. by exists c, row, rows.
      * right. by exists p', c, row, rows.
Qed.

End CategoryPeriods.

(** X16: the category result has a bucket for a period key exactly when a
    sub-query for an enumerated period with that key, and for one of the
    listed campaigns, returned at least one row. *)
Theorem category_periods_are_those_with_a_row
    (cfg : Config) (world : World) (BRAND_PATTERNS : list RegExp)
    (r : ChannelResult float) (k : string) :
  snd (processCampaignSearchTermInsight cfg world BRAND_PATTERNS) = inr r ->
  (is_Some (periodData r !! k) <->
   exists period campaignId row rows,
     In period (getPeriodRanges (TIME_GRANULARITY cfg)
                  (fst (dateRange cfg world)) (snd (dateRange cfg world))) /\
     key period = k /\
     In campaignId (campaignIdsOf (campaignRows world)) /\
     insightReport world campaignId period = Some (row :: rows)).
Proof.
  rewrite processCampaignSearchTermInsight_trace. cbn [snd]. intros [= <-].
  rewrite <- elem_of_dom. destruct (decide _) as [E|E].
  - cbn [periodData]. rewrite dom_empty_L. split; [set_solver|].
    intros (_ & c & _ & _ & _ & _ & Hin & _). rewrite E in Hin. destruct Hin.
  - rewrite (periods_dom (StringToNumber world) BRAND_PATTERNS (insightReport world)
               _ _ insightStart (insightStart_hasBlank)).
    cbn [insightStart periodData]. rewrite dom_empty_L. split; [|by right].
    intros [H|H]; [set_solver|done].
Qed.

Lemma category_periods_are_those_with_a_row_witness :
  is_Some (periodData
             (resultOr insightStart
                (processCampaignSearchTermInsight (exampleConfig "sheet") januaryWorld
                   foodsistersPatterns)) !! "2024-01")
  <-> exists period campaignId row rows,
        In period (getPeriodRanges (TIME_GRANULARITY (exampleConfig "sheet"))
                     (fst (dateRange (exampleConfig "sheet") januaryWorld))
                     (snd (dateRange (exampleConfig "sheet") januaryWorld))) /\
        key period = "2024-01" /\
        In campaignId (campaignIdsOf (campaignRows januaryWorld)) /\
        insightReport januaryWorld campaignId period = Some (row :: rows).
Proof.
  apply (category_periods_are_those_with_a_row (exampleConfig "sheet") januaryWorld
           foodsistersPatterns).
  vm_compute. reflexivity.
Defined.

(** The lookback of ninety days from 15 January 2024 spans four months; only
    the one with a row gets a bucket. *)
Example january_is_the_only_category_period :
  dom (periodData
         (resultOr insightStart
            (processCampaignSearchTermInsight (exampleConfig "sheet") januaryWorld
               foodsistersPatterns)))
  = ({["2024-01"]} : gset string) /\
  map key (getPeriodRanges Month (fst (dateRange (exampleConfig "sheet") januaryWorld))
             (snd (dateRange (exampleConfig "sheet") januaryWorld)))
  = ["2023-10"; "2023-11"; "2023-12"; "2024-01"].
Proof. split; vm_compute; reflexivity. Qed.

(** ** The writes of a run *)

(** X13: a chart tab is created even for empty data and then left
    without chart; otherwise it receives, per metric and in the order of
    the metrics, the bar data, the ratio data and two charts: fourteen
    charts for a view and eight for the category view. *)
Theorem chart_tabs_hold_two_charts_per_metric
    (cfg : Config) (world : World) (pd : gmap string (Bucket float)) (tab : string) :
  writeChartsForView cfg world pd tab
  = (EvSheet tab ::
       (if decide (pd = ∅) then []
        else flat_map (fun valueType =>
               chartBlock tab [CText "Period"; CText "Branded"; CText "Non-branded"]
                 (buildChartDataRows (TIME_GRANULARITY cfg) (monthLabel world) pd valueType)
                 (buildBrandedRatioRows (TIME_GRANULARITY cfg) (monthLabel world) pd valueType false))
             viewValueTypes),
     inr tt) /\
  writeChartsForCategoriesView cfg world pd tab
  = (EvSheet tab ::
       (if decide (pd = ∅) then []
        else flat_map (fun valueType =>
               chartBlock tab [CText "Period"; CText "Branded"; CText "Non-branded"; CText "Blank"]
                 (buildChartDataRowsWithBlank (TIME_GRANULARITY cfg) (monthLabel world) pd valueType)
                 (buildBrandedRatioRows (TIME_GRANULARITY cfg) (monthLabel world) pd valueType true))
             categoryValueTypes),
     inr tt) /\
  length (filter isInsertChart (fst (writeChartsForView cfg world pd tab)))
  = (if decide (pd = ∅) then 0 else 14)%nat /\
  length (filter isInsertChart (fst (writeChartsForCategoriesView cfg world pd tab)))
  = (if decide (pd = ∅) then 0 else 8)%nat.
Proof.
  rewrite writeChartsForView_trace, writeChartsForCategoriesView_trace.
  split; [done|]. split; [done|]. cbn [fst]. by destruct (decide (pd = ∅)).
Qed.

Section Writes.

Variable cfg : Config.
Variable world : World.

Lemma setValuesIfAny_raw_trace sheet pd :
  setValuesIfAny sheet (buildRawTabRows (TIME_GRANULARITY cfg) (monthLabel world) pd)
  = (if decide (pd = ∅) then []
     else [EvSetValues sheet (buildRawTabRows (TIME_GRANULARITY cfg) (monthLabel world) pd)],
     inr tt).
Proof. rewrite setValuesIfAny_raw. by destruct (decide (pd = ∅)). Qed.

Lemma setValuesIfAny_noCost_trace sheet pd :
  setValuesIfAny sheet (buildRawTabRowsNoCost (TIME_GRANULARITY cfg) (monthLabel world) pd)
  = (if decide (pd = ∅) then []
     else [EvSetValues sheet
             (buildRawTabRowsNoCost (TIME_GRANULARITY cfg) (monthLabel world) pd)],
     inr tt).
Proof. rewrite setValuesIfAny_noCost. by destruct (decide (pd = ∅)). Qed.

Lemma rawTab_trace name pd :
  bind (getOrCreateSheet name)
       (fun _ => setValuesIfAny name
                   (buildRawTabRows (TIME_GRANULARITY cfg) (monthLabel world) pd))
  = (rawTabEvents cfg world name pd, inr tt).
Proof.
  rewrite (bind_trace _ _ [EvSheet name] tt) by done. by rewrite setValuesIfAny_raw_trace.
Qed.

Lemma writeInfoAndRawTabs_trace combined byType :
  writeInfoAndRawTabs cfg world combined byType
  = (EvSheet "Info" :: EvInfo ::
       rawTabEvents cfg world "Raw - Combined" (periodData combined) ++
       match byType with
       | Some byType =>
           if INCLUDE_BY_CAMPAIGN_TYPE cfg then
             flat_map (fun '(channel, data) =>
                         rawTabEvents cfg world ("Raw - " +:+ channel) (periodData data))
                      (channelsOf byType)
           else []
       | None => []
       end,
     inr tt).
Proof.
  unfold writeInfoAndRawTabs.
  rewrite (bind_trace _ _ [EvSheet "Info"] tt) by done.
  rewrite (bind_trace _ _ [EvInfo] tt) by done.
  rewrite (bind_trace _ _ [EvSheet "Raw - Combined"] tt) by done.
  rewrite (bind_trace _ _ _ tt (setValuesIfAny_raw_trace _ _)).
  assert (forall bt,
    forEach (fun '(channel, data) =>
               bind (getOrCreateSheet ("Raw - " +:+ channel))
                 (fun _ => setValuesIfAny ("Raw - " +:+ channel)
                    (buildRawTabRows (TIME_GRANULARITY cfg) (monthLabel world) (periodData data))))
            (channelsOf bt)
    = (flat_map (fun '(channel, data) =>
                   rawTabEvents cfg world ("Raw - " +:+ channel) (periodData data))
                (channelsOf bt), inr tt)) as Heach.
  { intros bt. apply forEach_trace. intros [channel data]. apply rawTab_trace. }
  unfold rawTabEvents at 1.
  destruct byType as [bt|]; [destruct (INCLUDE_BY_CAMPAIGN_TYPE cfg)|].
  - by rewrite Heach.
  - cbn [ret fst snd app]. by rewrite app_nil_r.
  - cbn [ret fst snd app]. by rewrite app_nil_r.
Qed.

Lemma writePmaxCategoriesTab_trace pmaxCategoriesData :
  writePmaxCategoriesTab cfg world pmaxCategoriesData
  = (match pmaxCategoriesData with
     | Some data =>
         if INCLUDE_PMAX_CATEGORIES cfg then
           EvSheet "Raw - Pmax Categories" ::
           (if decide (periodData data = ∅) then []
            else [EvSetValues "Raw - Pmax Categories"
                    (buildRawTabRowsNoCost (TIME_GRANULARITY cfg) (monthLabel world)
                       (periodData data))])
         else []
     | None => []
     end, inr tt).
Proof.
  unfold writePmaxCategoriesTab.
  destruct pmaxCategoriesData as [data|]; [destruct (INCLUDE_PMAX_CATEGORIES cfg)|]; try done.
  rewrite (bind_trace _ _ [EvSheet "Raw - Pmax Categories"] tt) by done.
  by rewrite setValuesIfAny_noCost_trace.
Qed.

End Writes.

(** X17: [writeInfoAndRawTabs] fills the Info tab, then creates the
    combined raw tab and, when the per-channel tabs are enabled, the
    Search, Pmax and Shopping raw tabs in that order; a raw tab receives
    its table only when its data has a period, and the header alone is
    never written.  The same holds for the category raw tab. *)
Theorem raw_tab_gets_its_table_only_when_there_is_a_period
    (cfg : Config) (world : World) (combined : ChannelResult float) (byType : option ByType)
    (pmaxCategoriesData : option (ChannelResult float)) :
  writeInfoAndRawTabs cfg world combined byType
  = (EvSheet "Info" :: EvInfo ::
       rawTabEvents cfg world "Raw - Combined" (periodData combined) ++
       match byType with
       | Some byType =>
           if INCLUDE_BY_CAMPAIGN_TYPE cfg then
             flat_map (fun '(channel, data) =>
                         rawTabEvents cfg world ("Raw - " +:+ channel) (periodData data))
                      (channelsOf byType)
           else []
       | None => []
       end,
     inr tt) /\
  writePmaxCategoriesTab cfg world pmaxCategoriesData
  = (match pmaxCategoriesData with
     | Some data =>
         if INCLUDE_PMAX_CATEGORIES cfg then
           EvSheet "Raw - Pmax Categories" ::
           (if decide (periodData data = ∅) then []
            else [EvSetValues "Raw - Pmax Categories"
                    (buildRawTabRowsNoCost (TIME_GRANULARITY cfg) (monthLabel world)
                       (periodData data))])
         else []
     | None => []
     end, inr tt).
Proof. split; [apply writeInfoAndRawTabs_trace|apply writePmaxCategoriesTab_trace]. Qed.

(** ** A run that succeeds *)

Lemma tabsOnly_ret : tabsOnly (ret tt).
Proof. by split; [constructor|]. Qed.

Lemma tabsOnly_emit e : isTabCall e = true -> tabsOnly (emit e).
Proof. intros He. split; [by repeat constructor|done]. Qed.

Lemma tabsOnly_bind (m : M unit) (k : unit -> M unit) :
  tabsOnly m -> tabsOnly (k tt) -> tabsOnly (bind m k).
Proof.
  destruct m as [t [e|[]]]; intros [Ht Hr] [Ht' Hr']; simpl in *; [discriminate|].
  destruct (k tt) as [t' r]; simpl in *. split; [by apply Forall_app|done].
Qed.

Lemma tabsOnly_forEach {A : Type} (f : A -> M unit) (l : list A) :
  (forall x, tabsOnly (f x)) -> tabsOnly (forEach f l).
Proof.
  intros Hf. induction l as [|x l IH]; [apply tabsOnly_ret|].
  cbn [forEach]. by apply tabsOnly_bind.
Qed.

Lemma tabsOnly_run (m : M unit) : tabsOnly m -> m = (fst m, inr tt).
Proof. destruct m as [t r]. intros [_ H]. simpl in *. by subst. Qed.

Section Success.

Variable cfg : Config.
Variable world : World.
Variable BRAND_PATTERNS : list RegExp.

Lemma tabsOnly_setValuesIfAny sheet rows : tabsOnly (setValuesIfAny sheet rows).
Proof.
  unfold setValuesIfAny. destruct (1 <? length rows)%nat; [by apply tabsOnly_emit|apply tabsOnly_ret].
Qed.

Lemma tabsOnly_writeMetricCharts sheet header rows ratioRows :
  tabsOnly (writeMetricCharts sheet header rows ratioRows).
Proof. destruct rows; [apply tabsOnly_ret|]. split; [by repeat constructor|done]. Qed.

Lemma tabsOnly_writeChartsForView pd tab : tabsOnly (writeChartsForView cfg world pd tab).
Proof.
  unfold writeChartsForView. apply tabsOnly_bind; [by apply tabsOnly_emit|].
  apply tabsOnly_forEach. intros; apply tabsOnly_writeMetricCharts.
Qed.

Lemma tabsOnly_writeChartsForCategoriesView pd tab :
  tabsOnly (writeChartsForCategoriesView cfg world pd tab).
Proof.
  unfold writeChartsForCategoriesView. apply tabsOnly_bind; [by apply tabsOnly_emit|].
  apply tabsOnly_forEach. intros; apply tabsOnly_writeMetricCharts.
Qed.

Lemma tabsOnly_writeAllCharts combined byType :
  tabsOnly (writeAllCharts cfg world combined byType).
Proof.
  unfold writeAllCharts. apply tabsOnly_bind; [apply tabsOnly_writeChartsForView|].
  destruct byType as [[[searchData pmaxData] shoppingData]|]; [|apply tabsOnly_ret].
  destruct (INCLUDE_BY_CAMPAIGN_TYPE cfg); [|apply tabsOnly_ret].
  repeat (apply tabsOnly_bind; [apply tabsOnly_writeChartsForView|]).
  apply tabsOnly_writeChartsForView.
Qed.

Lemma tabsOnly_writePmaxCategoriesTab data : tabsOnly (writePmaxCategoriesTab cfg world data).
Proof.
  unfold writePmaxCategoriesTab. destruct data; [|apply tabsOnly_ret].
  destruct (INCLUDE_PMAX_CATEGORIES cfg); [|apply tabsOnly_ret].
  apply tabsOnly_bind; [by apply tabsOnly_emit|apply tabsOnly_setValuesIfAny].
Qed.

Lemma tabsOnly_writePmaxCategoriesCharts data :
  tabsOnly (writePmaxCategoriesCharts cfg world data).
Proof.
  unfold writePmaxCategoriesCharts. destruct data; [|apply tabsOnly_ret].
  destruct (INCLUDE_PMAX_CATEGORIES cfg); [|apply tabsOnly_ret].
  apply tabsOnly_writeChartsForCategoriesView.
Qed.

(** After the Info tab, [writeInfoAndRawTabs] only calls on tabs. *)
Lemma writeInfoAndRawTabs_tabs combined byType :
  exists raws,
    writeInfoAndRawTabs cfg world combined byType = (EvSheet "Info" :: EvInfo :: raws, inr tt) /\
    Forall (fun e => isTabCall e = true) raws.
Proof.
  eexists. split; [apply writeInfoAndRawTabs_trace|].
  assert (forall name pd, Forall (fun e => isTabCall e = true) (rawTabEvents cfg world name pd))
    as Hraw.
  { intros name pd. unfold rawTabEvents. destruct (decide (pd = ∅)); by repeat constructor. }
  apply Forall_app. split; [apply Hraw|].
  destruct byType as [[[searchData pmaxData] shoppingData]|]; [|constructor].
  destruct (INCLUDE_BY_CAMPAIGN_TYPE cfg); [|constructor].
  cbn [channelsOf flat_map]. repeat (apply Forall_app; split; [apply Hraw|]). constructor.
Qed.

Lemma writeReport_trace combined byType pmaxCategoriesData :
  exists writes,
    writeReport cfg world combined byType pmaxCategoriesData
    = ((EvSheet "Info" :: EvInfo :: writes
          ++ [EvReorderTabs; EvLog "Script completed successfully."])%list, inr tt) /\
    Forall (fun e => isTabCall e = true) writes.
Proof.
  destruct (writeInfoAndRawTabs_tabs combined byType) as (raws & Hraws & Hforall).
  pose proof (tabsOnly_writePmaxCategoriesTab pmaxCategoriesData) as Hb.
  pose proof (tabsOnly_writeAllCharts combined byType) as Hc.
  pose proof (tabsOnly_writePmaxCategoriesCharts pmaxCategoriesData) as Hd.
  exists (raws ++ fst (writePmaxCategoriesTab cfg world pmaxCategoriesData)
               ++ fst (writeAllCharts cfg world combined byType)
               ++ fst (writePmaxCategoriesCharts cfg world pmaxCategoriesData))%list.
  split.
  - unfold writeReport.
    rewrite (bind_trace _ _ _ tt Hraws).
    rewrite (bind_trace _ _ _ tt (tabsOnly_run _ Hb)).
    rewrite (bind_trace _ _ _ tt (tabsOnly_run _ Hc)).
    rewrite (bind_trace _ _ _ tt (tabsOnly_run _ Hd)).
    unfold reorderTabs. cbn [bind emit fst snd]. f_equal.
    cbn [app]. f_equal. f_equal. by rewrite <- !app_assoc.
  - repeat (apply Forall_app; split); [done|apply Hb|apply Hc|apply Hd].
Qed.

Lemma mainWith_success id :
  getSheetId (SHEET_URL cfg) = inr id ->
  exists fetches writes,
    mainWith cfg world BRAND_PATTERNS
    = ((searchTermQueries ++ fetches ++ EvOpenById id :: EvSheet "Info" :: EvInfo :: writes
          ++ [EvReorderTabs; EvLog "Script completed successfully."])%list, inr tt) /\
    Forall (fun ev => isSearch ev = true) fetches /\
    Forall (fun ev => isTabCall ev = true) writes /\
    (INCLUDE_PMAX_CATEGORIES cfg = false -> fetches = []).
Proof.
  intros Hid.
  destruct (fetchSearchTerms_trace cfg world BRAND_PATTERNS)
    as [[[searchData shoppingData] pmaxData] Hfetch].
  destruct (fetchesOnly_categories cfg world BRAND_PATTERNS) as [Hsearches [cats Hcats]].
  destruct (fetchCategories cfg world BRAND_PATTERNS) as [fetches r] eqn:Ecat.
  simpl in Hsearches, Hcats. subst r.
  assert (exists writes,
            mainWith cfg world BRAND_PATTERNS
            = ((searchTermQueries ++ fetches ++ EvOpenById id :: EvSheet "Info" :: EvInfo :: writes
                  ++ [EvReorderTabs; EvLog "Script completed successfully."])%list, inr tt) /\
            Forall (fun ev => isTabCall ev = true) writes) as (writes & Hmain & Htabs).
  { unfold mainWith, mainBody. rewrite Hfetch. cbn [bind].
    rewrite Ecat. cbn [bind]. unfold resolveSheetId. rewrite Hid.
    cbn [bind ret emit].
    match goal with
    | |- context [writeReport _ _ ?combined ?byType ?data] =>
        destruct (writeReport_trace combined byType data) as (writes & Hwrites & Htabs)
    end.
    exists writes. split; [|done]. by rewrite Hwrites. }
  exists fetches, writes. split; [done|split; [done|split; [done|]]].
  intros Hoff. rewrite fetchCategories_disabled in Ecat by done.
    by injection Ecat as <- _.
Qed.

End Success.

(** X18: when the sheet identifier is readable and no service fails, a
    run makes its report queries first, then opens the spreadsheet once,
    fills the Info tab, calls on tabs only, reorders the tabs and logs its
    success last; it returns normally and logs no failure. *)
Theorem successful_run_queries_then_opens_the_sheet_then_writes
    (cfg : Config) (world : World) (BRAND_PATTERNS : list RegExp) (id : string) :
  buildBrandPatterns (BRAND_TOKENS cfg) = Some BRAND_PATTERNS ->
  getSheetId (SHEET_URL cfg) = inr id ->
  exists fetches writes,
    main cfg world
    = Some ((searchTermQueries ++ fetches ++ EvOpenById id :: EvSheet "Info" :: EvInfo :: writes
               ++ [EvReorderTabs; EvLog "Script completed successfully."])%list, inr tt) /\
    Forall (fun ev => isSearch ev = true) fetches /\
    Forall (fun ev => isTabCall ev = true) writes /\
    (INCLUDE_PMAX_CATEGORIES cfg = false -> fetches = []).
Proof.
  intros Hpats Hid.
  destruct (mainWith_success cfg world BRAND_PATTERNS id Hid) as (fetches & writes & Hrun & H).
  exists fetches, writes. unfold main. by rewrite Hpats, Hrun.
Qed.

Lemma successful_run_queries_then_opens_the_sheet_then_writes_witness :
  exists fetches writes,
    main (exampleConfig "1ysIP5kMNCuBI5uVzf6V-Xw6knCCSGMCEXw1B5i8zURY") quietWorld
    = Some ((searchTermQueries ++ fetches
               ++ EvOpenById "1ysIP5kMNCuBI5uVzf6V-Xw6knCCSGMCEXw1B5i8zURY"
               :: EvSheet "Info" :: EvInfo :: writes
               ++ [EvReorderTabs; EvLog "Script completed successfully."])%list, inr tt) /\
    Forall (fun ev => isSearch ev = true) fetches /\
    Forall (fun ev => isTabCall ev = true) writes /\
    (INCLUDE_PMAX_CATEGORIES (exampleConfig "1ysIP5kMNCuBI5uVzf6V-Xw6knCCSGMCEXw1B5i8zURY") = false
     -> fetches = []).
Proof.
  apply (successful_run_queries_then_opens_the_sheet_then_writes
           (exampleConfig "1ysIP5kMNCuBI5uVzf6V-Xw6knCCSGMCEXw1B5i8zURY") quietWorld
           foodsistersPatterns).
  - vm_compute. reflexivity.
  - vm_compute. reflexivity.
Defined.

(** ** The date range *)



(** ** Period keys sort as dates *)



Section KeyOrder.

Local Open Scope Z_scope.




Lemma DayFromYear_le y y' : y <= y' -> DayFromYear y <= DayFromYear y'.
Proof.
  intros H. destruct (Z.eq_dec y y') as [->|Hne]; [lia|].
  apply Z.lt_le_incl, DayFromYear_mono. lia.
Qed.










End KeyOrder.


(** ** The category table lists its periods in the order of time *)

















(** ** The sum of the buckets across merges *)

Section ExactMerges.

Context {num : Type} (zero : num) (add : num -> num -> num).

Hypothesis add_assoc : forall a b c, add a (add b c) = add (add a b) c.
Hypothesis add_comm : forall a b, add a b = add b a.
Hypothesis add_zero_l : forall a, add zero a = a.

Lemma sumBuckets_mergePeriodKey (pd : gmap string (Bucket num)) k sb :
  sumBuckets zero add (mergePeriodKey zero add k sb pd)
  = mergeTotals add (sumBuckets zero add pd) sb.
Proof.
  rewrite mergePeriodKey_insert.
  destruct (pd !! k) as [x|] eqn:E; cbn [default from_option].
  - rewrite <- (insert_delete_id pd k x E) at 2.
    rewrite <- (insert_delete_eq pd k).
    rewrite !(sumBuckets_insert zero add add_assoc add_comm) by apply lookup_delete_eq.
    by rewrite (mergeTotals_assoc add add_assoc).
  - rewrite (sumBuckets_insert zero add add_assoc add_comm) by done.
    rewrite <- (mergeTotals_assoc add add_assoc).
    by rewrite (mergeTotals_empty zero add add_comm add_zero_l).
Qed.

Lemma sumBuckets_mergePeriodData (a b : gmap string (Bucket num)) :
  sumBuckets zero add (mergePeriodData zero add a b)
  = mergeTotals add (sumBuckets zero add a) (sumBuckets zero add b).
Proof.
  unfold mergePeriodData.
  apply (map_fold_weak_ind (fun r m =>
    sumBuckets zero add r = mergeTotals add (sumBuckets zero add a) (sumBuckets zero add m))).
  - unfold sumBuckets at 3. rewrite map_fold_empty.
    by rewrite (mergeTotals_empty zero add add_comm add_zero_l).
  - intros k sb m r Hk IH.
    rewrite sumBuckets_mergePeriodKey, IH.
    rewrite (sumBuckets_insert zero add add_assoc add_comm) by done.
    apply (mergeTotals_assoc add add_assoc).
Qed.

Lemma mergeResults_totals_sum (a b : ChannelResult num) :
  totals a = sumBuckets zero add (periodData a) ->
  totals b = sumBuckets zero add (periodData b) ->
  totals (mergeResults zero add a b)
  = sumBuckets zero add (periodData (mergeResults zero add a b)).
Proof.
  intros Ha Hb. unfold mergeResults. cbn [totals periodData].
  rewrite sumBuckets_mergePeriodData. by rewrite Ha, Hb.
Qed.

End ExactMerges.

(** ** Sums of buckets of whole numbers, on doubles *)

Section CountedTotals.

Local Open Scope Z_scope.

Lemma fitsB_counts b bk : fitsB b bk -> bucketCounts bk.
Proof. unfold fitsB, fitsM, bucketCounts, counts. lia. Qed.

Lemma addMetrics_counts x y : counts x -> counts y -> counts (addMetrics Z.add x y).
Proof.
  unfold counts, addMetrics. cbn [impressions clicks cost conversions conversionsValue]. lia.
Qed.

Lemma mergeTotals_counts x y :
  bucketCounts x -> bucketCounts y -> bucketCounts (mergeTotals Z.add x y).
Proof.
  intros [Hx1 Hx2] [Hy1 Hy2]. split; cbn [mergeTotals branded nonBranded];
    by apply addMetrics_counts.
Qed.

(** A sum that fits is exact on doubles, and so are its summands. *)
Lemma addMetrics_sum_doubles x y b :
  counts x -> counts y -> fitsM b (addMetrics Z.add x y) -> b < 2 ^ 53 ->
  addMetrics jsAdd (toDoubles x) (toDoubles y) = toDoubles (addMetrics Z.add x y) /\
  fitsM b x.
Proof.
  unfold counts, fitsM, addMetrics, toDoubles.
  cbn [impressions clicks cost conversions conversionsValue].
  intros Hx Hy Hb Hlt. split; [|lia].
  by rewrite !toDouble_add by lia.
Qed.

Lemma mergeTotals_sum_doubles x y b :
  bucketCounts x -> bucketCounts y -> fitsB b (mergeTotals Z.add x y) -> b < 2 ^ 53 ->
  mergeTotals jsAdd (bucketDoubles x) (bucketDoubles y)
  = bucketDoubles (mergeTotals Z.add x y) /\
  fitsB b x.
Proof.
  intros [Hx1 Hx2] [Hy1 Hy2] [Hb1 Hb2] Hlt.
  cbn [mergeTotals branded nonBranded] in Hb1, Hb2.
  destruct (addMetrics_sum_doubles _ _ b Hx1 Hy1 Hb1 Hlt) as [E1 F1].
  destruct (addMetrics_sum_doubles _ _ b Hx2 Hy2 Hb2 Hlt) as [E2 F2].
  split; [|by split].
  unfold mergeTotals, bucketDoubles. cbn [branded nonBranded blank]. by rewrite E1, E2.
Qed.

Lemma foldr_buckets_counts (l : list (string * Bucket Z)) :
  Forall (fun kb => bucketCounts kb.2) l ->
  bucketCounts (foldr (uncurry (fun (_ : string) b acc => mergeTotals Z.add acc b))
                  (emptyPeriodData 0) l).
Proof.
  induction 1 as [|[k bk] l Hb _ IH]; cbn [foldr uncurry].
  - split; cbn; unfold counts; cbn; lia.
  - by apply mergeTotals_counts.
Qed.

Lemma foldr_buckets_doubles (l : list (string * Bucket Z)) b :
  Forall (fun kb => bucketCounts kb.2) l ->
  fitsB b (foldr (uncurry (fun (_ : string) bk acc => mergeTotals Z.add acc bk))
             (emptyPeriodData 0) l) ->
  b < 2 ^ 53 ->
  foldr (uncurry (fun (i : string) => (fun bk acc => mergeTotals jsAdd acc bk) ∘ bucketDoubles))
    (emptyPeriodData jsZero) l
  = bucketDoubles (foldr (uncurry (fun (_ : string) bk acc => mergeTotals Z.add acc bk))
                     (emptyPeriodData 0) l).
Proof.
  intros Hl. revert b. induction Hl as [|[k bk] l Hb Hl IH]; intros b Hfit Hlt.
  - reflexivity.
  - cbn [foldr uncurry compose] in Hfit |- *. cbn [snd] in Hb.
    destruct (mergeTotals_sum_doubles _ bk b (foldr_buckets_counts l Hl) Hb Hfit Hlt)
      as [E F].
    by rewrite (IH b F Hlt), E.
Qed.

Lemma sumBuckets_doubles (pd : gmap string (Bucket Z)) b :
  (forall k bk, pd !! k = Some bk -> bucketCounts bk) ->
  fitsB b (sumBuckets 0 Z.add pd) -> b < 2 ^ 53 ->
  sumBuckets jsZero jsAdd (bucketDoubles <$> pd) = bucketDoubles (sumBuckets 0 Z.add pd).
Proof.
  intros Hpd Hfit Hlt. unfold sumBuckets in *.
  rewrite map_fold_fmap, !map_fold_foldr. rewrite map_fold_foldr in Hfit.
  apply (foldr_buckets_doubles _ b); [|done|done].
  apply Forall_forall. intros [k bk] Hin. apply elem_of_map_to_list in Hin.
  by eapply Hpd.
Qed.

Lemma fitsR_counts b (r : ChannelResult Z) k bk :
  fitsR b r -> periodData r !! k = Some bk -> bucketCounts bk.
Proof. intros [_ H] Hk. eapply fitsB_counts, H, Hk. Qed.

Lemma fitsR_bound b (r : ChannelResult Z) : fitsR b r -> 0 <= b.
Proof. intros [[H _] _]. unfold fitsM in H. lia. Qed.

(** A result of whole numbers whose totals are the sum of its buckets is
    such a result on doubles. *)
Lemma totals_sum_doubles (r : ChannelResult Z) b :
  fitsR b r -> b < 2 ^ 53 ->
  totals r = sumBuckets 0 Z.add (periodData r) ->
  totals (resultDoubles r) = sumBuckets jsZero jsAdd (periodData (resultDoubles r)).
Proof.
  intros Hfit Hlt Hsum. unfold resultDoubles. cbn [totals periodData].
  rewrite (sumBuckets_doubles _ b); [by rewrite Hsum| |by rewrite <- Hsum; apply Hfit|done].
  intros k bk. by apply (fitsR_counts b).
Qed.

Lemma mergeResults_fits (s t : ChannelResult Z) bs bt :
  fitsR bs s -> fitsR bt t -> bs + bt < 2 ^ 53 ->
  fitsR (bs + bt) (mergeResults 0 Z.add s t).
Proof.
  intros Hs Ht Hlt. pose proof (fitsR_bound _ _ Hs) as Hbs. pose proof (fitsR_bound _ _ Ht) as Hbt.
  destruct Hs as [Hs Hsp], Ht as [Ht Htp]. split.
  - by destruct (mergeTotals_doubles _ _ bs bt Hs Ht Hlt) as [_ F].
  - intros k bk. unfold mergeResults. cbn [periodData]. rewrite lookup_mergePeriodData.
    destruct (periodData t !! k) as [sb|] eqn:Et.
    + intros [= <-].
      assert (fitsB bs (default (emptyPeriodData 0) (periodData s !! k))) as Hold.
      { destruct (periodData s !! k) as [x|] eqn:E; [by eapply Hsp|by apply fitsB_empty]. }
      by destruct (mergeTotals_doubles _ sb bs bt Hold (Htp k sb Et) Hlt) as [_ F].
    + intros Hk. eapply fitsB_mono; [|by eapply Hsp]. lia.
Qed.

Lemma noBlank_doubles (r : ChannelResult Z) : noBlank (resultDoubles r) -> noBlank r.
Proof.
  intros [Ht Hp]. split.
  - cbn [resultDoubles totals bucketDoubles blank] in Ht. by destruct (blank (totals r)).
  - intros k bk Hk. specialize (Hp k (bucketDoubles bk)).
    cbn [resultDoubles periodData] in Hp. rewrite lookup_fmap, Hk in Hp.
    specialize (Hp eq_refl). cbn [bucketDoubles blank] in Hp. by destruct (blank bk).
Qed.

End CountedTotals.



(** X11: on doubles, for results whose metrics are whole numbers from 0 to
    bounds that add up to less than 2^53, merging ([mergeTotals] on the
    totals, [mergePeriodData] on the periods) is associative, and
    commutative on results without [blank] entries. *)
Theorem merging_results_is_associative_and_commutative (a b c : ChannelResult Z)
    (boundA boundB boundC : Z) :
  fitsR boundA a -> fitsR boundB b -> fitsR boundC c ->
  (boundA + boundB + boundC < 2 ^ 53)%Z ->
  mergeResults jsZero jsAdd
    (mergeResults jsZero jsAdd (resultDoubles a) (resultDoubles b)) (resultDoubles c)
  = mergeResults jsZero jsAdd
      (resultDoubles a) (mergeResults jsZero jsAdd (resultDoubles b) (resultDoubles c)) /\
  (noBlank (resultDoubles a) -> noBlank (resultDoubles b) ->
   mergeResults jsZero jsAdd (resultDoubles a) (resultDoubles b)
   = mergeResults jsZero jsAdd (resultDoubles b) (resultDoubles a)).
Proof.
  intros Ha Hb Hc Hlt.
  pose proof (fitsR_bound _ _ Ha) as Hna. pose proof (fitsR_bound _ _ Hb) as Hnb.
  pose proof (fitsR_bound _ _ Hc) as Hnc.
  split.
  - rewrite (mergeResults_doubles a b boundA boundB) by (try done; lia).
    rewrite (mergeResults_doubles b c boundB boundC) by (try done; lia).
    rewrite (mergeResults_doubles _ c (boundA + boundB) boundC);
      [|apply mergeResults_fits; try done; lia|done|lia|lia].
    rewrite (mergeResults_doubles a _ boundA (boundB + boundC));
      [|done|apply mergeResults_fits; try done; lia|lia|lia].
    f_equal. apply (mergeResults_assoc 0%Z Z.add Z.add_assoc Z.add_comm Z.add_0_l).
  - intros Hba Hbb. apply noBlank_doubles in Hba, Hbb.
    rewrite (mergeResults_doubles a b boundA boundB) by (try done; lia).
    rewrite (mergeResults_doubles b a boundB boundA) by (try done; lia).
    f_equal. by apply (mergeResults_comm 0%Z Z.add Z.add_comm Z.add_0_l).
Qed.

Lemma merging_results_is_associative_and_commutative_witness :
  let a := aggregate 0%Z Z.add [mkClassified "2024-01" true (mkMetrics 100 10 5 1 20)]%Z in
  let b := aggregate 0%Z Z.add [mkClassified "2024-01" false (mkMetrics 200 20 10 2 40)]%Z in
  let c := aggregate 0%Z Z.add [mkClassified "2024-02" true (mkMetrics 50 5 2 0 0)]%Z in
  mergeResults jsZero jsAdd
    (mergeResults jsZero jsAdd (resultDoubles a) (resultDoubles b)) (resultDoubles c)
  = mergeResults jsZero jsAdd
      (resultDoubles a) (mergeResults jsZero jsAdd (resultDoubles b) (resultDoubles c)) /\
  (noBlank (resultDoubles a) -> noBlank (resultDoubles b) ->
   mergeResults jsZero jsAdd (resultDoubles a) (resultDoubles b)
   = mergeResults jsZero jsAdd (resultDoubles b) (resultDoubles a)).
Proof.
  intros a b c.
  apply (merging_results_is_associative_and_commutative a b c 136 272 57).
  - apply (aggregate_doubles [mkClassified "2024-01" true (mkMetrics 100 10 5 1 20)]%Z).
    + repeat constructor; cbn; lia.
    + vm_compute. reflexivity.
  - apply (aggregate_doubles [mkClassified "2024-01" false (mkMetrics 200 20 10 2 40)]%Z).
    + repeat constructor; cbn; lia.
    + vm_compute. reflexivity.
  - apply (aggregate_doubles [mkClassified "2024-02" true (mkMetrics 50 5 2 0 0)]%Z).
    + repeat constructor; cbn; lia.
    + vm_compute. reflexivity.
  - vm_compute. reflexivity.
Defined.

(** X22: on doubles, merging two results of whole numbers from 0 to
    bounds that add up to less than 2^53, the totals of each being the sum
    of its period buckets, gives a result whose totals are the sum of its
    period buckets. *)
Theorem merging_keeps_the_totals_equal_to_the_sum_of_the_buckets (a b : ChannelResult Z)
    (boundA boundB : Z) :
  fitsR boundA a -> fitsR boundB b -> (boundA + boundB < 2 ^ 53)%Z ->
  totals a = sumBuckets 0%Z Z.add (periodData a) ->
  totals b = sumBuckets 0%Z Z.add (periodData b) ->
  let merged := mergeResults jsZero jsAdd (resultDoubles a) (resultDoubles b) in
  totals (resultDoubles a) = sumBuckets jsZero jsAdd (periodData (resultDoubles a)) /\
  totals (resultDoubles b) = sumBuckets jsZero jsAdd (periodData (resultDoubles b)) /\
  totals merged = sumBuckets jsZero jsAdd (periodData merged).
Proof.
  intros Ha Hb Hlt Hsa Hsb merged.
  pose proof (fitsR_bound _ _ Ha) as Hna. pose proof (fitsR_bound _ _ Hb) as Hnb.
  split; [apply (totals_sum_doubles a boundA); try done; lia|].
  split; [apply (totals_sum_doubles b boundB); try done; lia|].
  unfold merged. rewrite (mergeResults_doubles a b boundA boundB) by (try done; lia).
  apply (totals_sum_doubles _ (boundA + boundB)); [by apply mergeResults_fits|done|].
  by apply (mergeResults_totals_sum 0%Z Z.add Z.add_assoc Z.add_comm Z.add_0_l).
Qed.

Lemma merging_keeps_the_totals_equal_to_the_sum_of_the_buckets_witness :
  let a := aggregate 0%Z Z.add [mkClassified "2024-01" true (mkMetrics 100 10 5 1 20)]%Z in
  let b := aggregate 0%Z Z.add [mkClassified "2024-01" false (mkMetrics 200 20 10 2 40);
                                mkClassified "2024-02" true (mkMetrics 50 5 2 0 0)]%Z in
  let merged := mergeResults jsZero jsAdd (resultDoubles a) (resultDoubles b) in
  totals (resultDoubles a) = sumBuckets jsZero jsAdd (periodData (resultDoubles a)) /\
  totals (resultDoubles b) = sumBuckets jsZero jsAdd (periodData (resultDoubles b)) /\
  totals merged = sumBuckets jsZero jsAdd (periodData merged).
Proof.
  intros a b.
  apply (merging_keeps_the_totals_equal_to_the_sum_of_the_buckets a b 136 329).
  - apply (aggregate_doubles [mkClassified "2024-01" true (mkMetrics 100 10 5 1 20)]%Z).
    + repeat constructor; cbn; lia.
    + vm_compute. reflexivity.
  - apply (aggregate_doubles [mkClassified "2024-01" false (mkMetrics 200 20 10 2 40);
                              mkClassified "2024-02" true (mkMetrics 50 5 2 0 0)]%Z).
    + repeat constructor; cbn; lia.
    + vm_compute. reflexivity.
  - vm_compute. reflexivity.
  - vm_compute. reflexivity.
  - vm_compute. reflexivity.
Defined.


(** ** The override of the Performance Max source *)

Section Override.

Context {num : Type} (zero : num) (add : num -> num -> num).

Lemma accumulate_noBranded (st : ChannelResult num) (r : Classified num) :
  isBrandedRow r = false -> noBranded zero st -> noBranded zero (accumulate zero add st r).
Proof.
  intros Hr [Ht Hp]. split.
  - unfold accumulate, addToBucket. cbn [totals]. by rewrite Hr.
  - intros key b. unfold accumulate. cbn [periodData].
    rewrite addRowToPeriodData_insert.
    destruct (decide (periodKey r = key)) as [<-|Hne].
    + rewrite lookup_insert_eq. intros [= <-]. unfold addToBucket. rewrite Hr. cbn [branded].
      destruct (periodData st !! periodKey r) as [b0|] eqn:E; [by eapply Hp|done].
    + rewrite lookup_insert_ne by done. apply Hp.
Qed.

Lemma aggregate_noBranded (rows : list (Classified num)) :
  Forall (fun r => isBrandedRow r = false) rows -> noBranded zero (aggregate zero add rows).
Proof.
  unfold aggregate.
  assert (noBranded zero (emptyResult zero)) as H0.
  { split; [done|]. intros key b Hb. cbn [emptyResult periodData] in Hb.
    by rewrite lookup_empty in Hb. }
  revert H0. generalize (emptyResult zero).
  induction rows as [|r rows IH]; intros st Hst Hrows; [done|].
  apply Forall_cons in Hrows as [Hr Hrows].
  cbn [fold_left]. apply IH; [by apply accumulate_noBranded|done].
Qed.

End Override.

(** X23: under [PMAX_TREAT_ALL_AS_NON_BRANDED] the Performance Max source
    counts nothing as branded: the branded metrics of its totals and of
    every period are those of [emptyMetrics], whatever the rows. *)
Theorem override_reports_no_branded_volume
    (StringToNumber : string -> float) (BRAND_PATTERNS : list RegExp)
    (g : Granularity) (rows : list Row) :
  noBranded jsZero (processCampaignSearchTermView StringToNumber BRAND_PATTERNS g true rows).
Proof.
  rewrite processCampaignSearchTermView_aggregate. apply aggregate_noBranded.
  apply Forall_forall. intros r Hr. apply list_elem_of_omap in Hr as (row & _ & Hrow).
  unfold decodePmaxRow in Hrow.
  destruct (isExcludedTargetingStatus (segments row)); [done|].
  destruct (negb (truthyString (rowPeriodKey g row))); [done|]. by injection Hrow as <-.
Qed.

(** ** The category table *)

Section CategoryTable.

Variable cfg : Config.
Variable world : World.
Variable BRAND_PATTERNS : list RegExp.

Lemma insight_buckets_have_blank (r : ChannelResult float) :
  snd (processCampaignSearchTermInsight cfg world BRAND_PATTERNS) = inr r ->
  forall key b, periodData r !! key = Some b -> is_Some (blank b).
Proof.
  rewrite processCampaignSearchTermInsight_trace. cbn [snd]. intros [= <-].
  destruct (decide _) as [E|E].
  - intros key b Hb. cbn [periodData] in Hb. by rewrite lookup_empty in Hb.
  - assert (forall periods st, resultHasBlank st ->
              resultHasBlank
                (fold_left (fun st period =>
                   fold_left (fun st campaignId =>
                      match insightReport world campaignId period with
                      | Some rows =>
                          insightRows (StringToNumber world) BRAND_PATTERNS (key period) rows st
                      | None => st
                      end) (campaignIdsOf (campaignRows world)) st) periods st)) as Hfold.
    { induction periods as [|p ps IH]; intros st Hst; [done|].
      cbn [fold_left]. apply IH.
      by apply (campaigns_dom (StringToNumber world) BRAND_PATTERNS (insightReport world)). }
    apply (Hfold _ _ (insightStart_hasBlank)).
Qed.

Lemma noCost_table_shape (pd : gmap string (Bucket float)) :
  (forall key b, pd !! key = Some b -> is_Some (blank b)) ->
  length (buildRawTabRowsNoCost (TIME_GRANULARITY cfg) (monthLabel world) pd)
  = (1 + 3 * size pd)%nat.
Proof.
  intros Hblank. unfold buildRawTabRowsNoCost, forEachPeriod. cbn [length].
  rewrite <- sortedKeys_length.
  assert (forall k, In k (sortedKeys pd) -> exists b m, pd !! k = Some b /\ blank b = Some m)
    as Hin.
  { intros k Hk. apply list_elem_of_In, elem_of_sortedKeys in Hk as [b Hb].
    destruct (Hblank k b Hb) as [m Hm]. by exists b, m. }
  induction (sortedKeys pd) as [|k l IH]; [done|].
  specialize (IH ltac:(intros; apply Hin; by right)).
  cbn [flat_map length]. rewrite length_app.
  destruct (Hin k ltac:(by left)) as (b & m & -> & ->).
  cbn [app length] in IH |- *. lia.
Qed.

End CategoryTable.

(** X24: every bucket of the category result has a [blank] entry, so its
    raw table has one header and three rows per period. *)
Theorem category_table_has_three_rows_per_period
    (cfg : Config) (world : World) (BRAND_PATTERNS : list RegExp) (r : ChannelResult float) :
  snd (processCampaignSearchTermInsight cfg world BRAND_PATTERNS) = inr r ->
  (forall key b, periodData r !! key = Some b -> is_Some (blank b)) /\
  length (buildRawTabRowsNoCost (TIME_GRANULARITY cfg) (monthLabel world) (periodData r))
  = (1 + 3 * size (periodData r))%nat.
Proof.
  intros Hr.
  pose proof (insight_buckets_have_blank cfg world BRAND_PATTERNS r Hr) as Hblank.
  split; [exact Hblank|]. by apply noCost_table_shape.
Qed.

Lemma category_table_has_three_rows_per_period_witness :
  (forall key b,
     periodData
       (resultOr insightStart
          (processCampaignSearchTermInsight (exampleConfig "sheet") januaryWorld
             foodsistersPatterns)) !! key = Some b -> is_Some (blank b)) /\
  length (buildRawTabRowsNoCost (TIME_GRANULARITY (exampleConfig "sheet"))
            (monthLabel januaryWorld)
            (periodData
               (resultOr insightStart
                  (processCampaignSearchTermInsight (exampleConfig "sheet") januaryWorld
                     foodsistersPatterns))))
  = (1 + 3 * size (periodData
                     (resultOr insightStart
                        (processCampaignSearchTermInsight (exampleConfig "sheet") januaryWorld
                           foodsistersPatterns))))%nat.
Proof.
  apply (category_table_has_three_rows_per_period (exampleConfig "sheet") januaryWorld
           foodsistersPatterns).
  vm_compute. reflexivity.
Defined.

(** ** The tables and the ranges they are written to *)

Lemma Forall_flat_map_each {A B : Type} (P : B -> Prop) (f : A -> list B) (l : list A) :
  (forall x, Forall P (f x)) -> Forall P (flat_map f l).
Proof.
  intros Hf. induction l as [|x l IH]; [constructor|].
  cbn [flat_map]. apply Forall_app. by split.
Qed.

Lemma buildBrandedRatioRows_length g ml pd valueType includeBlank :
  length (buildBrandedRatioRows g ml pd valueType includeBlank) = size pd.
Proof.
  unfold buildBrandedRatioRows. rewrite forEachPeriod_map.
  rewrite (flat_map_length_const _ 1) by done. rewrite sortedKeys_length. lia.
Qed.

(** X25: every table is rectangular, with the width of the range it is
    written to: nine cells in a row of a raw table, six in the category
    table, three and four in the bar data of a chart, two in the ratio
    data; and the ratio data has as many rows as the bar data above
    which it is written. *)
Theorem tables_fit_the_ranges_they_are_written_to
    (g : Granularity) (ml : string -> string) (pd : gmap string (Bucket float))
    (valueType : ValueType) (includeBlank : bool) :
  Forall (fun row => length row = 9%nat) (buildRawTabRows g ml pd) /\
  Forall (fun row => length row = 6%nat) (buildRawTabRowsNoCost g ml pd) /\
  Forall (fun row => length row = 3%nat) (buildChartDataRows g ml pd valueType) /\
  Forall (fun row => length row = 4%nat) (buildChartDataRowsWithBlank g ml pd valueType) /\
  Forall (fun row => length row = 2%nat) (buildBrandedRatioRows g ml pd valueType includeBlank) /\
  length (buildBrandedRatioRows g ml pd valueType includeBlank)
  = length (buildChartDataRows g ml pd valueType) /\
  length (buildBrandedRatioRows g ml pd valueType includeBlank)
  = length (buildChartDataRowsWithBlank g ml pd valueType).
Proof.
  split; [|split; [|split; [|split; [|split; [|split]]]]].
  - unfold buildRawTabRows. rewrite forEachPeriod_map. constructor; [done|].
    apply Forall_flat_map_each. intros k. by repeat constructor.
  - unfold buildRawTabRowsNoCost. rewrite forEachPeriod_map. constructor; [done|].
    apply Forall_flat_map_each. intros k.
    destruct (blank (default (emptyPeriodData jsZero) (pd !! k))); by repeat constructor.
  - unfold buildChartDataRows. rewrite forEachPeriod_map.
    apply Forall_flat_map_each. intros k. by repeat constructor.
  - unfold buildChartDataRowsWithBlank. rewrite forEachPeriod_map.
    apply Forall_flat_map_each. intros k. by repeat constructor.
  - unfold buildBrandedRatioRows. rewrite forEachPeriod_map.
    apply Forall_flat_map_each. intros k. by repeat constructor.
  - by rewrite buildBrandedRatioRows_length, buildChartDataRows_length.
  - by rewrite buildBrandedRatioRows_length, buildChartDataRowsWithBlank_length.
Qed.
